(** * TreeBillboardsApp: frame-resource ring, dirty counters, draw order,
      camera clamps, water animation, wave disturbances and wave indices.

    A shallow embedding of [Week7-2-TreeBillboardsApp.cpp].

    Conventions.
    - C++ [int] and [UINT] values are [Z]; the 64-bit fence counter is a [Z]
      whose increment wraps at [2^64].
    - C++ [float] values are exact rationals ([Q]): comparisons and clamps are
      order facts and the claims proved here are interval and counting
      properties, so rounding is left out of the model.
    - Where the code calls [sinf], [cosf] or normalises a vector (the eye
      position, the hill height and normal), [float] values are real
      numbers ([R]) and the calls are the real sine, cosine and square root.
    - [std::vector] is a [list] read with stdpp's lookup; an access outside
      the vector is undefined in C++ and is [None] here.
    - Functions that dereference or index return [option]; [None] is a fault
      or, for the fence wait and the wave update loop, fuel that ran out. *)

From Stdlib Require Import ZArith QArith Qround Reals Qreals Lia Lqa String.
From Stdlib Require Machin Lra.
From stdpp Require Import base list option.

Open Scope Z_scope.

(** ** Machine integers *)

(** [++x] on a [UINT64]. *)
Definition uint64_incr (x : Z) : Z := (x + 1) mod 2 ^ 64.

(** [v[i]] on a [std::vector] with an [int] index. *)
Definition vec_at {A : Type} (v : list A) (i : Z) : option A :=
  if decide (0 <= i) then v !! Z.to_nat i else None.

(** [const int gNumFrameResources = 3;] *)
Definition gNumFrameResources : Z := 3.

(** ** Matrices *)

Definition XMFLOAT4 : Type := (Q * Q * Q * Q)%type.
Definition XMFLOAT4X4 : Type := (XMFLOAT4 * XMFLOAT4 * XMFLOAT4 * XMFLOAT4)%type.

Definition Identity4x4 : XMFLOAT4X4 :=
  ((1, 0, 0, 0), (0, 1, 0, 0), (0, 0, 1, 0), (0, 0, 0, 1))%Q.

Definition XMMatrixTranspose (m : XMFLOAT4X4) : XMFLOAT4X4 :=
  match m with
  | ((a0, a1, a2, a3), (b0, b1, b2, b3), (c0, c1, c2, c3), (d0, d1, d2, d3)) =>
      ((a0, b0, c0, d0), (a1, b1, c1, d1), (a2, b2, c2, d2), (a3, b3, c3, d3))
  end.

(** [m(3, 0)] and [m(3, 1)]: the translation part of a texture transform. *)
Definition m30 (m : XMFLOAT4X4) : Q :=
  match m with (_, _, _, (d0, _, _, _)) => d0 end.
Definition m31 (m : XMFLOAT4X4) : Q :=
  match m with (_, _, _, (_, d1, _, _)) => d1 end.
Definition set_m30 (m : XMFLOAT4X4) (x : Q) : XMFLOAT4X4 :=
  match m with (a, b, c, (_, d1, d2, d3)) => (a, b, c, (x, d1, d2, d3)) end.
Definition set_m31 (m : XMFLOAT4X4) (x : Q) : XMFLOAT4X4 :=
  match m with (a, b, c, (d0, _, d2, d3)) => (a, b, c, (d0, x, d2, d3)) end.

(** ** Scene data *)

(** [struct RenderItem].  [Mat] and [Geo] are pointers into the material and
    geometry tables; they are kept as the table keys. *)
Record RenderItem := {
  World : XMFLOAT4X4;
  TexTransform : XMFLOAT4X4;
  NumFramesDirty : Z;
  ObjCBIndex : Z;
  Mat : string;
  Geo : string;
  IndexCount : Z;
  StartIndexLocation : Z;
  BaseVertexLocation : Z
}.

Definition RenderItem_dec (e : RenderItem) : RenderItem :=
  {| World := World e; TexTransform := TexTransform e;
     NumFramesDirty := NumFramesDirty e - 1;
     ObjCBIndex := ObjCBIndex e; Mat := Mat e; Geo := Geo e;
     IndexCount := IndexCount e; StartIndexLocation := StartIndexLocation e;
     BaseVertexLocation := BaseVertexLocation e |}.

(** [enum class RenderLayer] (without its [Count] sentinel). *)
Inductive RenderLayer := Opaque | Transparent | AlphaTested | AlphaTestedTreeSprites.

(** [struct Material] of the common utilities, with the fields this file
    reads and writes. *)
Record Material := {
  MatCBIndex : Z;
  DiffuseSrvHeapIndex : Z;
  DiffuseAlbedo : XMFLOAT4;
  FresnelR0 : Q * Q * Q;
  Roughness : Q;
  MatTransform : XMFLOAT4X4;
  MatNumFramesDirty : Z
}.

Record ObjectConstants := {
  oc_World : XMFLOAT4X4;
  oc_TexTransform : XMFLOAT4X4
}.

Record MaterialConstants := {
  mc_DiffuseAlbedo : XMFLOAT4;
  mc_FresnelR0 : Q * Q * Q;
  mc_Roughness : Q;
  mc_MatTransform : XMFLOAT4X4
}.

(** [struct FrameResource]: one ring slot.  [Fence] is the value stamped when
    the slot was last submitted; a slot that was never submitted holds 0. *)
Record FrameResource := {
  Fence : Z;
  ObjectCB : list ObjectConstants;
  MaterialCB : list MaterialConstants
}.

Definition FrameResource_set_Fence (f : FrameResource) (v : Z) : FrameResource :=
  {| Fence := v; ObjectCB := ObjectCB f; MaterialCB := MaterialCB f |}.
Definition FrameResource_set_ObjectCB (f : FrameResource) (b : list ObjectConstants) : FrameResource :=
  {| Fence := Fence f; ObjectCB := b; MaterialCB := MaterialCB f |}.
Definition FrameResource_set_MaterialCB (f : FrameResource) (b : list MaterialConstants) : FrameResource :=
  {| Fence := Fence f; ObjectCB := ObjectCB f; MaterialCB := b |}.

(** [UploadBuffer<T>::CopyData(elementIndex, data)]: overwrite one element of
    the mapped buffer; no bounds check in the source, so an index outside the
    buffer is a fault. *)
Definition CopyData {T : Type} (buf : list T) (elementIndex : Z) (data : T) : option (list T) :=
  if decide (0 <= elementIndex < Z.of_nat (length buf))
  then Some (<[Z.to_nat elementIndex := data]> buf)
  else None.

(** [GameTimer]: the two readings the frame functions use, in seconds. *)
Record GameTimer := {
  TotalTime : Q;
  DeltaTime : Q
}.

(** ** The wave field *)

(** The height samples: the current solution and the previous one. *)
Record HeightGrid := {
  curr : list Q;
  prev : list Q
}.

(** Modelled from the spec: [class Waves] ([Waves.h] and [Waves.cpp] are not
    part of the sources at hand).  The field owns one height grid of
    [mNumRows] by [mNumCols] samples stored row by row, the fixed simulation
    time step and the accumulated time not yet simulated. *)
Record Waves := {
  mNumRows : Z;
  mNumCols : Z;
  mTimeStep : Q;
  mGrid : HeightGrid;
  mAccum : Q
}.

Definition RowCount (w : Waves) : Z := mNumRows w.
Definition ColumnCount (w : Waves) : Z := mNumCols w.

(** Modelled from the spec: the vertex count is one vertex per grid sample,
    the triangle count two triangles per grid quad. *)
Definition VertexCount (w : Waves) : Z := mNumRows w * mNumCols w.
Definition TriangleCount (w : Waves) : Z := (mNumRows w - 1) * (mNumCols w - 1) * 2.

Definition Waves_set_grid (w : Waves) (g : HeightGrid) (acc : Q) : Waves :=
  {| mNumRows := mNumRows w; mNumCols := mNumCols w; mTimeStep := mTimeStep w;
     mGrid := g; mAccum := acc |}.

(** The height stored for cell [(i, j)]. *)
Definition height_at (w : Waves) (i j : Z) : option Q :=
  vec_at (curr (mGrid w)) (i * mNumCols w + j).

Definition add_height (k : Z) (d : Q) (h : list Q) : list Q :=
  alter (fun y => (y + d)%Q) (Z.to_nat k) h.

Section WaveModel.

(** The share of the impulse a direct neighbour receives, as a fraction of
    the magnitude; the spec only says it is smaller than the target's. *)
Variable neighbour_fraction : Q.

(** One discrete step of the finite-difference wave equation.  The spec
    names the scheme but not its coefficients; the properties proved here
    count steps and never look inside one. *)
Variable simulation_step : HeightGrid -> HeightGrid.

(** Modelled from the spec: [Waves::Disturb(i, j, magnitude)].  It requires
    the cell to be at least 2 cells from every edge ([None] is the
    precondition violation) and adds the magnitude to the target cell and a
    smaller fraction of it to the four direct neighbours. *)
Definition Disturb (w : Waves) (i j : Z) (magnitude : Q) : option Waves :=
  if decide (2 <= i <= mNumRows w - 3 /\ 2 <= j <= mNumCols w - 3) then
    let n := mNumCols w in
    let part := (neighbour_fraction * magnitude)%Q in
    let h0 := curr (mGrid w) in
    let h1 := add_height (i * n + j) magnitude h0 in
    let h2 := add_height (i * n + j + 1) part h1 in
    let h3 := add_height (i * n + j - 1) part h2 in
    let h4 := add_height ((i + 1) * n + j) part h3 in
    let h5 := add_height ((i - 1) * n + j) part h4 in
    Some (Waves_set_grid w {| curr := h5; prev := prev (mGrid w) |} (mAccum w))
  else None.

(** The loop of [Waves::Update]: while the accumulated time exceeds the time
    step, perform one step and subtract the time step.  The result carries
    the number of steps performed. *)
Fixpoint update_loop (fuel : nat) (dt acc : Q) (g : HeightGrid)
  : option (Q * HeightGrid * nat) :=
  match fuel with
  | O => None
  | S fuel' =>
      if Qlt_le_dec dt acc then
        match update_loop fuel' dt (acc - dt)%Q (simulation_step g) with
        | Some (acc', g', n) => Some (acc', g', S n)
        | None => None
        end
      else Some (acc, g, O)
  end.

(** Modelled from the spec: [Waves::Update(dt)] accumulates the elapsed time
    and then runs the loop above. *)
Definition Waves_Update (w : Waves) (elapsed : Q) (fuel : nat) : option (Waves * nat) :=
  match update_loop fuel (mTimeStep w) (mAccum w + elapsed)%Q (mGrid w) with
  | Some (acc', g', n) => Some (Waves_set_grid w g' acc', n)
  | None => None
  end.


End WaveModel.

(** ** Pseudo-random helpers *)

(** [RAND_MAX] of the C runtime the application is built with. *)
Definition RAND_MAX : Z := 32767.

(** Modelled from the spec: [MathHelper::Rand(a, b)], a pseudo-random integer
    of [[a, b]], computed from one draw [r] of [rand()].  A zero divisor is a
    fault. *)
Definition Rand (a b : Z) (r : Z) : option Z :=
  if decide ((b - a) + 1 = 0) then None else Some (a + Z.rem r ((b - a) + 1)).

(** Modelled from the spec: [MathHelper::RandF(a, b)], a pseudo-random number
    of [[a, b]], computed from one draw [r] of [rand()] scaled to [[0, 1]]. *)
Definition RandF (a b : Q) (r : Z) : Q :=
  (a + (inject_Z r / inject_Z RAND_MAX) * (b - a))%Q.

(** ** Recorded commands and observable events *)

Inductive command :=
| Reset (pso : string)
| SetPipelineState (pso : string)
| SetGraphicsRootDescriptorTable (rootIndex : Z) (heapIndex : Z)
| SetGraphicsRootConstantBufferView (rootIndex : Z) (slot : nat) (elementIndex : Z)
| DrawIndexedInstanced (indexCount startIndex baseVertex : Z).

Inductive event :=
| EvWait (slot : nat) (fence : Z) (first_poll last_poll : nat)
| EvObjectCopy (slot : nat) (item : nat) (elementIndex : Z) (data : ObjectConstants)
| EvMaterialCopy (slot : nat) (name : string) (elementIndex : Z) (data : MaterialConstants)
| EvDisturb (total : Q) (i j : Z) (r : Q)
| EvWaveSteps (n : nat)
| EvExecute (cmds : list command)
| EvSignal (slot : nat) (value : Z).

(** ** Application state *)

(** The members of [TreeBillboardsApp] that the frame functions read and
    write.  [mCurrFrameResource] is a pointer to one element of
    [mFrameResources] and is kept as that element's position ([None] is
    [nullptr]); [mRitemLayer] holds pointers into [mAllRitems], kept as
    positions as well.  [t_base] is the function-local static of
    [UpdateWaves].  [polls] counts the readings of the fence's completion
    counter made so far, [rand_calls] the calls of [rand()], and [trace] is
    the list of observable events, oldest first. *)
Record App := {
  mFrameResources : list FrameResource;
  mCurrFrameResource : option nat;
  mCurrFrameResourceIndex : Z;
  mCurrentFence : Z;
  polls : nat;
  mAllRitems : list RenderItem;
  mRitemLayer : RenderLayer -> list nat;
  mMaterials : list (string * Material);
  mWaves : Waves;
  t_base : Q;
  rand_calls : nat;
  trace : list event
}.

Definition set_ring (s : App) (frs : list FrameResource) (cur : option nat) (idx : Z) : App :=
  {| mFrameResources := frs; mCurrFrameResource := cur; mCurrFrameResourceIndex := idx;
     mCurrentFence := mCurrentFence s; polls := polls s; mAllRitems := mAllRitems s;
     mRitemLayer := mRitemLayer s; mMaterials := mMaterials s; mWaves := mWaves s;
     t_base := t_base s; rand_calls := rand_calls s; trace := trace s |}.

Definition set_frames (s : App) (frs : list FrameResource) : App :=
  set_ring s frs (mCurrFrameResource s) (mCurrFrameResourceIndex s).

Definition set_mCurrentFence (s : App) (v : Z) : App :=
  {| mFrameResources := mFrameResources s; mCurrFrameResource := mCurrFrameResource s;
     mCurrFrameResourceIndex := mCurrFrameResourceIndex s;
     mCurrentFence := v; polls := polls s; mAllRitems := mAllRitems s;
     mRitemLayer := mRitemLayer s; mMaterials := mMaterials s; mWaves := mWaves s;
     t_base := t_base s; rand_calls := rand_calls s; trace := trace s |}.

Definition set_polls (s : App) (p : nat) : App :=
  {| mFrameResources := mFrameResources s; mCurrFrameResource := mCurrFrameResource s;
     mCurrFrameResourceIndex := mCurrFrameResourceIndex s;
     mCurrentFence := mCurrentFence s; polls := p; mAllRitems := mAllRitems s;
     mRitemLayer := mRitemLayer s; mMaterials := mMaterials s; mWaves := mWaves s;
     t_base := t_base s; rand_calls := rand_calls s; trace := trace s |}.

Definition set_mAllRitems (s : App) (items : list RenderItem) : App :=
  {| mFrameResources := mFrameResources s; mCurrFrameResource := mCurrFrameResource s;
     mCurrFrameResourceIndex := mCurrFrameResourceIndex s;
     mCurrentFence := mCurrentFence s; polls := polls s; mAllRitems := items;
     mRitemLayer := mRitemLayer s; mMaterials := mMaterials s; mWaves := mWaves s;
     t_base := t_base s; rand_calls := rand_calls s; trace := trace s |}.

Definition set_mMaterials (s : App) (mats : list (string * Material)) : App :=
  {| mFrameResources := mFrameResources s; mCurrFrameResource := mCurrFrameResource s;
     mCurrFrameResourceIndex := mCurrFrameResourceIndex s;
     mCurrentFence := mCurrentFence s; polls := polls s; mAllRitems := mAllRitems s;
     mRitemLayer := mRitemLayer s; mMaterials := mats; mWaves := mWaves s;
     t_base := t_base s; rand_calls := rand_calls s; trace := trace s |}.

Definition set_waves (s : App) (w : Waves) (tb : Q) (rc : nat) : App :=
  {| mFrameResources := mFrameResources s; mCurrFrameResource := mCurrFrameResource s;
     mCurrFrameResourceIndex := mCurrFrameResourceIndex s;
     mCurrentFence := mCurrentFence s; polls := polls s; mAllRitems := mAllRitems s;
     mRitemLayer := mRitemLayer s; mMaterials := mMaterials s; mWaves := w;
     t_base := tb; rand_calls := rc; trace := trace s |}.

Definition emit (s : App) (evs : list event) : App :=
  {| mFrameResources := mFrameResources s; mCurrFrameResource := mCurrFrameResource s;
     mCurrFrameResourceIndex := mCurrFrameResourceIndex s;
     mCurrentFence := mCurrentFence s; polls := polls s; mAllRitems := mAllRitems s;
     mRitemLayer := mRitemLayer s; mMaterials := mMaterials s; mWaves := mWaves s;
     t_base := t_base s; rand_calls := rand_calls s; trace := trace s ++ evs |}.

(** ** Lookup in the material table *)

Fixpoint assoc_get {V : Type} (k : string) (m : list (string * V)) : option V :=
  match m with
  | [] => None
  | (k', v) :: rest => if String.eqb k k' then Some v else assoc_get k rest
  end.

Fixpoint assoc_set {V : Type} (k : string) (v : V) (m : list (string * V)) : list (string * V) :=
  match m with
  | [] => []
  | (k', v') :: rest =>
      if String.eqb k k' then (k', v) :: rest else (k', v') :: assoc_set k v rest
  end.

(** ** The frame functions *)

(** [AnimateMaterials] on the water material: scroll the texture
    translation, wrap each offset once when it reaches 1, mark dirty. *)
Definition AnimateWater (gt : GameTimer) (waterMat : Material) : Material :=
  let tu := (m30 (MatTransform waterMat) + 0.1 * DeltaTime gt)%Q in
  let tv := (m31 (MatTransform waterMat) + 0.02 * DeltaTime gt)%Q in
  let tu := if Qle_bool 1 tu then (tu - 1)%Q else tu in
  let tv := if Qle_bool 1 tv then (tv - 1)%Q else tv in
  {| MatCBIndex := MatCBIndex waterMat;
     DiffuseSrvHeapIndex := DiffuseSrvHeapIndex waterMat;
     DiffuseAlbedo := DiffuseAlbedo waterMat;
     FresnelR0 := FresnelR0 waterMat;
     Roughness := Roughness waterMat;
     MatTransform := set_m31 (set_m30 (MatTransform waterMat) tu) tv;
     MatNumFramesDirty := gNumFrameResources |}.

Definition AnimateMaterials (gt : GameTimer) (s : App) : option App :=
  waterMat ← assoc_get "water" (mMaterials s);
  Some (set_mMaterials s (assoc_set "water" (AnimateWater gt waterMat) (mMaterials s))).

Definition ObjectConstants_of (e : RenderItem) : ObjectConstants :=
  {| oc_World := XMMatrixTranspose (World e);
     oc_TexTransform := XMMatrixTranspose (TexTransform e) |}.

(** The loop of [UpdateObjectCBs] over [mAllRitems], from position [pos] on:
    an item whose counter is positive is copied into the current slot's
    object buffer at its [ObjCBIndex] and its counter is decremented. *)
Fixpoint UpdateObjectCBs_loop (slot pos : nat) (items : list RenderItem)
    (cb : list ObjectConstants)
  : option (list RenderItem * list ObjectConstants * list event) :=
  match items with
  | [] => Some ([], cb, [])
  | e :: rest =>
      if decide (0 < NumFramesDirty e) then
        let objConstants := ObjectConstants_of e in
        cb1 ← CopyData cb (ObjCBIndex e) objConstants;
        r ← UpdateObjectCBs_loop slot (S pos) rest cb1;
        Some (RenderItem_dec e :: r.1.1, r.1.2,
              EvObjectCopy slot pos (ObjCBIndex e) objConstants :: r.2)
      else
        r ← UpdateObjectCBs_loop slot (S pos) rest cb;
        Some (e :: r.1.1, r.1.2, r.2)
  end.

Definition UpdateObjectCBs (s : App) : option App :=
  cur ← mCurrFrameResource s;
  fr ← mFrameResources s !! cur;
  r ← UpdateObjectCBs_loop cur 0 (mAllRitems s) (ObjectCB fr);
  Some (emit (set_mAllRitems
                (set_frames s (<[cur := FrameResource_set_ObjectCB fr r.1.2]> (mFrameResources s)))
                r.1.1)
             r.2).

Definition MaterialConstants_of (mat : Material) : MaterialConstants :=
  {| mc_DiffuseAlbedo := DiffuseAlbedo mat;
     mc_FresnelR0 := FresnelR0 mat;
     mc_Roughness := Roughness mat;
     mc_MatTransform := XMMatrixTranspose (MatTransform mat) |}.

Definition Material_dec (mat : Material) : Material :=
  {| MatCBIndex := MatCBIndex mat;
     DiffuseSrvHeapIndex := DiffuseSrvHeapIndex mat;
     DiffuseAlbedo := DiffuseAlbedo mat;
     FresnelR0 := FresnelR0 mat;
     Roughness := Roughness mat;
     MatTransform := MatTransform mat;
     MatNumFramesDirty := MatNumFramesDirty mat - 1 |}.

(** The loop of [UpdateMaterialCBs] over the material table. *)
Fixpoint UpdateMaterialCBs_loop (slot : nat) (mats : list (string * Material))
    (cb : list MaterialConstants)
  : option (list (string * Material) * list MaterialConstants * list event) :=
  match mats with
  | [] => Some ([], cb, [])
  | (name, mat) :: rest =>
      if decide (0 < MatNumFramesDirty mat) then
        let matConstants := MaterialConstants_of mat in
        cb1 ← CopyData cb (MatCBIndex mat) matConstants;
        r ← UpdateMaterialCBs_loop slot rest cb1;
        Some ((name, Material_dec mat) :: r.1.1, r.1.2,
              EvMaterialCopy slot name (MatCBIndex mat) matConstants :: r.2)
      else
        r ← UpdateMaterialCBs_loop slot rest cb;
        Some ((name, mat) :: r.1.1, r.1.2, r.2)
  end.

Definition UpdateMaterialCBs (s : App) : option App :=
  cur ← mCurrFrameResource s;
  fr ← mFrameResources s !! cur;
  r ← UpdateMaterialCBs_loop cur (mMaterials s) (MaterialCB fr);
  Some (emit (set_mMaterials
                (set_frames s (<[cur := FrameResource_set_MaterialCB fr r.1.2]> (mFrameResources s)))
                r.1.1)
             r.2).

Section Frame.

(** The completion counter of the fence as the control thread observes it:
    [GetCompletedValue k] is the value of its [k]-th reading. *)
Variable GetCompletedValue : nat -> Z.

(** The values of the successive calls of [rand()]. *)
Variable rand : nat -> Z.

Variable neighbour_fraction : Q.
Variable simulation_step : HeightGrid -> HeightGrid.

(** [SetEventOnCompletion(fence, event)] followed by
    [WaitForSingleObject(event, INFINITE)]: the thread sleeps until a
    reading of the counter has reached [fence]; the result is the position
    of that reading. *)
Fixpoint WaitForSingleObject (fence : Z) (poll : nat) (fuel : nat) : option nat :=
  match fuel with
  | O => None
  | S fuel' =>
      if decide (fence <= GetCompletedValue poll) then Some poll
      else WaitForSingleObject fence (S poll) fuel'
  end.

(** The first part of [Update]: cycle through the ring and wait for the
    slot that becomes current. *)
Definition advance (fuel : nat) (s : App) : option App :=
  let idx := Z.rem (mCurrFrameResourceIndex s + 1) gNumFrameResources in
  fr ← vec_at (mFrameResources s) idx;
  let s1 := set_ring s (mFrameResources s) (Some (Z.to_nat idx)) idx in
  let completed := GetCompletedValue (polls s1) in
  let s2 := set_polls s1 (S (polls s1)) in
  if decide (Fence fr <> 0 /\ completed < Fence fr) then
    woke ← WaitForSingleObject (Fence fr) (polls s2) fuel;
    Some (emit (set_polls s2 (S woke))
               [EvWait (Z.to_nat idx) (Fence fr) (polls s1) woke])
  else Some s2.

(** [UpdateWaves]: every quarter second of total time, disturb a random
    cell; then advance the simulation by the frame's delta time. *)
Definition UpdateWaves (gt : GameTimer) (fuel : nat) (s : App) : option App :=
  s1 ← (if Qle_bool 0.25 (TotalTime gt - t_base s) then
          let tb := (t_base s + 0.25)%Q in
          i ← Rand 4 (RowCount (mWaves s) - 5) (rand (rand_calls s));
          j ← Rand 4 (ColumnCount (mWaves s) - 5) (rand (S (rand_calls s)));
          let r := RandF 0.2 0.5 (rand (S (S (rand_calls s)))) in
          w ← Disturb neighbour_fraction (mWaves s) i j r;
          Some (emit (set_waves s w tb (S (S (S (rand_calls s)))))
                     [EvDisturb (TotalTime gt) i j r])
        else Some s);
  r ← Waves_Update simulation_step (mWaves s1) (DeltaTime gt) fuel;
  Some (emit (set_waves s1 r.1 (t_base s1) (rand_calls s1)) [EvWaveSteps r.2]).

(** [Update].  [wait_fuel] bounds the readings a fence wait may take and
    [sim_fuel] the steps of one wave update.  [OnKeyboardInput] is empty; [UpdateCamera] and
    [UpdateMainPassCB] write the eye position, the view matrix and the pass
    constants only, none of which is read by the functions below. *)
Definition Update (gt : GameTimer) (wait_fuel sim_fuel : nat) (s : App) : option App :=
  s1 ← advance wait_fuel s;
  s2 ← AnimateMaterials gt s1;
  s3 ← UpdateObjectCBs s2;
  s4 ← UpdateMaterialCBs s3;
  UpdateWaves gt sim_fuel s4.

(** [DrawRenderItems]: the commands recorded for one layer. *)
Fixpoint DrawRenderItems (s : App) (cur : nat) (ritems : list nat) : option (list command) :=
  match ritems with
  | [] => Some []
  | p :: rest =>
      ri ← mAllRitems s !! p;
      mat ← assoc_get (Mat ri) (mMaterials s);
      cmds ← DrawRenderItems s cur rest;
      Some (SetGraphicsRootDescriptorTable 0 (DiffuseSrvHeapIndex mat)
            :: SetGraphicsRootConstantBufferView 1 cur (ObjCBIndex ri)
            :: SetGraphicsRootConstantBufferView 3 cur (MatCBIndex mat)
            :: DrawIndexedInstanced (IndexCount ri) (StartIndexLocation ri) (BaseVertexLocation ri)
            :: cmds)
  end.

(** The command list [Draw] records, from the reset to the close. *)
Definition Draw_commands (s : App) (cur : nat) : option (list command) :=
  c1 ← DrawRenderItems s cur (mRitemLayer s Opaque);
  c2 ← DrawRenderItems s cur (mRitemLayer s AlphaTested);
  c3 ← DrawRenderItems s cur (mRitemLayer s AlphaTestedTreeSprites);
  c4 ← DrawRenderItems s cur (mRitemLayer s Transparent);
  Some ([Reset "opaque"; SetGraphicsRootConstantBufferView 2 cur 0]
        ++ c1
        ++ [SetPipelineState "alphaTested"] ++ c2
        ++ [SetPipelineState "treeSprites"] ++ c3
        ++ [SetPipelineState "transparent"] ++ c4).

(** [Draw]: record and execute the command list, then stamp the current
    slot with the incremented fence value and signal it on the queue. *)
Definition Draw (s : App) : option App :=
  cur ← mCurrFrameResource s;
  fr ← mFrameResources s !! cur;
  cmds ← Draw_commands s cur;
  let fence := uint64_incr (mCurrentFence s) in
  let s1 := set_mCurrentFence s fence in
  let s2 := set_frames s1 (<[cur := FrameResource_set_Fence fr fence]> (mFrameResources s1)) in
  Some (emit s2 [EvExecute cmds; EvSignal cur fence]).

(** One frame of the message loop: [Update], then [Draw]. *)
Definition frame (gt : GameTimer) (wait_fuel sim_fuel : nat) (s : App) : option App :=
  s1 ← Update gt wait_fuel sim_fuel s;
  Draw s1.

(** The frames of a run, one per timer reading. *)
Fixpoint run (timers : list GameTimer) (wait_fuel sim_fuel : nat) (s : App) : option App :=
  match timers with
  | [] => Some s
  | gt :: rest => s1 ← frame gt wait_fuel sim_fuel s; run rest wait_fuel sim_fuel s1
  end.

End Frame.

(** ** The orbit camera *)

Record Camera := {
  mTheta : Q;
  mPhi : Q;
  mRadius : Q;
  mLastMousePos : Z * Z
}.

(** Win32 button masks of a mouse message. *)
Definition MK_LBUTTON : Z := 1.
Definition MK_RBUTTON : Z := 2.

(** DirectXMath constants, as their decimal literals. *)
Definition XM_PI : Q := 3.141592654.
Definition XM_PIDIV2 : Q := 1.570796327.

(** Modelled from the spec: [MathHelper::Pi], the constant the polar clamp
    names, as its decimal literal. *)
Definition MathHelper_Pi : Q := 3.1415926535.

Definition XMConvertToRadians (fDegrees : Q) : Q := (fDegrees * (XM_PI / 180))%Q.

(** Modelled from the spec: [MathHelper::Clamp(x, low, high)], the value of
    [x] restricted to the range from [low] to [high]:
    [x < low ? low : (x > high ? high : x)]. *)
Definition Clamp (x low high : Q) : Q :=
  if Qlt_le_dec x low then low
  else if Qlt_le_dec high x then high
  else x.

(** The camera members as the class initialises them; the last mouse
    position is whatever [OnMouseDown] stored. *)
Definition Camera_init (pos : Z * Z) : Camera :=
  {| mTheta := (1.5 * XM_PI)%Q;
     mPhi := (XM_PIDIV2 - 0.1)%Q;
     mRadius := 50%Q;
     mLastMousePos := pos |}.

Definition OnMouseMove (btnState x y : Z) (c : Camera) : Camera :=
  if decide (Z.land btnState MK_LBUTTON <> 0) then
    let dx := XMConvertToRadians (0.25 * inject_Z (x - fst (mLastMousePos c)))%Q in
    let dy := XMConvertToRadians (0.25 * inject_Z (y - snd (mLastMousePos c)))%Q in
    {| mTheta := (mTheta c + dx)%Q;
       mPhi := Clamp (mPhi c + dy)%Q 0.1%Q (MathHelper_Pi - 0.1)%Q;
       mRadius := mRadius c;
       mLastMousePos := (x, y) |}
  else if decide (Z.land btnState MK_RBUTTON <> 0) then
    let dx := (0.2 * inject_Z (x - fst (mLastMousePos c)))%Q in
    let dy := (0.2 * inject_Z (y - snd (mLastMousePos c)))%Q in
    {| mTheta := mTheta c;
       mPhi := mPhi c;
       mRadius := Clamp (mRadius c + (dx - dy))%Q 5%Q 150%Q;
       mLastMousePos := (x, y) |}
  else
    {| mTheta := mTheta c; mPhi := mPhi c; mRadius := mRadius c;
       mLastMousePos := (x, y) |}.

(** A sequence of mouse-move messages [(btnState, x, y)], oldest first. *)
Definition mouse_moves (msgs : list (Z * Z * Z)) (c : Camera) : Camera :=
  foldl (fun c m => OnMouseMove m.1.1 m.1.2 m.2 c) c msgs.

(** ** The index buffer of the wave grid *)

(** A value stored into a [std::uint16_t]. *)
Definition to_uint16 (v : Z) : Z := v mod 2 ^ 16.

(** [for (int i = first; i < first + count; ++i) body]. *)
Fixpoint for_loop {St : Type} (count : nat) (i : Z) (body : Z -> St -> option St) (s : St)
  : option St :=
  match count with
  | O => Some s
  | S count' => s1 ← body i s; for_loop count' (i + 1) body s1
  end.

(** [indices[k] = v] on a [std::vector<std::uint16_t>]. *)
Definition store16 (indices : list Z) (k v : Z) : option (list Z) :=
  CopyData indices k (to_uint16 v).

(** The six values the loop body computes for the quad [(i, j)], before they
    are stored. *)
Definition quad_indices (n i j : Z) : list Z :=
  [ i * n + j; i * n + j + 1; (i + 1) * n + j;
    (i + 1) * n + j; i * n + j + 1; (i + 1) * n + j + 1 ].

(** The body of the inner loop: six stores, then [k += 6]. *)
Definition quad_body (n i : Z) (j : Z) (st : list Z * Z) : option (list Z * Z) :=
  let '(indices, k) := st in
  a0 ← store16 indices k (i * n + j);
  a1 ← store16 a0 (k + 1) (i * n + j + 1);
  a2 ← store16 a1 (k + 2) ((i + 1) * n + j);
  a3 ← store16 a2 (k + 3) ((i + 1) * n + j);
  a4 ← store16 a3 (k + 4) (i * n + j + 1);
  a5 ← store16 a4 (k + 5) ((i + 1) * n + j + 1);
  Some (a5, k + 6).

Definition row_body (m n : Z) (i : Z) (st : list Z * Z) : option (list Z * Z) :=
  for_loop (Z.to_nat (n - 1)) 0 (quad_body n i) st.

(** The index part of [BuildWavesGeometry]: the vector is created with
    [3 * TriangleCount] zeroes and filled quad by quad; the result is the
    vector and the final value of [k]. *)
Definition BuildWavesIndices (w : Waves) : option (list Z * Z) :=
  let indices := replicate (Z.to_nat (3 * TriangleCount w)) 0 in
  let m := RowCount w in
  let n := ColumnCount w in
  for_loop (Z.to_nat (m - 1)) 0 (row_body m n) (indices, 0).

(** The values the loops generate, in the order they are stored: those of
    [c] quads of row [i] from column [j0] on, those of [rows] rows from row
    [i0] on, and those of the whole grid. *)
Definition row_values (n : Z) (i : Z) (j0 c : nat) : list Z :=
  mjoin ((fun j : nat => quad_indices n i (Z.of_nat j)) <$> seq j0 c).

Definition grid_values (n : Z) (c : nat) (i0 rows : nat) : list Z :=
  mjoin ((fun i : nat => row_values n (Z.of_nat i) 0 c) <$> seq i0 rows).

Definition generated_indices (m n : Z) : list Z :=
  grid_values n (Z.to_nat (n - 1)) 0 (Z.to_nat (m - 1)).

(** ** Reading a command list and a trace *)

(** The pipeline state in effect at each draw call of a command list. *)
Fixpoint draw_states (pso : string) (cmds : list command) : list string :=
  match cmds with
  | [] => []
  | Reset p :: rest => draw_states p rest
  | SetPipelineState p :: rest => draw_states p rest
  | DrawIndexedInstanced _ _ _ :: rest => pso :: draw_states pso rest
  | _ :: rest => draw_states pso rest
  end.

(** The events a run has added to the trace of [s] by the time it is [s']. *)
Definition since (s s' : App) : list event := drop (length (trace s)) (trace s').

Definition is_wait (e : event) : bool :=
  match e with EvWait _ _ _ _ => true | _ => false end.

(** The slots into which the object constants of the item at position [p]
    were copied. *)
Fixpoint object_copies (p : nat) (tr : list event) : list (nat * Z * ObjectConstants) :=
  match tr with
  | [] => []
  | EvObjectCopy slot item k data :: rest =>
      if decide (item = p) then (slot, k, data) :: object_copies p rest
      else object_copies p rest
  | _ :: rest => object_copies p rest
  end.

(** The disturbances of a trace: total time at the call and its arguments. *)
Fixpoint disturbances (tr : list event) : list (Q * Z * Z * Q) :=
  match tr with
  | [] => []
  | EvDisturb total i j r :: rest => (total, i, j, r) :: disturbances rest
  | _ :: rest => disturbances rest
  end.

(** The ring as the fence protocol sees it: the stamped values of the slots,
    the current slot, the fence counter of the queue and the readings made. *)
Definition fences (s : App) : list Z := Fence <$> mFrameResources s.

Definition ring_view (s : App) : list Z * option nat * Z * Z * nat :=
  (fences s, mCurrFrameResource s, mCurrFrameResourceIndex s, mCurrentFence s, polls s).

(** ** Initial values *)

(** Modelled from the spec: the field [Initialize] constructs with
    [Waves(128, 128, 1.0f, 0.03f, 4.0f, 0.2f)]: 128 by 128 samples at rest,
    time step 0.03, no accumulated time. *)
Definition Waves_init : Waves :=
  {| mNumRows := 128; mNumCols := 128; mTimeStep := 0.03;
     mGrid := {| curr := replicate (Z.to_nat (128 * 128)) 0%Q;
                 prev := replicate (Z.to_nat (128 * 128)) 0%Q |};
     mAccum := 0 |}.

(** [BuildFrameResources]: [gNumFrameResources] slots, none submitted yet,
    with one object record per render item and one material record per
    material. *)
Definition BuildFrameResources (items : list RenderItem) (mats : list (string * Material))
  : list FrameResource :=
  replicate (Z.to_nat gNumFrameResources)
    {| Fence := 0;
       ObjectCB := replicate (length items)
                     {| oc_World := Identity4x4; oc_TexTransform := Identity4x4 |};
       MaterialCB := replicate (length mats)
                       {| mc_DiffuseAlbedo := (1, 1, 1, 1)%Q; mc_FresnelR0 := (0, 0, 0)%Q;
                          mc_Roughness := 0; mc_MatTransform := Identity4x4 |} |}.

(** ** A small scene for the examples *)

Definition example_item (k : Z) (mat geo : string) : RenderItem :=
  {| World := Identity4x4; TexTransform := Identity4x4;
     NumFramesDirty := gNumFrameResources; ObjCBIndex := k;
     Mat := mat; Geo := geo; IndexCount := 36; StartIndexLocation := 0;
     BaseVertexLocation := 0 |}.

Definition example_material (k : Z) (alpha : Q) : Material :=
  {| MatCBIndex := k; DiffuseSrvHeapIndex := k;
     DiffuseAlbedo := (1, 1, 1, alpha)%Q; FresnelR0 := (0.01, 0.01, 0.01)%Q;
     Roughness := 0.125; MatTransform := Identity4x4;
     MatNumFramesDirty := gNumFrameResources |}.

Definition example_items : list RenderItem :=
  [ example_item 0 "water" "waterGeo"; example_item 1 "grass" "landGeo";
    example_item 2 "wirefence" "boxGeo"; example_item 3 "treeSprites" "treeSpritesGeo" ].

Definition example_materials : list (string * Material) :=
  [ ("grass", example_material 0 1); ("water", example_material 1 0.5);
    ("wirefence", example_material 2 1); ("treeSprites", example_material 3 1) ]%string.

Definition example_layers (l : RenderLayer) : list nat :=
  match l with
  | Opaque => [1%nat]
  | Transparent => [0%nat]
  | AlphaTested => [2%nat]
  | AlphaTestedTreeSprites => [3%nat]
  end.

(** The application right after initialisation, with the small scene. *)
Definition example_app : App :=
  {| mFrameResources := BuildFrameResources example_items example_materials;
     mCurrFrameResource := None;
     mCurrFrameResourceIndex := 0;
     mCurrentFence := 1;
     polls := 0;
     mAllRitems := example_items;
     mRitemLayer := example_layers;
     mMaterials := example_materials;
     mWaves := Waves_init;
     t_base := 0;
     rand_calls := 0;
     trace := [] |}.


(** A completion counter that grows by one at every reading. *)
Definition example_gpu (k : nat) : Z := Z.of_nat k.

(** A source of random draws and a step for the examples. *)
Definition example_rand (k : nat) : Z := (Z.of_nat k * 7919) mod (RAND_MAX + 1).
Definition example_step (g : HeightGrid) : HeightGrid :=
  {| curr := (fun h => h / 2)%Q <$> curr g; prev := curr g |}.

Definition example_timers : list GameTimer :=
  [ {| TotalTime := 0.1; DeltaTime := 0.1 |}; {| TotalTime := 0.2; DeltaTime := 0.1 |};
    {| TotalTime := 0.3; DeltaTime := 0.1 |}; {| TotalTime := 0.4; DeltaTime := 0.1 |} ].

(** ** Per-item reading of the object-constant loop *)

(** What one pass of [UpdateObjectCBs] does to a single render item, and the
    copy it performs for it into the slot [slot]. *)
Definition item_after_pass (e : RenderItem) : RenderItem :=
  if decide (0 < NumFramesDirty e) then RenderItem_dec e else e.

Definition item_copy (slot : nat) (e : RenderItem) : list (nat * Z * ObjectConstants) :=
  if decide (0 < NumFramesDirty e) then [(slot, ObjCBIndex e, ObjectConstants_of e)] else [].

(** A trace without any fence wait. *)
Definition no_wait (evs : list event) : Prop := Forall (fun e => is_wait e = false) evs.

(** The example application after the four example frames. *)
Definition example_app_after : App :=
  default example_app
    (run example_gpu example_rand (1 # 2) example_step example_timers 10 10 example_app).


(** The example application after the [Update] of its first frame, and
    after the [Draw] that follows. *)
Definition example_app_updated : App :=
  default example_app
    (Update example_gpu example_rand (1 # 2) example_step
            {| TotalTime := 0.1; DeltaTime := 0.1 |} 10 10 example_app).

Definition example_app_drawn : App :=
  default example_app (Draw example_app_updated).

(** The field at rest after an impulse of magnitude zero at its centre, and
    the field after one update of 0.02 seconds. *)
Definition example_waves_zero_impulse : Waves :=
  default Waves_init (Disturb (1 # 2) Waves_init 64 64 0).


(** ** Per-material reading of the material-constant loop *)

Definition material_after_pass (mat : Material) : Material :=
  if decide (0 < MatNumFramesDirty mat) then Material_dec mat else mat.


(** A command that binds a constant buffer binds one of the slot [cur]. *)
Definition binds_slot (cur : nat) (c : command) : Prop :=
  match c with
  | SetGraphicsRootConstantBufferView _ slot _ => slot = cur
  | _ => True
  end.

(** The object-constant record each draw call of a command list reads: the
    element bound at root parameter 1 when the draw is issued. *)
Fixpoint drawn_objects (bound : option Z) (cmds : list command) : list (option Z) :=
  match cmds with
  | [] => []
  | SetGraphicsRootConstantBufferView 1 _ k :: rest => drawn_objects (Some k) rest
  | DrawIndexedInstanced _ _ _ :: rest => bound :: drawn_objects bound rest
  | _ :: rest => drawn_objects bound rest
  end.

(** ** Triangles of an index list *)

(** The index list read three by three, as a triangle list is. *)
Fixpoint triangles (l : list Z) : list (Z * Z * Z) :=
  match l with
  | a :: b :: c :: rest => (a, b, c) :: triangles rest
  | _ => []
  end.

Definition distinct_corners (t : Z * Z * Z) : Prop :=
  t.1.1 <> t.1.2 /\ t.1.2 <> t.2 /\ t.1.1 <> t.2.

(** ** The tree sprites *)

(** [struct TreeSpriteVertex] of [BuildTreeSpritesGeometry]. *)
Record TreeSpriteVertex := {
  ts_Pos : Q * Q * Q;
  ts_Size : Q * Q
}.

(** [static const int treeCount = 5;] *)
Definition treeCount : Z := 5.

(** The body of the loop over the trees: two draws of [rand()] for [x] and
    [z], the height 4 raised by 8, and the store into [vertices[i]].  The
    state is the array and the number of calls of [rand()] made so far. *)
Definition tree_body (rand : nat -> Z) (i : Z)
    (st : list (option TreeSpriteVertex) * nat) : option (list (option TreeSpriteVertex) * nat) :=
  let '(vertices, calls) := st in
  let x := RandF (-25) 25 (rand calls) in
  let z := RandF (-25) 25 (rand (S calls)) in
  let y := (4 + 8)%Q in
  v ← CopyData vertices i (Some {| ts_Pos := (x, y, z); ts_Size := (20, 20)%Q |});
  Some (v, S (S calls)).

(** The vertex and index part of [BuildTreeSpritesGeometry]: an array of 16
    vertices, not initialised ([None]) until the loop stores into it, and the
    16 indices of the initialiser list. *)
Definition BuildTreeSprites (rand : nat -> Z) (calls : nat)
  : option (list (option TreeSpriteVertex) * list Z * nat) :=
  r ← for_loop (Z.to_nat treeCount) 0 (tree_body rand) (replicate 16 None, calls);
  Some (r.1, [0; 1; 2; 3; 4; 5; 6; 7; 8; 9; 10; 11; 12; 13; 14; 15], r.2).

(** The object-constant buffers of the ring, slot by slot. *)
Definition obj_buffers (s : App) : list (list ObjectConstants) :=
  ObjectCB <$> mFrameResources s.

(** The buffer of the slot [j] places behind the current one holds the
    object constants of [e] at the index of [e]. *)
Definition slot_holds (s : App) (e : RenderItem) (j : Z) : Prop :=
  exists cb,
    obj_buffers s !! Z.to_nat ((mCurrFrameResourceIndex s - j) mod 3) = Some cb /\
    vec_at cb (ObjCBIndex e) = Some (ObjectConstants_of e).

(** ** Well-formed application states *)








(** ** The eye position *)

(** [UpdateCamera]: the spherical coordinates of the camera converted to the
    Cartesian eye position [(x, y, z)], with [sinf] and [cosf] read as the
    real sine and cosine.  The view matrix is then built by
    [XMMatrixLookAtLH] from this position, the origin as target and the
    up vector [(0, 1, 0)]. *)
Definition UpdateCamera (c : Camera) : R * R * R :=
  let mRadius := Q2R (mRadius c) in
  let mPhi := Q2R (mPhi c) in
  let mTheta := Q2R (mTheta c) in
  ((mRadius * sin mPhi * cos mTheta)%R,
   (mRadius * cos mPhi)%R,
   (mRadius * sin mPhi * sin mTheta)%R).

(** ** The land mesh *)

(** [GetHillsHeight], with [sinf] and [cosf] read as the real sine and
    cosine. *)
Definition GetHillsHeight (x z : R) : R :=
  (0.3 * (z * sin (0.1 * x) + x * cos (0.1 * z)))%R.

(** The local [n] of [GetHillsNormal] before it is normalised. *)
Definition GetHillsNormal_n (x z : R) : R * R * R :=
  ((- 0.03 * z * cos (0.1 * x) - 0.3 * cos (0.1 * z))%R,
   1%R,
   (- 0.3 * sin (0.1 * x) + 0.03 * x * sin (0.1 * z))%R).

(** DirectXMath's [XMVector3Length] and [XMVector3Normalize]: the vector
    scaled by the reciprocal of its length; a vector of length zero is
    scaled by zero. *)
Definition XMVector3Length (v : R * R * R) : R :=
  sqrt (v.1.1 * v.1.1 + v.1.2 * v.1.2 + v.2 * v.2)%R.

Definition XMVector3Normalize (v : R * R * R) : R * R * R :=
  let fLength := XMVector3Length v in
  let fLength := if Rlt_dec 0 fLength then (1 / fLength)%R else fLength in
  ((v.1.1 * fLength)%R, (v.1.2 * fLength)%R, (v.2 * fLength)%R).

Definition GetHillsNormal (x z : R) : R * R * R :=
  XMVector3Normalize (GetHillsNormal_n x z).

(** The two members of a [GeometryGenerator::Vertex] that
    [BuildLandGeometry] reads, and the [Vertex] it writes. *)
Record MeshVertex := {
  Position : R * R * R;
  mv_TexC : R * R
}.

Record Vertex := {
  Pos : R * R * R;
  Normal : R * R * R;
  TexC : R * R
}.

(** The body of the vertex loop of [BuildLandGeometry]: the position is
    copied, its height is then overwritten with 3 (the call of
    [GetHillsHeight] is commented out), the normal is that of the hills. *)
Definition land_vertex (g : MeshVertex) : Vertex :=
  let p := Position g in
  {| Pos := (p.1.1, 3%R, p.2);
     Normal := GetHillsNormal p.1.1 p.2;
     TexC := mv_TexC g |}.

(** The vertex array [BuildLandGeometry] fills from the generated grid. *)
Definition BuildLandGeometry_vertices (grid : list MeshVertex) : list Vertex :=
  land_vertex <$> grid.

(** A grid vertex in the middle of the land, for the examples. *)
Definition example_grid_vertex : MeshVertex :=
  {| Position := (0%R, 0%R, 0%R); mv_TexC := (0.5%R, 0.5%R) |}.

(** ** The dynamic vertex buffer of the waves *)

Record WaveVertex := {
  wv_Pos : Q * Q * Q;
  wv_Normal : Q * Q * Q;
  wv_TexC : Q * Q
}.

Section WaveVertices.

(** [Waves::Position(i)], [Waves::Normal(i)], [Waves::Width()] and
    [Waves::Depth()]: what the wave field exposes for vertex [i]. *)
Variable Waves_Position : Z -> Q * Q * Q.
Variable Waves_Normal : Z -> Q * Q * Q.
Variable Waves_Width : Q.
Variable Waves_Depth : Q.

(** The vertex the loop of [UpdateWaves] builds for index [i]. *)
Definition wave_vertex (i : Z) : WaveVertex :=
  let p := Waves_Position i in
  {| wv_Pos := p;
     wv_Normal := Waves_Normal i;
     wv_TexC := ((0.5 + p.1.1 / Waves_Width)%Q, (0.5 - p.2 / Waves_Depth)%Q) |}.

(** The loop of [UpdateWaves] over the vertices: [CopyData(i, v)] into the
    current slot's wave vertex buffer for [i] from 0 below the vertex
    count. *)
Definition UpdateWaves_vertices (vertexCount : Z) (currWavesVB : list WaveVertex)
  : option (list WaveVertex) :=
  for_loop (Z.to_nat vertexCount) 0 (fun i vb => CopyData vb i (wave_vertex i)) currWavesVB.

End WaveVertices.

(** A three-vertex strip and a stale buffer for the examples. *)
Definition example_wave_position (i : Z) : Q * Q * Q := ((inject_Z i - 1)%Q, 0%Q, 0%Q).
Definition example_wave_normal (i : Z) : Q * Q * Q := (0%Q, 1%Q, 0%Q).
Definition example_stale_vertex : WaveVertex :=
  {| wv_Pos := (9, 9, 9)%Q; wv_Normal := (0, 0, 1)%Q; wv_TexC := (7, 7)%Q |}.

(** ** The scene the program builds *)

(** [XMMatrixScaling], [XMMatrixTranslation] and the matrix product of
    DirectXMath, on row vectors. *)
Definition XMMatrixScaling (sx sy sz : Q) : XMFLOAT4X4 :=
  ((sx, 0, 0, 0), (0, sy, 0, 0), (0, 0, sz, 0), (0, 0, 0, 1))%Q.

Definition XMMatrixTranslation (x y z : Q) : XMFLOAT4X4 :=
  ((1, 0, 0, 0), (0, 1, 0, 0), (0, 0, 1, 0), (x, y, z, 1))%Q.

Definition row_times (r : XMFLOAT4) (m : XMFLOAT4X4) : XMFLOAT4 :=
  match r, m with
  | (r0, r1, r2, r3),
    ((a0, a1, a2, a3), (b0, b1, b2, b3), (c0, c1, c2, c3), (d0, d1, d2, d3)) =>
      (r0 * a0 + r1 * b0 + r2 * c0 + r3 * d0,
       r0 * a1 + r1 * b1 + r2 * c1 + r3 * d1,
       r0 * a2 + r1 * b2 + r2 * c2 + r3 * d2,
       r0 * a3 + r1 * b3 + r2 * c3 + r3 * d3)%Q
  end.

Definition XMMatrixMultiply (m1 m2 : XMFLOAT4X4) : XMFLOAT4X4 :=
  match m1 with
  | (a, b, c, d) => (row_times a m2, row_times b m2, row_times c m2, row_times d m2)
  end.

(** [BuildMaterials].  A fresh [Material] has the identity as its
    transform and [gNumFrameResources] as its dirty counter. *)
Definition grass_material : Material :=
  {| MatCBIndex := 0;
     DiffuseSrvHeapIndex := 0;
     DiffuseAlbedo := (1, 1, 1, 1)%Q;
     FresnelR0 := (0.01, 0.01, 0.01)%Q;
     Roughness := 0.125;
     MatTransform := Identity4x4;
     MatNumFramesDirty := gNumFrameResources |}.

Definition water_material : Material :=
  {| MatCBIndex := 1;
     DiffuseSrvHeapIndex := 1;
     DiffuseAlbedo := (1, 1, 1, 0.5)%Q;
     FresnelR0 := (0.1, 0.1, 0.1)%Q;
     Roughness := 0;
     MatTransform := Identity4x4;
     MatNumFramesDirty := gNumFrameResources |}.

Definition wirefence_material : Material :=
  {| MatCBIndex := 2;
     DiffuseSrvHeapIndex := 2;
     DiffuseAlbedo := (1, 1, 1, 1)%Q;
     FresnelR0 := (0.02, 0.02, 0.02)%Q;
     Roughness := 0.25;
     MatTransform := Identity4x4;
     MatNumFramesDirty := gNumFrameResources |}.

Definition treeSprites_material : Material :=
  {| MatCBIndex := 6;
     DiffuseSrvHeapIndex := 6;
     DiffuseAlbedo := (1, 1, 1, 1)%Q;
     FresnelR0 := (0.01, 0.01, 0.01)%Q;
     Roughness := 0.125;
     MatTransform := Identity4x4;
     MatNumFramesDirty := gNumFrameResources |}.

Definition bricks_material : Material :=
  {| MatCBIndex := 3;
     DiffuseSrvHeapIndex := 3;
     DiffuseAlbedo := (1, 1, 1, 1)%Q;
     FresnelR0 := (0.02, 0.02, 0.02)%Q;
     Roughness := 0.25;
     MatTransform := Identity4x4;
     MatNumFramesDirty := gNumFrameResources |}.

Definition tiles_material : Material :=
  {| MatCBIndex := 4;
     DiffuseSrvHeapIndex := 4;
     DiffuseAlbedo := (1, 1, 1, 1)%Q;
     FresnelR0 := (0.02, 0.02, 0.02)%Q;
     Roughness := 0.25;
     MatTransform := Identity4x4;
     MatNumFramesDirty := gNumFrameResources |}.

Definition wood_material : Material :=
  {| MatCBIndex := 5;
     DiffuseSrvHeapIndex := 5;
     DiffuseAlbedo := (1, 1, 1, 1)%Q;
     FresnelR0 := (0.01, 0.01, 0.01)%Q;
     Roughness := 0.125;
     MatTransform := Identity4x4;
     MatNumFramesDirty := gNumFrameResources |}.

Definition BuildMaterials : list (string * Material) :=
  [ ("grass", grass_material);
    ("water", water_material);
    ("wirefence", wirefence_material);
    ("treeSprites", treeSprites_material);
    ("bricks", bricks_material);
    ("tiles", tiles_material);
    ("wood", wood_material) ]%string.

Section BuiltScene.

(** The draw arguments [Geo->DrawArgs[name]] the geometry builders stored:
    index count, start index and base vertex of the submesh [name] of the
    geometry [geo]. *)
Variable DrawArgs : string -> string -> Z * Z * Z.

(** The value of the fence counter when [Initialize] returns, after the
    flushes of the command queue made during start-up. *)
Variable initial_fence : Z.

(** [BuildRenderItems], item by item in the order of the source. *)
Definition wavesRitem : RenderItem :=
  {| World := Identity4x4;
     TexTransform := XMMatrixScaling 5 5 1;
     NumFramesDirty := gNumFrameResources;
     ObjCBIndex := 0;
     Mat := "water";
     Geo := "waterGeo";
     IndexCount := (DrawArgs "waterGeo" "grid").1.1;
     StartIndexLocation := (DrawArgs "waterGeo" "grid").1.2;
     BaseVertexLocation := (DrawArgs "waterGeo" "grid").2 |}.

Definition gridRitem : RenderItem :=
  {| World := Identity4x4;
     TexTransform := XMMatrixScaling 5 5 1;
     NumFramesDirty := gNumFrameResources;
     ObjCBIndex := 1;
     Mat := "grass";
     Geo := "landGeo";
     IndexCount := (DrawArgs "landGeo" "grid").1.1;
     StartIndexLocation := (DrawArgs "landGeo" "grid").1.2;
     BaseVertexLocation := (DrawArgs "landGeo" "grid").2 |}.

Definition boxRitem : RenderItem :=
  {| World := XMMatrixMultiply (XMMatrixScaling 1 0.6 0) (XMMatrixTranslation 0 6 (- 15));
     TexTransform := Identity4x4;
     NumFramesDirty := gNumFrameResources;
     ObjCBIndex := 2;
     Mat := "wirefence";
     Geo := "boxGeo";
     IndexCount := (DrawArgs "boxGeo" "box").1.1;
     StartIndexLocation := (DrawArgs "boxGeo" "box").1.2;
     BaseVertexLocation := (DrawArgs "boxGeo" "box").2 |}.

Definition boxRitem1 : RenderItem :=
  {| World := XMMatrixMultiply (XMMatrixScaling 1 1.8 1) (XMMatrixTranslation 0 11.5 10);
     TexTransform := Identity4x4;
     NumFramesDirty := gNumFrameResources;
     ObjCBIndex := 3;
     Mat := "bricks";
     Geo := "boxGeo";
     IndexCount := (DrawArgs "boxGeo" "box").1.1;
     StartIndexLocation := (DrawArgs "boxGeo" "box").1.2;
     BaseVertexLocation := (DrawArgs "boxGeo" "box").2 |}.

Definition cylinderRitem1 : RenderItem :=
  {| World := XMMatrixMultiply (XMMatrixScaling 0.2 0.3 0.2) (XMMatrixTranslation 32 9 22);
     TexTransform := Identity4x4;
     NumFramesDirty := gNumFrameResources;
     ObjCBIndex := 4;
     Mat := "bricks";
     Geo := "cylinderGeo";
     IndexCount := (DrawArgs "cylinderGeo" "cylinder").1.1;
     StartIndexLocation := (DrawArgs "cylinderGeo" "cylinder").1.2;
     BaseVertexLocation := (DrawArgs "cylinderGeo" "cylinder").2 |}.

Definition cylinderRitem2 : RenderItem :=
  {| World := XMMatrixMultiply (XMMatrixScaling 0.2 0.3 0.2) (XMMatrixTranslation (- 32) 9 (- 15));
     TexTransform := Identity4x4;
     NumFramesDirty := gNumFrameResources;
     ObjCBIndex := 5;
     Mat := "bricks";
     Geo := "cylinderGeo";
     IndexCount := (DrawArgs "cylinderGeo" "cylinder").1.1;
     StartIndexLocation := (DrawArgs "cylinderGeo" "cylinder").1.2;
     BaseVertexLocation := (DrawArgs "cylinderGeo" "cylinder").2 |}.

Definition cylinderRitem3 : RenderItem :=
  {| World := XMMatrixMultiply (XMMatrixScaling 0.2 0.3 0.2) (XMMatrixTranslation 32 9 (- 15));
     TexTransform := Identity4x4;
     NumFramesDirty := gNumFrameResources;
     ObjCBIndex := 6;
     Mat := "bricks";
     Geo := "cylinderGeo";
     IndexCount := (DrawArgs "cylinderGeo" "cylinder").1.1;
     StartIndexLocation := (DrawArgs "cylinderGeo" "cylinder").1.2;
     BaseVertexLocation := (DrawArgs "cylinderGeo" "cylinder").2 |}.

Definition cylinderRitem4 : RenderItem :=
  {| World := XMMatrixMultiply (XMMatrixScaling 0.2 0.3 0.2) (XMMatrixTranslation (- 32) 9 22);
     TexTransform := Identity4x4;
     NumFramesDirty := gNumFrameResources;
     ObjCBIndex := 7;
     Mat := "bricks";
     Geo := "cylinderGeo";
     IndexCount := (DrawArgs "cylinderGeo" "cylinder").1.1;
     StartIndexLocation := (DrawArgs "cylinderGeo" "cylinder").1.2;
     BaseVertexLocation := (DrawArgs "cylinderGeo" "cylinder").2 |}.

Definition coneRitem1 : RenderItem :=
  {| World := XMMatrixMultiply (XMMatrixScaling 0.3 0.1 0.3) (XMMatrixTranslation (- 32) 16 22);
     TexTransform := Identity4x4;
     NumFramesDirty := gNumFrameResources;
     ObjCBIndex := 8;
     Mat := "tiles";
     Geo := "coneGeo";
     IndexCount := (DrawArgs "coneGeo" "cone").1.1;
     StartIndexLocation := (DrawArgs "coneGeo" "cone").1.2;
     BaseVertexLocation := (DrawArgs "coneGeo" "cone").2 |}.

Definition coneRitem2 : RenderItem :=
  {| World := XMMatrixMultiply (XMMatrixScaling 0.3 0.1 0.3) (XMMatrixTranslation (- 32) 16 (- 15));
     TexTransform := Identity4x4;
     NumFramesDirty := gNumFrameResources;
     ObjCBIndex := 9;
     Mat := "tiles";
     Geo := "coneGeo";
     IndexCount := (DrawArgs "coneGeo" "cone").1.1;
     StartIndexLocation := (DrawArgs "coneGeo" "cone").1.2;
     BaseVertexLocation := (DrawArgs "coneGeo" "cone").2 |}.

Definition coneRitem3 : RenderItem :=
  {| World := XMMatrixMultiply (XMMatrixScaling 0.3 0.1 0.3) (XMMatrixTranslation 32 16 22);
     TexTransform := Identity4x4;
     NumFramesDirty := gNumFrameResources;
     ObjCBIndex := 10;
     Mat := "tiles";
     Geo := "coneGeo";
     IndexCount := (DrawArgs "coneGeo" "cone").1.1;
     StartIndexLocation := (DrawArgs "coneGeo" "cone").1.2;
     BaseVertexLocation := (DrawArgs "coneGeo" "cone").2 |}.

Definition coneRitem4 : RenderItem :=
  {| World := XMMatrixMultiply (XMMatrixScaling 0.3 0.1 0.3) (XMMatrixTranslation 32 16 (- 15));
     TexTransform := Identity4x4;
     NumFramesDirty := gNumFrameResources;
     ObjCBIndex := 11;
     Mat := "tiles";
     Geo := "coneGeo";
     IndexCount := (DrawArgs "coneGeo" "cone").1.1;
     StartIndexLocation := (DrawArgs "coneGeo" "cone").1.2;
     BaseVertexLocation := (DrawArgs "coneGeo" "cone").2 |}.

Definition coneRitem5 : RenderItem :=
  {| World := XMMatrixMultiply (XMMatrixScaling 0.3 0.1 0.3) (XMMatrixTranslation 5.5 16 (- 15));
     TexTransform := Identity4x4;
     NumFramesDirty := gNumFrameResources;
     ObjCBIndex := 12;
     Mat := "tiles";
     Geo := "coneGeo";
     IndexCount := (DrawArgs "coneGeo" "cone").1.1;
     StartIndexLocation := (DrawArgs "coneGeo" "cone").1.2;
     BaseVertexLocation := (DrawArgs "coneGeo" "cone").2 |}.

Definition coneRitem6 : RenderItem :=
  {| World := XMMatrixMultiply (XMMatrixScaling 0.3 0.1 0.3) (XMMatrixTranslation (- 5.5) 16 (- 15));
     TexTransform := Identity4x4;
     NumFramesDirty := gNumFrameResources;
     ObjCBIndex := 13;
     Mat := "tiles";
     Geo := "coneGeo";
     IndexCount := (DrawArgs "coneGeo" "cone").1.1;
     StartIndexLocation := (DrawArgs "coneGeo" "cone").1.2;
     BaseVertexLocation := (DrawArgs "coneGeo" "cone").2 |}.

Definition boxRitem3 : RenderItem :=
  {| World := XMMatrixMultiply (XMMatrixScaling 2.8 0.8 0.1) (XMMatrixTranslation (- 18) 6.5 (- 15));
     TexTransform := Identity4x4;
     NumFramesDirty := gNumFrameResources;
     ObjCBIndex := 14;
     Mat := "bricks";
     Geo := "boxGeo";
     IndexCount := (DrawArgs "boxGeo" "box").1.1;
     StartIndexLocation := (DrawArgs "boxGeo" "box").1.2;
     BaseVertexLocation := (DrawArgs "boxGeo" "box").2 |}.

Definition boxRitem4 : RenderItem :=
  {| World := XMMatrixMultiply (XMMatrixScaling 2.8 0.8 0.1) (XMMatrixTranslation 18 6.5 (- 15));
     TexTransform := Identity4x4;
     NumFramesDirty := gNumFrameResources;
     ObjCBIndex := 15;
     Mat := "bricks";
     Geo := "boxGeo";
     IndexCount := (DrawArgs "boxGeo" "box").1.1;
     StartIndexLocation := (DrawArgs "boxGeo" "box").1.2;
     BaseVertexLocation := (DrawArgs "boxGeo" "box").2 |}.

Definition boxRitem5 : RenderItem :=
  {| World := XMMatrixMultiply (XMMatrixScaling 6.2 0.8 0.1) (XMMatrixTranslation 0 6.5 22);
     TexTransform := Identity4x4;
     NumFramesDirty := gNumFrameResources;
     ObjCBIndex := 16;
     Mat := "bricks";
     Geo := "boxGeo";
     IndexCount := (DrawArgs "boxGeo" "box").1.1;
     StartIndexLocation := (DrawArgs "boxGeo" "box").1.2;
     BaseVertexLocation := (DrawArgs "boxGeo" "box").2 |}.

Definition boxRitem6 : RenderItem :=
  {| World := XMMatrixMultiply (XMMatrixScaling 0.1 0.8 3.6) (XMMatrixTranslation 32 6.5 3);
     TexTransform := Identity4x4;
     NumFramesDirty := gNumFrameResources;
     ObjCBIndex := 17;
     Mat := "bricks";
     Geo := "boxGeo";
     IndexCount := (DrawArgs "boxGeo" "box").1.1;
     StartIndexLocation := (DrawArgs "boxGeo" "box").1.2;
     BaseVertexLocation := (DrawArgs "boxGeo" "box").2 |}.

Definition boxRitem7 : RenderItem :=
  {| World := XMMatrixMultiply (XMMatrixScaling 0.1 0.8 3.6) (XMMatrixTranslation (- 32) 6.5 3);
     TexTransform := Identity4x4;
     NumFramesDirty := gNumFrameResources;
     ObjCBIndex := 18;
     Mat := "bricks";
     Geo := "boxGeo";
     IndexCount := (DrawArgs "boxGeo" "box").1.1;
     StartIndexLocation := (DrawArgs "boxGeo" "box").1.2;
     BaseVertexLocation := (DrawArgs "boxGeo" "box").2 |}.

Definition cylinderRitem5 : RenderItem :=
  {| World := XMMatrixMultiply (XMMatrixScaling 0.2 0.3 0.2) (XMMatrixTranslation 5.5 9 (- 15));
     TexTransform := Identity4x4;
     NumFramesDirty := gNumFrameResources;
     ObjCBIndex := 19;
     Mat := "bricks";
     Geo := "cylinderGeo";
     IndexCount := (DrawArgs "cylinderGeo" "cylinder").1.1;
     StartIndexLocation := (DrawArgs "cylinderGeo" "cylinder").1.2;
     BaseVertexLocation := (DrawArgs "cylinderGeo" "cylinder").2 |}.

Definition cylinderRitem6 : RenderItem :=
  {| World := XMMatrixMultiply (XMMatrixScaling 0.2 0.3 0.2) (XMMatrixTranslation (- 5.5) 9 (- 15));
     TexTransform := Identity4x4;
     NumFramesDirty := gNumFrameResources;
     ObjCBIndex := 20;
     Mat := "bricks";
     Geo := "cylinderGeo";
     IndexCount := (DrawArgs "cylinderGeo" "cylinder").1.1;
     StartIndexLocation := (DrawArgs "cylinderGeo" "cylinder").1.2;
     BaseVertexLocation := (DrawArgs "cylinderGeo" "cylinder").2 |}.

Definition boxRitem8 : RenderItem :=
  {| World := XMMatrixMultiply (XMMatrixScaling 0.3 0.3 0.3) (XMMatrixTranslation 15 4.5 0);
     TexTransform := Identity4x4;
     NumFramesDirty := gNumFrameResources;
     ObjCBIndex := 21;
     Mat := "wood";
     Geo := "boxGeo";
     IndexCount := (DrawArgs "boxGeo" "box").1.1;
     StartIndexLocation := (DrawArgs "boxGeo" "box").1.2;
     BaseVertexLocation := (DrawArgs "boxGeo" "box").2 |}.

Definition boxRitem9 : RenderItem :=
  {| World := XMMatrixMultiply (XMMatrixScaling 0.3 0.3 0.3) (XMMatrixTranslation (- 15) 4.5 0);
     TexTransform := Identity4x4;
     NumFramesDirty := gNumFrameResources;
     ObjCBIndex := 22;
     Mat := "wood";
     Geo := "boxGeo";
     IndexCount := (DrawArgs "boxGeo" "box").1.1;
     StartIndexLocation := (DrawArgs "boxGeo" "box").1.2;
     BaseVertexLocation := (DrawArgs "boxGeo" "box").2 |}.

Definition cylinderRitem7 : RenderItem :=
  {| World := XMMatrixMultiply (XMMatrixScaling 0.2 0.5 0.2) (XMMatrixTranslation (- 5) 12 5);
     TexTransform := Identity4x4;
     NumFramesDirty := gNumFrameResources;
     ObjCBIndex := 23;
     Mat := "bricks";
     Geo := "cylinderGeo";
     IndexCount := (DrawArgs "cylinderGeo" "cylinder").1.1;
     StartIndexLocation := (DrawArgs "cylinderGeo" "cylinder").1.2;
     BaseVertexLocation := (DrawArgs "cylinderGeo" "cylinder").2 |}.

Definition cylinderRitem8 : RenderItem :=
  {| World := XMMatrixMultiply (XMMatrixScaling 0.2 0.5 0.2) (XMMatrixTranslation 5 12 5);
     TexTransform := Identity4x4;
     NumFramesDirty := gNumFrameResources;
     ObjCBIndex := 24;
     Mat := "bricks";
     Geo := "cylinderGeo";
     IndexCount := (DrawArgs "cylinderGeo" "cylinder").1.1;
     StartIndexLocation := (DrawArgs "cylinderGeo" "cylinder").1.2;
     BaseVertexLocation := (DrawArgs "cylinderGeo" "cylinder").2 |}.

Definition cylinderRitem9 : RenderItem :=
  {| World := XMMatrixMultiply (XMMatrixScaling 0.2 0.5 0.2) (XMMatrixTranslation (- 5) 12 15);
     TexTransform := Identity4x4;
     NumFramesDirty := gNumFrameResources;
     ObjCBIndex := 25;
     Mat := "bricks";
     Geo := "cylinderGeo";
     IndexCount := (DrawArgs "cylinderGeo" "cylinder").1.1;
     StartIndexLocation := (DrawArgs "cylinderGeo" "cylinder").1.2;
     BaseVertexLocation := (DrawArgs "cylinderGeo" "cylinder").2 |}.

Definition cylinderRitem10 : RenderItem :=
  {| World := XMMatrixMultiply (XMMatrixScaling 0.2 0.5 0.2) (XMMatrixTranslation 5 12 15);
     TexTransform := Identity4x4;
     NumFramesDirty := gNumFrameResources;
     ObjCBIndex := 26;
     Mat := "bricks";
     Geo := "cylinderGeo";
     IndexCount := (DrawArgs "cylinderGeo" "cylinder").1.1;
     StartIndexLocation := (DrawArgs "cylinderGeo" "cylinder").1.2;
     BaseVertexLocation := (DrawArgs "cylinderGeo" "cylinder").2 |}.

Definition coneRitem7 : RenderItem :=
  {| World := XMMatrixMultiply (XMMatrixScaling 0.3 0.1 0.3) (XMMatrixTranslation 5 24 5);
     TexTransform := Identity4x4;
     NumFramesDirty := gNumFrameResources;
     ObjCBIndex := 27;
     Mat := "tiles";
     Geo := "coneGeo";
     IndexCount := (DrawArgs "coneGeo" "cone").1.1;
     StartIndexLocation := (DrawArgs "coneGeo" "cone").1.2;
     BaseVertexLocation := (DrawArgs "coneGeo" "cone").2 |}.

Definition coneRitem8 : RenderItem :=
  {| World := XMMatrixMultiply (XMMatrixScaling 0.3 0.1 0.3) (XMMatrixTranslation (- 5) 24 5);
     TexTransform := Identity4x4;
     NumFramesDirty := gNumFrameResources;
     ObjCBIndex := 28;
     Mat := "tiles";
     Geo := "coneGeo";
     IndexCount := (DrawArgs "coneGeo" "cone").1.1;
     StartIndexLocation := (DrawArgs "coneGeo" "cone").1.2;
     BaseVertexLocation := (DrawArgs "coneGeo" "cone").2 |}.

Definition coneRitem9 : RenderItem :=
  {| World := XMMatrixMultiply (XMMatrixScaling 0.3 0.1 0.3) (XMMatrixTranslation 5 24 15);
     TexTransform := Identity4x4;
     NumFramesDirty := gNumFrameResources;
     ObjCBIndex := 29;
     Mat := "tiles";
     Geo := "coneGeo";
     IndexCount := (DrawArgs "coneGeo" "cone").1.1;
     StartIndexLocation := (DrawArgs "coneGeo" "cone").1.2;
     BaseVertexLocation := (DrawArgs "coneGeo" "cone").2 |}.

Definition coneRitem10 : RenderItem :=
  {| World := XMMatrixMultiply (XMMatrixScaling 0.3 0.1 0.3) (XMMatrixTranslation (- 5) 24 15);
     TexTransform := Identity4x4;
     NumFramesDirty := gNumFrameResources;
     ObjCBIndex := 30;
     Mat := "tiles";
     Geo := "coneGeo";
     IndexCount := (DrawArgs "coneGeo" "cone").1.1;
     StartIndexLocation := (DrawArgs "coneGeo" "cone").1.2;
     BaseVertexLocation := (DrawArgs "coneGeo" "cone").2 |}.

Definition treeSpritesRitem : RenderItem :=
  {| World := Identity4x4;
     TexTransform := Identity4x4;
     NumFramesDirty := gNumFrameResources;
     ObjCBIndex := 31;
     Mat := "treeSprites";
     Geo := "treeSpritesGeo";
     IndexCount := (DrawArgs "treeSpritesGeo" "points").1.1;
     StartIndexLocation := (DrawArgs "treeSpritesGeo" "points").1.2;
     BaseVertexLocation := (DrawArgs "treeSpritesGeo" "points").2 |}.

(** [mAllRitems] after [BuildRenderItems], in the order of the
    [push_back] calls. *)
Definition BuildRenderItems_mAllRitems : list RenderItem :=
  [ boxRitem1; cylinderRitem1; cylinderRitem2; cylinderRitem3; cylinderRitem4;
    coneRitem1; coneRitem2; coneRitem3; coneRitem4; coneRitem5; coneRitem6; boxRitem3;
    boxRitem4; boxRitem5; boxRitem6; boxRitem7; cylinderRitem5; cylinderRitem6;
    boxRitem8; boxRitem9; cylinderRitem7; cylinderRitem8; cylinderRitem9;
    cylinderRitem10; coneRitem7; coneRitem8; coneRitem9; coneRitem10; wavesRitem;
    gridRitem; boxRitem; treeSpritesRitem ].

(** [mRitemLayer] after [BuildRenderItems]: each layer in the order of its
    [push_back] calls, every pointer as the position of its item in
    [mAllRitems]. *)
Definition BuildRenderItems_mRitemLayer (l : RenderLayer) : list nat :=
  match l with
  | Opaque =>
      (* gridRitem, boxRitem1, cylinderRitem1, cylinderRitem2, cylinderRitem3,
         cylinderRitem4, coneRitem1, coneRitem2, coneRitem3, coneRitem4, coneRitem5,
         coneRitem6, boxRitem3, boxRitem4, boxRitem5, boxRitem6, boxRitem7,
         cylinderRitem5, cylinderRitem6, boxRitem8, boxRitem9, cylinderRitem7,
         cylinderRitem8, cylinderRitem9, cylinderRitem10, coneRitem7, coneRitem8,
         coneRitem9, coneRitem10 *)
      [ 29; 0; 1; 2; 3; 4; 5; 6; 7; 8; 9; 10; 11; 12; 13; 14; 15; 16; 17; 18; 19; 20;
        21; 22; 23; 24; 25; 26; 27 ]%nat
  | Transparent =>
      (* wavesRitem *)
      [ 28 ]%nat
  | AlphaTested =>
      (* boxRitem *)
      [ 30 ]%nat
  | AlphaTestedTreeSprites =>
      (* treeSpritesRitem *)
      [ 31 ]%nat
  end.

(** The application when [Initialize] returns: materials, render items and
    frame resources built, the wave field of 128 by 128 samples, and the ten
    calls of [rand()] of [BuildTreeSpritesGeometry] made. *)
Definition Initialize : App :=
  {| mFrameResources := BuildFrameResources BuildRenderItems_mAllRitems BuildMaterials;
     mCurrFrameResource := None;
     mCurrFrameResourceIndex := 0;
     mCurrentFence := initial_fence;
     polls := 0;
     mAllRitems := BuildRenderItems_mAllRitems;
     mRitemLayer := BuildRenderItems_mRitemLayer;
     mMaterials := BuildMaterials;
     mWaves := Waves_init;
     t_base := 0;
     rand_calls := 10;
     trace := [] |}.

End BuiltScene.

(** Draw arguments for the examples: every submesh has 36 indices. *)
Definition example_DrawArgs (geo name : string) : Z * Z * Z := (36, 0, 0).

(** ** Textures and their descriptors *)

Record Texture := {
  tex_Name : string;
  Filename : string
}.

Definition new_Texture (name file : string) : string * Texture :=
  (name, {| tex_Name := name; Filename := file |}).

(** [LoadTextures]: the table [mTextures], keyed by the texture names, in
    the order of the assignments. *)
Definition LoadTextures : list (string * Texture) :=
  [ new_Texture "grassTex" "../../Textures/grass.dds";
    new_Texture "waterTex" "../../Textures/water1.dds";
    new_Texture "fenceTex" "../../Textures/WireFence.dds";
    new_Texture "brickTex" "../../Textures/bricks2.dds";
    new_Texture "tileTex" "../../Textures/bricks3.dds";
    new_Texture "woodTex" "../../Textures/WoodCrate02.dds";
    new_Texture "treeArrayTex" "../../Textures/treeArray.dds" ].

Inductive D3D12_SRV_DIMENSION :=
| D3D12_SRV_DIMENSION_TEXTURE2D
| D3D12_SRV_DIMENSION_TEXTURE2DARRAY.

(** A shader resource view as [BuildDescriptorHeaps] creates it: the
    texture it shows and the view dimension of [srvDesc] at that moment. *)
Record ShaderResourceView := {
  srv_Resource : Texture;
  srv_ViewDimension : D3D12_SRV_DIMENSION
}.

(** [CreateShaderResourceView(resource, &srvDesc, hDescriptor)]: the view
    is written into the descriptor the handle points to; a handle outside
    the heap is a fault. *)
Definition CreateShaderResourceView (heap : list (option ShaderResourceView))
    (resource : Texture) (ViewDimension : D3D12_SRV_DIMENSION) (hDescriptor : Z)
  : option (list (option ShaderResourceView)) :=
  CopyData heap hDescriptor
           (Some {| srv_Resource := resource; srv_ViewDimension := ViewDimension |}).

(** [BuildDescriptorHeaps]: a heap of 7 descriptors, filled from its start
    by moving the handle one descriptor at a time.  A texture name missing
    from [mTextures] is a fault (a null pointer is dereferenced). *)
Definition BuildDescriptorHeaps (mTextures : list (string * Texture))
  : option (list (option ShaderResourceView)) :=
  let NumDescriptors := 7 in
  let heap := replicate (Z.to_nat NumDescriptors) None in
  let hDescriptor := 0 in
  grassTex ← assoc_get "grassTex" mTextures;
  waterTex ← assoc_get "waterTex" mTextures;
  fenceTex ← assoc_get "fenceTex" mTextures;
  brickTex ← assoc_get "brickTex" mTextures;
  tileTex ← assoc_get "tileTex" mTextures;
  woodTex ← assoc_get "woodTex" mTextures;
  treeArrayTex ← assoc_get "treeArrayTex" mTextures;
  let ViewDimension := D3D12_SRV_DIMENSION_TEXTURE2D in
  heap ← CreateShaderResourceView heap grassTex ViewDimension hDescriptor;
  let hDescriptor := hDescriptor + 1 in
  heap ← CreateShaderResourceView heap waterTex ViewDimension hDescriptor;
  let hDescriptor := hDescriptor + 1 in
  heap ← CreateShaderResourceView heap fenceTex ViewDimension hDescriptor;
  let hDescriptor := hDescriptor + 1 in
  heap ← CreateShaderResourceView heap brickTex ViewDimension hDescriptor;
  let hDescriptor := hDescriptor + 1 in
  heap ← CreateShaderResourceView heap tileTex ViewDimension hDescriptor;
  let hDescriptor := hDescriptor + 1 in
  heap ← CreateShaderResourceView heap woodTex ViewDimension hDescriptor;
  let hDescriptor := hDescriptor + 1 in
  let ViewDimension := D3D12_SRV_DIMENSION_TEXTURE2DARRAY in
  CreateShaderResourceView heap treeArrayTex ViewDimension hDescriptor.

(** The descriptor heap of the program, empty if its construction faults. *)
Definition mSrvDescriptorHeap : list (option ShaderResourceView) :=
  default [] (BuildDescriptorHeaps LoadTextures).

(** The view dimension the draws under a pipeline state are meant to bind:
    a texture array for the tree sprites, a plain 2D texture otherwise. *)
Definition expected_dimension (pso : string) : D3D12_SRV_DIMENSION :=
  if String.eqb pso "treeSprites" then D3D12_SRV_DIMENSION_TEXTURE2DARRAY
  else D3D12_SRV_DIMENSION_TEXTURE2D.

(** The descriptor [k] of the heap holds a view of the dimension expected
    under the pipeline state [pso]. *)
Definition srv_ok (heap : list (option ShaderResourceView)) (pso : string) (k : Z) : Prop :=
  exists view, vec_at heap k = Some (Some view) /\
               srv_ViewDimension view = expected_dimension pso.

(** Every descriptor table a command list binds holds a view of the
    dimension expected under the pipeline state current at that command. *)
Fixpoint bindings_match (heap : list (option ShaderResourceView)) (pso : string)
    (cmds : list command) : Prop :=
  match cmds with
  | [] => True
  | Reset p :: rest => bindings_match heap p rest
  | SetPipelineState p :: rest => bindings_match heap p rest
  | SetGraphicsRootDescriptorTable _ k :: rest =>
      srv_ok heap pso k /\ bindings_match heap pso rest
  | _ :: rest => bindings_match heap pso rest
  end.

(** The pipeline state [Draw] selects before it draws a layer. *)
Definition layer_pso (l : RenderLayer) : string :=
  match l with
  | Opaque => "opaque"
  | AlphaTested => "alphaTested"
  | AlphaTestedTreeSprites => "treeSprites"
  | Transparent => "transparent"
  end.

(** Every item of the layer [l] has a material whose texture descriptor has
    the dimension expected under the pipeline state of that layer. *)
Definition layer_textures (heap : list (option ShaderResourceView)) (s : App)
    (l : RenderLayer) : Prop :=
  Forall (fun p => forall ri mat,
            mAllRitems s !! p = Some ri -> assoc_get (Mat ri) (mMaterials s) = Some mat ->
            srv_ok heap (layer_pso l) (DiffuseSrvHeapIndex mat))
         (mRitemLayer s l).

(** What the frames leave alone: the material of every render item, the
    layers, and the texture descriptor of every material. *)
Definition same_shape (s s' : App) : Prop :=
  Mat <$> mAllRitems s' = Mat <$> mAllRitems s /\
  (forall l, mRitemLayer s' l = mRitemLayer s l) /\
  (forall name, DiffuseSrvHeapIndex <$> assoc_get name (mMaterials s')
                = DiffuseSrvHeapIndex <$> assoc_get name (mMaterials s)).

(** The built scene after the four example frames, and after the [Update]
    of a fifth. *)
Definition example_scene_after : App :=
  default (Initialize example_DrawArgs 1)
    (run example_gpu example_rand (1 # 2) example_step example_timers 10 10
         (Initialize example_DrawArgs 1)).

Definition example_scene_updated : App :=
  default example_scene_after
    (Update example_gpu example_rand (1 # 2) example_step
            {| TotalTime := 0.5; DeltaTime := 0.1 |} 10 10 example_scene_after).

Definition example_scene_commands : list command :=
  default [] (Draw_commands example_scene_updated 2).

(** * Properties *)

(** ** The fence wait *)

Section FenceWait.

Variable gpu : nat -> Z.

Lemma wait_sound fence fuel : forall poll woke,
  WaitForSingleObject gpu fence poll fuel = Some woke ->
  (poll <= woke < poll + fuel)%nat /\ fence <= gpu woke /\
  (forall k, (poll <= k < woke)%nat -> gpu k < fence).
Proof.
  induction fuel as [|fuel IH]; intros poll woke H; simpl in H; [discriminate|].
  destruct (decide (fence <= gpu poll)) as [Hle|Hgt].
  - injection H as <-. split; [lia|]. split; [assumption|]. intros k Hk; lia.
  - apply IH in H as (Hr & Hf & Hb). split; [lia|]. split; [assumption|].
    intros k Hk. destruct (decide (k = poll)) as [->|Hne]; [lia|].
    apply Hb; lia.
Qed.



End FenceWait.

(** ** C1: back-pressure of the ring *)


(** ** What each frame function leaves alone *)

Lemma since_app (s s' : App) (evs : list event) :
  trace s' = trace s ++ evs -> since s s' = evs.
Proof. intros H. unfold since. rewrite H. apply drop_app_length. Qed.

Lemma fences_insert_same (frs : list FrameResource) (cur : nat) (fr fr' : FrameResource) :
  frs !! cur = Some fr -> Fence fr' = Fence fr ->
  Fence <$> <[cur := fr']> frs = Fence <$> frs.
Proof.
  intros Hl Hf. rewrite list_fmap_insert, Hf.
  apply list_insert_id. rewrite list_lookup_fmap, Hl. reflexivity.
Qed.

Lemma AnimateMaterials_inv gt s s' :
  AnimateMaterials gt s = Some s' ->
  exists waterMat, assoc_get "water" (mMaterials s) = Some waterMat /\
    s' = set_mMaterials s (assoc_set "water" (AnimateWater gt waterMat) (mMaterials s)).
Proof.
  unfold AnimateMaterials. intros H.
  destruct (assoc_get "water" (mMaterials s)) as [w|]; [|discriminate].
  simpl in H. injection H as <-. eauto.
Qed.

Lemma UpdateObjectCBs_inv s s' :
  UpdateObjectCBs s = Some s' ->
  exists cur fr items cb evs,
    mCurrFrameResource s = Some cur /\ mFrameResources s !! cur = Some fr /\
    UpdateObjectCBs_loop cur 0 (mAllRitems s) (ObjectCB fr) = Some (items, cb, evs) /\
    s' = emit (set_mAllRitems
                 (set_frames s (<[cur := FrameResource_set_ObjectCB fr cb]> (mFrameResources s)))
                 items) evs.
Proof.
  unfold UpdateObjectCBs. intros H.
  destruct (mCurrFrameResource s) as [cur|]; [|discriminate]. simpl in H.
  destruct (mFrameResources s !! cur) as [fr|] eqn:Hfr; [|discriminate]. simpl in H.
  destruct (UpdateObjectCBs_loop cur 0 (mAllRitems s) (ObjectCB fr)) as [[[items cb] evs]|] eqn:Hl;
    [|discriminate].
  simpl in H. injection H as <-. exists cur, fr, items, cb, evs. auto.
Qed.

Lemma UpdateMaterialCBs_inv s s' :
  UpdateMaterialCBs s = Some s' ->
  exists cur fr mats cb evs,
    mCurrFrameResource s = Some cur /\ mFrameResources s !! cur = Some fr /\
    UpdateMaterialCBs_loop cur (mMaterials s) (MaterialCB fr) = Some (mats, cb, evs) /\
    s' = emit (set_mMaterials
                 (set_frames s (<[cur := FrameResource_set_MaterialCB fr cb]> (mFrameResources s)))
                 mats) evs.
Proof.
  unfold UpdateMaterialCBs. intros H.
  destruct (mCurrFrameResource s) as [cur|]; [|discriminate]. simpl in H.
  destruct (mFrameResources s !! cur) as [fr|] eqn:Hfr; [|discriminate]. simpl in H.
  destruct (UpdateMaterialCBs_loop cur (mMaterials s) (MaterialCB fr)) as [[[mats cb] evs]|] eqn:Hl;
    [|discriminate].
  simpl in H. injection H as <-. exists cur, fr, mats, cb, evs. auto.
Qed.

Lemma UpdateWaves_inv rand nf step gt fuel s s' :
  UpdateWaves rand nf step gt fuel s = Some s' ->
  exists w tb rc evs n,
    s' = emit (set_waves s w tb rc) (evs ++ [EvWaveSteps n]) /\
    ((Qle_bool 0.25 (TotalTime gt - t_base s) = false /\ evs = [] /\ tb = t_base s /\
      rc = rand_calls s /\
      Waves_Update step (mWaves s) (DeltaTime gt) fuel = Some (w, n))
     \/
     (Qle_bool 0.25 (TotalTime gt - t_base s) = true /\
      exists i j w1,
        Rand 4 (RowCount (mWaves s) - 5) (rand (rand_calls s)) = Some i /\
        Rand 4 (ColumnCount (mWaves s) - 5) (rand (S (rand_calls s))) = Some j /\
        Disturb nf (mWaves s) i j (RandF 0.2 0.5 (rand (S (S (rand_calls s))))) = Some w1 /\
        Waves_Update step w1 (DeltaTime gt) fuel = Some (w, n) /\
        evs = [EvDisturb (TotalTime gt) i j (RandF 0.2 0.5 (rand (S (S (rand_calls s)))))] /\
        tb = (t_base s + 0.25)%Q /\ rc = S (S (S (rand_calls s))))).
Proof.
  unfold UpdateWaves. intros H.
  destruct (Qle_bool 0.25 (TotalTime gt - t_base s)) eqn:Hq.
  - destruct (Rand 4 (RowCount (mWaves s) - 5) (rand (rand_calls s))) as [i|] eqn:Hi;
      [|discriminate]. simpl in H.
    destruct (Rand 4 (ColumnCount (mWaves s) - 5) (rand (S (rand_calls s)))) as [j|] eqn:Hj;
      [|discriminate]. simpl in H.
    destruct (Disturb nf (mWaves s) i j _) as [w1|] eqn:Hd; [|discriminate]. simpl in H.
    destruct (Waves_Update step w1 (DeltaTime gt) fuel) as [[w n]|] eqn:Hu; [|discriminate].
    simpl in H. injection H as <-.
    exists w, (t_base s + 0.25)%Q, (S (S (S (rand_calls s)))), 
      [EvDisturb (TotalTime gt) i j (RandF 0.2 0.5 (rand (S (S (rand_calls s)))))], n.
    split.
    + unfold emit, set_waves; simpl. rewrite <- app_assoc. reflexivity.
    + right. split; [reflexivity|]. exists i, j, w1. auto 10.
  - simpl in H.
    destruct (Waves_Update step (mWaves s) (DeltaTime gt) fuel) as [[w n]|] eqn:Hu; [|discriminate].
    simpl in H. injection H as <-.
    exists w, (t_base s), (rand_calls s), [], n. split; [reflexivity|]. left. auto.
Qed.

Lemma Draw_inv s s' :
  Draw s = Some s' ->
  exists cur fr cmds,
    mCurrFrameResource s = Some cur /\ mFrameResources s !! cur = Some fr /\
    Draw_commands s cur = Some cmds /\
    s' = emit (set_frames (set_mCurrentFence s (uint64_incr (mCurrentFence s)))
                 (<[cur := FrameResource_set_Fence fr (uint64_incr (mCurrentFence s))]>
                    (mFrameResources s)))
              [EvExecute cmds; EvSignal cur (uint64_incr (mCurrentFence s))].
Proof.
  unfold Draw. intros H.
  destruct (mCurrFrameResource s) as [cur|]; [|discriminate]. simpl in H.
  destruct (mFrameResources s !! cur) as [fr|] eqn:Hfr; [|discriminate]. simpl in H.
  destruct (Draw_commands s cur) as [cmds|] eqn:Hc; [|discriminate].
  simpl in H. injection H as <-. exists cur, fr, cmds. auto.
Qed.

Lemma advance_inv gpu fuel s s' :
  advance gpu fuel s = Some s' ->
  let idx := Z.rem (mCurrFrameResourceIndex s + 1) gNumFrameResources in
  exists fr p evs,
    vec_at (mFrameResources s) idx = Some fr /\
    s' = emit (set_polls (set_ring s (mFrameResources s) (Some (Z.to_nat idx)) idx) p) evs /\
    ((evs = [] /\ p = S (polls s)) \/
     (exists woke, evs = [EvWait (Z.to_nat idx) (Fence fr) (polls s) woke] /\ p = S woke /\
                   Fence fr <> 0 /\ gpu (polls s) < Fence fr)).
Proof.
  intros H idx. unfold advance in H. fold idx in H.
  destruct (vec_at (mFrameResources s) idx) as [fr|] eqn:Hfr; [|discriminate].
  simpl in H.
  destruct (decide (Fence fr <> 0 /\ gpu (polls s) < Fence fr)) as [[Hnz Hlt]|Hno].
  - destruct (WaitForSingleObject gpu (Fence fr) (S (polls s)) fuel) as [woke|]; [|discriminate].
    simpl in H. injection H as <-.
    exists fr, (S woke), [EvWait (Z.to_nat idx) (Fence fr) (polls s) woke].
    split; [reflexivity|]. split; [reflexivity|]. right. exists woke. auto.
  - injection H as <-. exists fr, (S (polls s)), [].
    split; [reflexivity|]. split; [|left; auto].
    unfold emit, set_polls, set_ring; simpl. rewrite app_nil_r. reflexivity.
Qed.

Lemma frame_inv gpu rand nf step gt wf sf s s' :
  frame gpu rand nf step gt wf sf s = Some s' ->
  exists s1 s2 s3 s4 s5,
    advance gpu wf s = Some s1 /\ AnimateMaterials gt s1 = Some s2 /\
    UpdateObjectCBs s2 = Some s3 /\ UpdateMaterialCBs s3 = Some s4 /\
    UpdateWaves rand nf step gt sf s4 = Some s5 /\ Draw s5 = Some s'.
Proof.
  unfold frame, Update. intros H.
  destruct (advance gpu wf s) as [s1|] eqn:H1; [|discriminate]. simpl in H.
  destruct (AnimateMaterials gt s1) as [s2|] eqn:H2; [|discriminate]. simpl in H.
  destruct (UpdateObjectCBs s2) as [s3|] eqn:H3; [|discriminate]. simpl in H.
  destruct (UpdateMaterialCBs s3) as [s4|] eqn:H4; [|discriminate]. simpl in H.
  destruct (UpdateWaves rand nf step gt sf s4) as [s5|] eqn:H5; [|discriminate]. simpl in H.
  exists s1, s2, s3, s4, s5. tauto.
Qed.

(** The four update steps after [advance] do not touch the ring. *)
Lemma AnimateMaterials_ring gt s s' :
  AnimateMaterials gt s = Some s' -> ring_view s' = ring_view s.
Proof. intros H. apply AnimateMaterials_inv in H as (w & _ & ->). reflexivity. Qed.

Lemma UpdateObjectCBs_ring s s' :
  UpdateObjectCBs s = Some s' -> ring_view s' = ring_view s.
Proof.
  intros H. apply UpdateObjectCBs_inv in H as (cur & fr & items & cb & evs & Hc & Hfr & _ & ->).
  unfold ring_view, fences. simpl. rewrite (fences_insert_same _ _ fr); auto.
Qed.

Lemma UpdateMaterialCBs_ring s s' :
  UpdateMaterialCBs s = Some s' -> ring_view s' = ring_view s.
Proof.
  intros H. apply UpdateMaterialCBs_inv in H as (cur & fr & items & cb & evs & Hc & Hfr & _ & ->).
  unfold ring_view, fences. simpl. rewrite (fences_insert_same _ _ fr); auto.
Qed.

Lemma UpdateWaves_ring rand nf step gt fuel s s' :
  UpdateWaves rand nf step gt fuel s = Some s' -> ring_view s' = ring_view s.
Proof.
  intros H. apply UpdateWaves_inv in H as (w & tb & rc & evs & n & -> & _). reflexivity.
Qed.

Lemma Update_ring gpu rand nf step gt wf sf s s5 :
  Update gpu rand nf step gt wf sf s = Some s5 ->
  exists s1, advance gpu wf s = Some s1 /\ ring_view s5 = ring_view s1.
Proof.
  unfold Update. intros H.
  destruct (advance gpu wf s) as [s1|]; [|discriminate]. simpl in H.
  destruct (AnimateMaterials gt s1) as [s2|] eqn:H2; [|discriminate]. simpl in H.
  destruct (UpdateObjectCBs s2) as [s3|] eqn:H3; [|discriminate]. simpl in H.
  destruct (UpdateMaterialCBs s3) as [s4|] eqn:H4; [|discriminate]. simpl in H.
  exists s1. split; [reflexivity|].
  rewrite (UpdateWaves_ring _ _ _ _ _ _ _ H), (UpdateMaterialCBs_ring _ _ H4),
    (UpdateObjectCBs_ring _ _ H3), (AnimateMaterials_ring _ _ _ H2). reflexivity.
Qed.

(** [Draw] stamps the current slot and nothing else of the ring. *)
Lemma Draw_ring s s' :
  Draw s = Some s' ->
  exists cur, mCurrFrameResource s = Some cur /\ (cur < length (fences s))%nat /\
    ring_view s' =
      (<[cur := uint64_incr (mCurrentFence s)]> (fences s), Some cur,
       mCurrFrameResourceIndex s, uint64_incr (mCurrentFence s), polls s).
Proof.
  intros H. apply Draw_inv in H as (cur & fr & cmds & Hc & Hfr & _ & ->).
  exists cur. split; [exact Hc|]. split.
  - unfold fences. rewrite length_fmap. eapply lookup_lt_Some; eauto.
  - unfold ring_view, fences. simpl. rewrite list_fmap_insert, Hc. reflexivity.
Qed.

(** The ring after one frame, in terms of the ring before it. *)
Lemma frame_ring gpu rand nf step gt wf sf s s' :
  frame gpu rand nf step gt wf sf s = Some s' ->
  let idx := Z.rem (mCurrFrameResourceIndex s + 1) gNumFrameResources in
  0 <= idx /\ (Z.to_nat idx < length (fences s))%nat /\
  fences s' = <[Z.to_nat idx := uint64_incr (mCurrentFence s)]> (fences s) /\
  mCurrFrameResource s' = Some (Z.to_nat idx) /\
  mCurrFrameResourceIndex s' = idx /\
  mCurrentFence s' = uint64_incr (mCurrentFence s).
Proof.
  intros H idx. unfold frame in H.
  destruct (Update gpu rand nf step gt wf sf s) as [s5|] eqn:HU; [|discriminate]. simpl in H.
  apply Update_ring in HU as (s1 & Ha & Hv).
  apply Draw_ring in H as (cur & Hc & Hlen & Hr).
  apply advance_inv in Ha as (fr & p & evs & Hfr & -> & _). fold idx in Hfr.
  unfold ring_view in Hv, Hr. simpl in Hv.
  injection Hv as Hf5 Hc5 Hi5 Hm5 Hp5. injection Hr as Hf' Hc' Hi' Hm' Hp'.
  unfold vec_at in Hfr. destruct (decide (0 <= idx)) as [Hpos|]; [|discriminate].
  rewrite Hc in Hc5. injection Hc5 as ->.
  rewrite Hf5 in Hf', Hlen. unfold fences in Hf', Hlen at 1. simpl in Hf', Hlen.
  fold (fences s) in Hf', Hlen.
  repeat split; try assumption; try congruence.
  - unfold fences at 1. rewrite Hf', Hm5. reflexivity.
  - rewrite Hi', Hi5. reflexivity.
Qed.

(** ** Events of the frame functions *)


Lemma disturbances_app (a b : list event) :
  disturbances (a ++ b) = disturbances a ++ disturbances b.
Proof.
  induction a as [|e a IH]; [reflexivity|]. simpl.
  destruct e; auto. simpl. rewrite IH. reflexivity.
Qed.

Lemma no_wait_app (a b : list event) : no_wait a -> no_wait b -> no_wait (a ++ b).
Proof. unfold no_wait. intros. apply Forall_app. auto. Qed.

Lemma UpdateObjectCBs_loop_spec slot : forall items pos cb items' cb' evs,
  UpdateObjectCBs_loop slot pos items cb = Some (items', cb', evs) ->
  items' = item_after_pass <$> items /\
  no_wait evs /\ disturbances evs = [] /\
  forall p, object_copies p evs =
            if decide (pos <= p)%nat
            then match items !! (p - pos)%nat with
                 | Some e => item_copy slot e
                 | None => []
                 end
            else [].
Proof.
  induction items as [|e items IH]; intros pos cb items' cb' evs H; simpl in H.
  - injection H as <- <- <-. repeat split; try constructor.
    intros p. destruct (decide (pos <= p)%nat); reflexivity.
  - destruct (decide (0 < NumFramesDirty e)) as [Hd|Hd].
    + destruct (CopyData cb (ObjCBIndex e) (ObjectConstants_of e)) as [cb1|]; [|discriminate].
      simpl in H.
      destruct (UpdateObjectCBs_loop slot (S pos) items cb1) as [[[it c] ev]|] eqn:Hl;
        [|discriminate].
      simpl in H. injection H as <- <- <-.
      apply IH in Hl as (-> & Hnw & Hdi & Hoc).
      split; [|split; [|split]].
      * rewrite fmap_cons. f_equal. unfold item_after_pass.
        case_decide; [reflexivity|contradiction].
      * constructor; [reflexivity|exact Hnw].
      * exact Hdi.
      * intros p. simpl. rewrite Hoc. clear Hoc.
        destruct (decide (pos = p)) as [->|Hne].
        -- rewrite Nat.sub_diag. simpl. unfold item_copy.
           repeat case_decide; try lia. reflexivity.
        -- repeat case_decide; try lia; try reflexivity.
           replace (p - pos)%nat with (S (p - S pos)) by lia. reflexivity.
    + destruct (UpdateObjectCBs_loop slot (S pos) items cb) as [[[it c] ev]|] eqn:Hl;
        [|discriminate].
      simpl in H. injection H as <- <- <-.
      apply IH in Hl as (-> & Hnw & Hdi & Hoc).
      split; [|split; [|split]].
      * rewrite fmap_cons. f_equal. unfold item_after_pass.
        case_decide; [contradiction|reflexivity].
      * exact Hnw.
      * exact Hdi.
      * intros p. rewrite Hoc. clear Hoc.
        destruct (decide (pos = p)) as [->|Hne].
        -- rewrite Nat.sub_diag. simpl. unfold item_copy.
           repeat case_decide; try lia. reflexivity.
        -- repeat case_decide; try lia; try reflexivity.
           replace (p - pos)%nat with (S (p - S pos)) by lia. reflexivity.
Qed.

Lemma UpdateMaterialCBs_loop_spec slot : forall mats cb mats' cb' evs,
  UpdateMaterialCBs_loop slot mats cb = Some (mats', cb', evs) ->
  no_wait evs /\ disturbances evs = [] /\ forall p, object_copies p evs = [].
Proof.
  induction mats as [|[name mat] mats IH]; intros cb mats' cb' evs H; simpl in H.
  - injection H as <- <- <-. repeat split; constructor.
  - destruct (decide (0 < MatNumFramesDirty mat)) as [Hd|Hd].
    + destruct (CopyData cb (MatCBIndex mat) (MaterialConstants_of mat)) as [cb1|]; [|discriminate].
      simpl in H.
      destruct (UpdateMaterialCBs_loop slot mats cb1) as [[[it c] ev]|] eqn:Hl; [|discriminate].
      simpl in H. injection H as <- <- <-.
      apply IH in Hl as (Hnw & Hdi & Hoc).
      repeat split; auto. constructor; [reflexivity|exact Hnw].
    + destruct (UpdateMaterialCBs_loop slot mats cb) as [[[it c] ev]|] eqn:Hl; [|discriminate].
      simpl in H. injection H as <- <- <-.
      apply IH in Hl as (Hnw & Hdi & Hoc). auto.
Qed.

(** Everything one frame adds to the trace and does to the render items and
    the wave fields, in terms of the state before it. *)
Lemma frame_events gpu rand nf step gt wf sf s s' :
  frame gpu rand nf step gt wf sf s = Some s' ->
  let idx := Z.rem (mCurrFrameResourceIndex s + 1) gNumFrameResources in
  exists ew eo em ed n cmds s4 s5,
    trace s' = trace s ++ ew ++ eo ++ em ++ ed ++
               [EvWaveSteps n; EvExecute cmds; EvSignal (Z.to_nat idx) (mCurrentFence s')] /\
    (ew = [] \/
     exists fr woke, vec_at (mFrameResources s) idx = Some fr /\ Fence fr <> 0 /\
                     ew = [EvWait (Z.to_nat idx) (Fence fr) (polls s) woke]) /\
    mAllRitems s' = item_after_pass <$> mAllRitems s /\
    no_wait eo /\ disturbances eo = [] /\
    (forall p, object_copies p eo =
               match mAllRitems s !! p with
               | Some e => item_copy (Z.to_nat idx) e
               | None => []
               end) /\
    no_wait em /\ disturbances em = [] /\ (forall p, object_copies p em = []) /\
    UpdateWaves rand nf step gt sf s4 = Some s5 /\
    trace s5 = trace s4 ++ ed ++ [EvWaveSteps n] /\
    (mWaves s4, t_base s4, rand_calls s4) = (mWaves s, t_base s, rand_calls s) /\
    (mWaves s', t_base s', rand_calls s') = (mWaves s5, t_base s5, rand_calls s5).
Proof.
  intros H idx.
  apply frame_inv in H as (s1 & s2 & s3 & s4 & s5 & H1 & H2 & H3 & H4 & H5 & H6).
  apply advance_inv in H1 as (fr1 & p1 & ew & Hfr1 & -> & Hw). fold idx in Hfr1, Hw.
  apply AnimateMaterials_inv in H2 as (w & _ & ->).
  apply UpdateObjectCBs_inv in H3 as (c3 & fr3 & items & cb3 & eo & Hc3 & _ & Hl3 & ->).
  simpl in Hc3. injection Hc3 as <-. simpl in Hl3.
  apply UpdateObjectCBs_loop_spec in Hl3 as (-> & Hnw3 & Hd3 & Ho3).
  apply UpdateMaterialCBs_inv in H4 as (c4 & fr4 & mats & cb4 & em & Hc4 & _ & Hl4 & ->).
  simpl in Hc4. injection Hc4 as <-.
  apply UpdateMaterialCBs_loop_spec in Hl4 as (Hnw4 & Hd4 & Ho4).
  pose proof H5 as H5'.
  apply UpdateWaves_inv in H5' as (w5 & tb5 & rc5 & ed & n & Hs5 & _).
  apply Draw_inv in H6 as (c6 & fr6 & cmds & Hc6 & _ & _ & ->).
  rewrite Hs5 in Hc6. simpl in Hc6. injection Hc6 as <-.
  exists ew, eo, em, ed, n, cmds. eexists. exists s5.
  split; [|split; [|split; [|split; [|split; [|split; [|split; [|split;
    [|split; [|split; [exact H5|split; [|split]]]]]]]]]]].
  - rewrite Hs5. simpl. fold idx. rewrite <- !app_assoc. reflexivity.
  - destruct Hw as [[-> _]|(woke & -> & _ & Hnz & _)]; [left; reflexivity|].
    right. exists fr1, woke. auto.
  - rewrite Hs5. reflexivity.
  - exact Hnw3.
  - exact Hd3.
  - intros p. rewrite Ho3. rewrite decide_True by lia. rewrite Nat.sub_0_r. reflexivity.
  - exact Hnw4.
  - exact Hd4.
  - exact Ho4.
  - rewrite Hs5. simpl. rewrite <- !app_assoc. reflexivity.
  - reflexivity.
  - rewrite Hs5. simpl. reflexivity.
Qed.

(** ** C9: slots that were never submitted *)





(** ** C3: dirty counters of the render items *)








(** ** C5: disturbances of the wave field *)

Lemma Rand_range (a b r v : Z) :
  a <= b -> 0 <= r -> Rand a b r = Some v -> a <= v <= b.
Proof.
  intros Hab Hr. unfold Rand. case_decide; [discriminate|]. intros [= <-].
  pose proof (Z.rem_bound_pos r (b - a + 1) Hr ltac:(lia)). lia.
Qed.

Lemma RandF_range (a b : Q) (r : Z) :
  (a <= b)%Q -> 0 <= r <= RAND_MAX -> (a <= RandF a b r <= b)%Q.
Proof.
  intros Hab Hr. unfold RandF.
  assert (0 <= inject_Z r / inject_Z RAND_MAX <= 1)%Q as [Hu0 Hu1].
  { split.
    - apply Qle_shift_div_l; [reflexivity|]. rewrite Qmult_0_l.
      change 0%Q with (inject_Z 0). rewrite <- Zle_Qle. lia.
    - apply Qle_shift_div_r; [reflexivity|]. rewrite Qmult_1_l.
      rewrite <- Zle_Qle. lia. }
  set (u := (inject_Z r / inject_Z RAND_MAX)%Q) in *. clearbody u.
  split; nra.
Qed.

Lemma Disturb_dims nf w i j r w' :
  Disturb nf w i j r = Some w' ->
  RowCount w' = RowCount w /\ ColumnCount w' = ColumnCount w /\
  2 <= i <= RowCount w - 3 /\ 2 <= j <= ColumnCount w - 3.
Proof.
  unfold Disturb. case_decide as Hok; [|discriminate]. intros [= <-].
  unfold RowCount, ColumnCount. simpl. tauto.
Qed.

Lemma Waves_Update_dims step w t fuel w' n :
  Waves_Update step w t fuel = Some (w', n) ->
  RowCount w' = RowCount w /\ ColumnCount w' = ColumnCount w /\ mTimeStep w' = mTimeStep w.
Proof.
  unfold Waves_Update.
  destruct (update_loop step fuel (mTimeStep w) (mAccum w + t) (mGrid w)) as [[[acc g] k]|];
    [|discriminate].
  intros [= <- _]. auto.
Qed.

(** The wave part of one frame. *)
Lemma frame_waves gpu rand nf step gt wf sf s s1 :
  frame gpu rand nf step gt wf sf s = Some s1 ->
  exists before ed after,
    trace s1 = trace s ++ before ++ ed ++ after /\
    disturbances before = [] /\ disturbances after = [] /\
    RowCount (mWaves s1) = RowCount (mWaves s) /\
    ColumnCount (mWaves s1) = ColumnCount (mWaves s) /\
    ((Qle_bool 0.25 (TotalTime gt - t_base s) = false /\ ed = [] /\ t_base s1 = t_base s)
     \/
     (Qle_bool 0.25 (TotalTime gt - t_base s) = true /\
      t_base s1 = (t_base s + 0.25)%Q /\
      exists i j,
        Rand 4 (RowCount (mWaves s) - 5) (rand (rand_calls s)) = Some i /\
        Rand 4 (ColumnCount (mWaves s) - 5) (rand (S (rand_calls s))) = Some j /\
        2 <= i <= RowCount (mWaves s) - 3 /\ 2 <= j <= ColumnCount (mWaves s) - 3 /\
        ed = [EvDisturb (TotalTime gt) i j (RandF 0.2 0.5 (rand (S (S (rand_calls s)))))])).
Proof.
  intros Hf.
  pose proof (frame_events _ _ _ _ _ _ _ _ _ Hf)
    as (ew & eo & em & ed & n & cmds & s4 & s5 & Ht & Hw & _ & _ & Hdo & _ & _ & Hdm & _ &
        H5 & Ht5 & H4 & H1).
  injection H4 as Hw4 Hb4 Hr4. injection H1 as Hw1 Hb1 Hr1.
  apply UpdateWaves_inv in H5 as (w & tb & rc & evs5 & n5 & Hs5 & Hcase).
  rewrite Hs5 in Ht5, Hw1, Hb1, Hr1. simpl in Ht5, Hw1, Hb1, Hr1.
  apply app_inv_head in Ht5. apply app_inj_tail in Ht5 as [-> _].
  rewrite Hw4, Hb4, Hr4 in Hcase.
  exists (ew ++ eo ++ em), ed,
    [EvWaveSteps n; EvExecute cmds;
     EvSignal (Z.to_nat (Z.rem (mCurrFrameResourceIndex s + 1) gNumFrameResources))
              (mCurrentFence s1)].
  split; [rewrite Ht, <- !app_assoc; reflexivity|].
  split.
  { rewrite !disturbances_app, Hdo, Hdm.
    destruct Hw as [->|(fr & woke & _ & _ & ->)]; reflexivity. }
  split; [reflexivity|].
  destruct Hcase as [(Hq & -> & -> & -> & Hu)|
                     (Hq & i & j & w1 & Hi & Hj & Hd & Hu & -> & -> & ->)].
  - apply Waves_Update_dims in Hu as (HR & HC & _).
    rewrite Hw1. split; [exact HR|]. split; [exact HC|]. left. auto.
  - apply Waves_Update_dims in Hu as (HR & HC & _).
    apply Disturb_dims in Hd as (HR1 & HC1 & Hir & Hjr).
    rewrite Hw1. split; [congruence|]. split; [congruence|].
    right. split; [exact Hq|]. split; [exact Hb1|].
    exists i, j. auto 10.
Qed.

Lemma run_disturbances gpu rand nf step wf sf :
  (forall k, 0 <= rand k <= RAND_MAX) ->
  forall timers s s',
  9 <= RowCount (mWaves s) -> 9 <= ColumnCount (mWaves s) ->
  run gpu rand nf step timers wf sf s = Some s' ->
  exists evs,
    trace s' = trace s ++ evs /\
    forall (k : nat) T i j r,
      disturbances evs !! k = Some (T, i, j, r) ->
      (t_base s + 0.25 * inject_Z (Z.of_nat (S k)) <= T)%Q /\
      (exists gt, gt ∈ timers /\ TotalTime gt = T) /\
      4 <= i <= RowCount (mWaves s) - 5 /\ 4 <= j <= ColumnCount (mWaves s) - 5 /\
      (0.2 <= r <= 0.5)%Q.
Proof.
  intros Hrand. induction timers as [|gt rest IH]; intros s s' HR HC Hrun.
  - injection Hrun as <-. exists []. split; [rewrite app_nil_r; reflexivity|].
    intros k T i j r Hk. discriminate.
  - simpl in Hrun.
    destruct (frame gpu rand nf step gt wf sf s) as [s1|] eqn:Hf; [|discriminate].
    simpl in Hrun.
    destruct (frame_waves _ _ _ _ _ _ _ _ _ Hf)
      as (before & ed & after & Ht & Hdb & Hda & HR1 & HC1 & Hcase).
    destruct (IH s1 s' ltac:(lia) ltac:(lia) Hrun) as (evs & Hevs & Hok).
    exists ((before ++ ed ++ after) ++ evs).
    split; [rewrite Hevs, Ht, <- !app_assoc; reflexivity|].
    intros k T i j r Hk.
    rewrite !disturbances_app, Hdb, Hda, app_nil_r in Hk. simpl in Hk.
    destruct Hcase as [(Hq & -> & Hb)|(Hq & Hb & i0 & j0 & Hi & Hj & _ & _ & ->)].
    + simpl in Hk. apply Hok in Hk as (Htime & (g & Hg & HgT) & Hir & Hjr & Hr).
      rewrite Hb in Htime. rewrite HR1, HC1 in *.
      split; [exact Htime|]. split; [exists g; split; [right; exact Hg|exact HgT]|]. auto.
    + simpl in Hk. destruct k as [|k]; simpl in Hk.
      * injection Hk as <- <- <- <-.
        apply Qle_bool_iff in Hq.
        split; [change (inject_Z (Z.of_nat 1)) with 1%Q; lra|].
        split; [exists gt; split; [left|reflexivity]|].
        split; [eapply Rand_range; [| |exact Hi]; [lia|apply Hrand]|].
        split; [eapply Rand_range; [| |exact Hj]; [lia|apply Hrand]|].
        apply RandF_range; [lra|apply Hrand].
      * apply Hok in Hk as (Htime & (g & Hg & HgT) & Hir & Hjr & Hr).
        rewrite Hb in Htime. rewrite HR1, HC1 in *.
        split.
        { replace (Z.of_nat (S (S k))) with (Z.of_nat (S k) + 1) by lia.
          rewrite inject_Z_plus. change (inject_Z 1) with 1%Q.
          set (q := inject_Z (Z.of_nat (S k))) in *. clearbody q. lra. }
        split; [exists g; split; [right; exact Hg|exact HgT]|]. auto.
Qed.

(** C5. Every disturbance the frame loop issues comes from a frame whose
    total time has reached the next quarter-second mark: the [(k+1)]-th
    disturbance after a state with base time [t_base] is issued in a frame of
    total time at least [t_base + 0.25 * (k + 1)], however many frames have
    run.  Its cell is [(i, j)] with [i] in [[4, RowCount - 5]] and [j] in
    [[4, ColumnCount - 5]], so at least 2 cells from every edge, and its
    magnitude lies in [[0.2, 0.5]]. *)
Theorem disturbances_on_quarter_seconds (gpu rand : nat -> Z) (nf : Q)
    (step : HeightGrid -> HeightGrid) (timers : list GameTimer)
    (wait_fuel sim_fuel : nat) (s s' : App) :
  (forall k, 0 <= rand k <= RAND_MAX) ->
  9 <= RowCount (mWaves s) -> 9 <= ColumnCount (mWaves s) ->
  run gpu rand nf step timers wait_fuel sim_fuel s = Some s' ->
  forall (k : nat) T i j r,
    disturbances (since s s') !! k = Some (T, i, j, r) ->
    (t_base s + 0.25 * inject_Z (Z.of_nat (S k)) <= T)%Q /\
    (exists gt, gt ∈ timers /\ TotalTime gt = T) /\
    (4 <= i <= RowCount (mWaves s) - 5 /\ 4 <= j <= ColumnCount (mWaves s) - 5) /\
    (2 <= i <= RowCount (mWaves s) - 3 /\ 2 <= j <= ColumnCount (mWaves s) - 3) /\
    (0.2 <= r <= 0.5)%Q.
Proof.
  intros Hrand HR HC Hrun k T i j r Hk.
  destruct (run_disturbances gpu rand nf step wait_fuel sim_fuel Hrand timers s s' HR HC Hrun)
    as (evs & Hevs & Hok).
  rewrite (since_app _ _ _ Hevs) in Hk.
  apply Hok in Hk as (Htime & Hgt & Hi & Hj & Hr).
  split; [exact Htime|]. split; [exact Hgt|]. split; [tauto|]. split; [lia|exact Hr].
Qed.

Lemma example_rand_range (k : nat) : 0 <= example_rand k <= RAND_MAX.
Proof.
  unfold example_rand, RAND_MAX.
  pose proof (Z.mod_pos_bound (Z.of_nat k * 7919) (32767 + 1) ltac:(lia)). lia.
Qed.

Lemma disturbances_on_quarter_seconds_witness :
  (forall k, 0 <= example_rand k <= RAND_MAX) /\
  9 <= RowCount (mWaves example_app) /\ 9 <= ColumnCount (mWaves example_app) /\
  run example_gpu example_rand (1 # 2) example_step example_timers 10 10 example_app
    = Some example_app_after /\
  disturbances (since example_app example_app_after) !! 0%nat
    = Some (0.3%Q, 4, 123, RandF 0.2 0.5 (example_rand 2)) /\
  (t_base example_app + 0.25 * inject_Z (Z.of_nat 1) <= 0.3)%Q /\
  (exists gt, gt ∈ example_timers /\ TotalTime gt = 0.3%Q) /\
  (4 <= 4 <= RowCount (mWaves example_app) - 5 /\
   4 <= 123 <= ColumnCount (mWaves example_app) - 5) /\
  (2 <= 4 <= RowCount (mWaves example_app) - 3 /\
   2 <= 123 <= ColumnCount (mWaves example_app) - 3) /\
  (0.2 <= RandF 0.2 0.5 (example_rand 2) <= 0.5)%Q.
Proof.
  assert (9 <= RowCount (mWaves example_app)) as HR by (vm_compute; discriminate).
  assert (9 <= ColumnCount (mWaves example_app)) as HC by (vm_compute; discriminate).
  assert (run example_gpu example_rand (1 # 2) example_step example_timers 10 10 example_app
          = Some example_app_after) as Hrun by (vm_compute; reflexivity).
  assert (disturbances (since example_app example_app_after) !! 0%nat
          = Some (0.3%Q, 4, 123, RandF 0.2 0.5 (example_rand 2))) as Hk
    by (vm_compute; reflexivity).
  split; [exact example_rand_range|]. split; [exact HR|]. split; [exact HC|].
  split; [exact Hrun|]. split; [exact Hk|].
  exact (disturbances_on_quarter_seconds example_gpu example_rand (1 # 2) example_step
           example_timers 10 10 example_app example_app_after
           example_rand_range HR HC Hrun 0%nat _ _ _ _ Hk).
Defined.

(** ** C6: the order of the draw calls *)

Lemma DrawRenderItems_states s cur : forall ritems cmds,
  DrawRenderItems s cur ritems = Some cmds ->
  forall pso rest,
    draw_states pso (cmds ++ rest) = replicate (length ritems) pso ++ draw_states pso rest.
Proof.
  induction ritems as [|p ritems IH]; intros cmds H pso rest; simpl in H.
  - injection H as <-. reflexivity.
  - destruct (mAllRitems s !! p) as [ri|]; [|discriminate]. simpl in H.
    destruct (assoc_get (Mat ri) (mMaterials s)) as [mat|]; [|discriminate]. simpl in H.
    destruct (DrawRenderItems s cur ritems) as [c|] eqn:Hc; [|discriminate].
    simpl in H. injection H as <-. simpl. f_equal. apply IH. reflexivity.
Qed.

(** C6. The command list of every frame issues its draw calls layer by
    layer in the fixed order opaque, alpha-tested, tree sprites, transparent:
    read with the pipeline state in effect at each draw call, the list is one
    ["opaque"] per opaque item, then one ["alphaTested"] per alpha-tested
    item, then one ["treeSprites"] per sprite item, and last one
    ["transparent"] per transparent item. *)
Theorem draw_layer_order (s s' : App) :
  Draw s = Some s' ->
  exists cmds cur fence,
    since s s' = [EvExecute cmds; EvSignal cur fence] /\
    forall pso,
      draw_states pso cmds =
        replicate (length (mRitemLayer s Opaque)) "opaque"%string ++
        replicate (length (mRitemLayer s AlphaTested)) "alphaTested"%string ++
        replicate (length (mRitemLayer s AlphaTestedTreeSprites)) "treeSprites"%string ++
        replicate (length (mRitemLayer s Transparent)) "transparent"%string.
Proof.
  intros H. apply Draw_inv in H as (cur & fr & cmds & _ & _ & Hc & ->).
  exists cmds, cur, (uint64_incr (mCurrentFence s)).
  split; [apply since_app; reflexivity|].
  intros pso. unfold Draw_commands in Hc.
  destruct (DrawRenderItems s cur (mRitemLayer s Opaque)) as [c1|] eqn:H1; [|discriminate].
  simpl in Hc.
  destruct (DrawRenderItems s cur (mRitemLayer s AlphaTested)) as [c2|] eqn:H2; [|discriminate].
  simpl in Hc.
  destruct (DrawRenderItems s cur (mRitemLayer s AlphaTestedTreeSprites)) as [c3|] eqn:H3;
    [|discriminate].
  simpl in Hc.
  destruct (DrawRenderItems s cur (mRitemLayer s Transparent)) as [c4|] eqn:H4; [|discriminate].
  simpl in Hc. injection Hc as <-.
  cbn [app draw_states].
  rewrite (DrawRenderItems_states _ _ _ _ H1). cbn [app draw_states].
  rewrite (DrawRenderItems_states _ _ _ _ H2). cbn [app draw_states].
  rewrite (DrawRenderItems_states _ _ _ _ H3). cbn [app draw_states].
  rewrite <- (app_nil_r c4), (DrawRenderItems_states _ _ _ _ H4).
  cbn [draw_states]. rewrite app_nil_r. reflexivity.
Qed.

Lemma draw_layer_order_witness :
  Draw example_app_updated = Some example_app_drawn /\
  exists cmds cur fence,
    since example_app_updated example_app_drawn = [EvExecute cmds; EvSignal cur fence] /\
    forall pso,
      draw_states pso cmds =
        replicate (length (mRitemLayer example_app_updated Opaque)) "opaque"%string ++
        replicate (length (mRitemLayer example_app_updated AlphaTested)) "alphaTested"%string ++
        replicate (length (mRitemLayer example_app_updated AlphaTestedTreeSprites))
                  "treeSprites"%string ++
        replicate (length (mRitemLayer example_app_updated Transparent)) "transparent"%string.
Proof.
  assert (Draw example_app_updated = Some example_app_drawn) as HD
    by (vm_compute; reflexivity).
  split; [exact HD|].
  exact (draw_layer_order example_app_updated example_app_drawn HD).
Defined.

(** ** C7: the camera clamps *)

Lemma Clamp_range (x low high : Q) :
  (low <= high)%Q -> (low <= Clamp x low high <= high)%Q.
Proof.
  intros H. unfold Clamp.
  destruct (Qlt_le_dec x low); [lra|].
  destruct (Qlt_le_dec high x); lra.
Qed.

Lemma OnMouseMove_keeps_range (btnState x y : Z) (c : Camera) :
  (0.1 <= mPhi c <= MathHelper_Pi - 0.1)%Q /\ (5 <= mRadius c <= 150)%Q ->
  (0.1 <= mPhi (OnMouseMove btnState x y c) <= MathHelper_Pi - 0.1)%Q /\
  (5 <= mRadius (OnMouseMove btnState x y c) <= 150)%Q.
Proof.
  intros [Hphi Hrad]. unfold OnMouseMove.
  destruct (decide (Z.land btnState MK_LBUTTON <> 0)).
  - cbn [mPhi mRadius]. split; [|exact Hrad].
    apply Clamp_range. unfold MathHelper_Pi. lra.
  - destruct (decide (Z.land btnState MK_RBUTTON <> 0)).
    + cbn [mPhi mRadius]. split; [exact Hphi|]. apply Clamp_range. lra.
    + cbn [mPhi mRadius]. split; assumption.
Qed.



(** ** C8: the scrolling water texture *)

Lemma assoc_get_set {V : Type} (k : string) (v v0 : V) (m : list (string * V)) :
  assoc_get k m = Some v0 -> assoc_get k (assoc_set k v m) = Some v.
Proof.
  induction m as [|[k' v'] m IH]; simpl; [discriminate|].
  destruct (String.eqb k k') eqn:E; simpl; rewrite E; [reflexivity|exact IH].
Qed.





(** ** C10: the index buffer of the wave grid *)

Lemma store16_at (pre post : list Z) (x v : Z) :
  store16 (pre ++ x :: post) (Z.of_nat (length pre)) v = Some (pre ++ to_uint16 v :: post).
Proof.
  unfold store16, CopyData.
  rewrite decide_True by (rewrite length_app; simpl; lia).
  rewrite Nat2Z.id.
  replace (length pre) with (length pre + 0)%nat at 1 by lia.
  rewrite insert_app_r. reflexivity.
Qed.

Lemma store16_next (pre post : list Z) (x v k : Z) :
  k = Z.of_nat (length pre) ->
  store16 (pre ++ x :: post) k v = Some ((pre ++ [to_uint16 v]) ++ post).
Proof. intros ->. rewrite store16_at, <- app_assoc. reflexivity. Qed.

Lemma quad_body_spec (n i j : Z) (done : list Z) (r : nat) :
  quad_body n i j (done ++ replicate (6 + r) 0, Z.of_nat (length done)) =
    Some (done ++ (to_uint16 <$> quad_indices n i j) ++ replicate r 0,
          Z.of_nat (length done) + 6).
Proof.
  unfold quad_body. cbn [replicate Nat.add].
  rewrite (store16_next done) by reflexivity. cbn [mbind option_bind].
  rewrite store16_next by (rewrite length_app; simpl; lia). cbn [mbind option_bind].
  rewrite store16_next by (rewrite !length_app; simpl; lia). cbn [mbind option_bind].
  rewrite store16_next by (rewrite !length_app; simpl; lia). cbn [mbind option_bind].
  rewrite store16_next by (rewrite !length_app; simpl; lia). cbn [mbind option_bind].
  rewrite store16_next by (rewrite !length_app; simpl; lia). cbn [mbind option_bind].
  rewrite <- !app_assoc. reflexivity.
Qed.

Lemma row_values_length n i j0 c : length (row_values n i j0 c) = (6 * c)%nat.
Proof.
  unfold row_values. revert j0. induction c as [|c IH]; intros j0; [reflexivity|].
  cbn [seq fmap list_fmap mjoin list_join]. rewrite length_app, IH. simpl. lia.
Qed.

Lemma inner_loop_spec (n i : Z) : forall (c j0 : nat) (done : list Z) (r : nat),
  for_loop c (Z.of_nat j0) (quad_body n i)
           (done ++ replicate (6 * c + r) 0, Z.of_nat (length done)) =
    Some (done ++ (to_uint16 <$> row_values n i j0 c) ++ replicate r 0,
          Z.of_nat (length done) + 6 * Z.of_nat c).
Proof.
  induction c as [|c IH]; intros j0 done r.
  - simpl. rewrite Z.add_0_r. reflexivity.
  - cbn [for_loop].
    replace (6 * S c + r)%nat with (6 + (6 * c + r))%nat by lia.
    rewrite quad_body_spec. cbn [mbind option_bind].
    replace (Z.of_nat j0 + 1) with (Z.of_nat (S j0)) by lia.
    replace (done ++ (to_uint16 <$> quad_indices n i (Z.of_nat j0)) ++ replicate (6 * c + r) 0)
      with ((done ++ (to_uint16 <$> quad_indices n i (Z.of_nat j0))) ++ replicate (6 * c + r) 0)
      by (rewrite <- app_assoc; reflexivity).
    replace (Z.of_nat (length done) + 6)
      with (Z.of_nat (length (done ++ (to_uint16 <$> quad_indices n i (Z.of_nat j0)))))
      by (rewrite length_app, length_fmap; simpl; lia).
    rewrite IH. f_equal. f_equal.
    + unfold row_values. cbn [seq fmap list_fmap mjoin list_join].
      rewrite fmap_app, <- !app_assoc. reflexivity.
    + rewrite length_app, length_fmap. simpl. lia.
Qed.


Lemma outer_loop_spec (m n : Z) : forall (rows i0 : nat) (done : list Z) (r : nat),
  for_loop rows (Z.of_nat i0) (row_body m n)
           (done ++ replicate (rows * (6 * Z.to_nat (n - 1)) + r) 0, Z.of_nat (length done)) =
    Some (done ++ (to_uint16 <$> grid_values n (Z.to_nat (n - 1)) i0 rows) ++ replicate r 0,
          Z.of_nat (length done) + Z.of_nat rows * (6 * Z.of_nat (Z.to_nat (n - 1)))).
Proof.
  unfold row_body. induction rows as [|rows IH]; intros i0 done r.
  - simpl. rewrite Z.add_0_r. reflexivity.
  - cbn [for_loop].
    replace (S rows * (6 * Z.to_nat (n - 1)) + r)%nat
      with (6 * Z.to_nat (n - 1) + (rows * (6 * Z.to_nat (n - 1)) + r))%nat by lia.
    pose proof (inner_loop_spec n (Z.of_nat i0) (Z.to_nat (n - 1)) 0%nat done
                  (rows * (6 * Z.to_nat (n - 1)) + r)) as Hin.
    change (Z.of_nat 0) with 0 in Hin. rewrite Hin. clear Hin. cbn [mbind option_bind].
    replace (Z.of_nat i0 + 1) with (Z.of_nat (S i0)) by lia.
    set (row := to_uint16 <$> row_values n (Z.of_nat i0) 0 (Z.to_nat (n - 1))).
    replace (done ++ row ++ replicate (rows * (6 * Z.to_nat (n - 1)) + r) 0)
      with ((done ++ row) ++ replicate (rows * (6 * Z.to_nat (n - 1)) + r) 0)
      by (rewrite <- app_assoc; reflexivity).
    assert (length row = (6 * Z.to_nat (n - 1))%nat) as Hrow
      by (unfold row; rewrite length_fmap; apply row_values_length).
    replace (Z.of_nat (length done) + 6 * Z.of_nat (Z.to_nat (n - 1)))
      with (Z.of_nat (length (done ++ row))) by (rewrite length_app, Hrow; lia).
    rewrite IH. f_equal. f_equal.
    + unfold grid_values. cbn [seq fmap list_fmap mjoin list_join].
      rewrite fmap_app, <- !app_assoc. reflexivity.
    + rewrite length_app, Hrow. lia.
Qed.

Lemma quad_indices_range (m n i j : Z) :
  0 <= i < m - 1 -> 0 <= j < n - 1 ->
  Forall (fun v => 0 <= v < m * n) (quad_indices n i j).
Proof.
  intros Hi Hj. unfold quad_indices.
  assert (0 <= i * n) by nia.
  assert ((i + 1) * n + j + 1 < m * n) by nia.
  assert (i * n <= (i + 1) * n) by nia.
  repeat constructor; lia.
Qed.

Lemma generated_indices_range (m n : Z) :
  Forall (fun v => 0 <= v < m * n) (generated_indices m n).
Proof.
  unfold generated_indices, grid_values.
  apply Forall_forall. intros v Hv.
  apply list_elem_of_In, list_elem_of_join in Hv as (row & Hv & Hrow).
  apply list_elem_of_fmap in Hrow as (i & -> & Hi).
  apply elem_of_seq in Hi.
  unfold row_values in Hv.
  apply list_elem_of_join in Hv as (quad & Hv & Hquad).
  apply list_elem_of_fmap in Hquad as (j & -> & Hj).
  apply elem_of_seq in Hj.
  pose proof (quad_indices_range m n (Z.of_nat i) (Z.of_nat j) ltac:(lia) ltac:(lia)) as HF.
  rewrite Forall_forall in HF. apply HF. apply list_elem_of_In. exact Hv.
Qed.

Lemma to_uint16_small (l : list Z) :
  Forall (fun v => 0 <= v < 2 ^ 16) l -> to_uint16 <$> l = l.
Proof.
  induction 1 as [|v l Hv _ IH]; [reflexivity|].
  rewrite fmap_cons, IH. unfold to_uint16. rewrite Z.mod_small by exact Hv. reflexivity.
Qed.



(** ** C4: disturbing the wave field *)

Lemma vec_at_add_height_eq (h : list Q) (k : Z) (d y : Q) :
  vec_at h k = Some y -> vec_at (add_height k d h) k = Some (y + d)%Q.
Proof.
  unfold vec_at, add_height. case_decide; [|discriminate].
  intros Hy. rewrite list_lookup_alter_eq, Hy. reflexivity.
Qed.

Lemma vec_at_add_height_ne (h : list Q) (k k' : Z) (d : Q) :
  0 <= k -> k <> k' -> vec_at (add_height k d h) k' = vec_at h k'.
Proof.
  intros Hk Hne. unfold vec_at, add_height. case_decide; [|reflexivity].
  apply list_lookup_alter_ne. intros E. apply Z2Nat.inj in E; lia.
Qed.

Lemma vec_at_in_range {A : Type} (h : list A) (k : Z) :
  0 <= k < Z.of_nat (length h) -> exists y, vec_at h k = Some y.
Proof.
  intros Hk. unfold vec_at. rewrite decide_True by lia.
  destruct (h !! Z.to_nat k) as [y|] eqn:E; [eauto|].
  apply lookup_ge_None in E. lia.
Qed.

Lemma cell_index_ne (n i j i' j' : Z) :
  0 <= j < n -> 0 <= j' < n -> (i, j) <> (i', j') -> i * n + j <> i' * n + j'.
Proof.
  intros Hj Hj' Hne E. apply Hne.
  assert (i = i') as -> by nia. f_equal. lia.
Qed.

(** C4, as the model has it.  For a cell at least 2 cells from every edge of
    a grid holding one sample per cell, [Disturb] with a positive magnitude
    succeeds and strictly raises the height stored at the target cell, by
    the magnitude; each of the four direct neighbours is raised by the
    neighbour fraction of the magnitude, which is less than the magnitude
    when the fraction is below 1. *)
Theorem disturb_raises_target (nf : Q) (w : Waves) (i j : Z) (magnitude : Q) :
  2 <= i <= RowCount w - 3 -> 2 <= j <= ColumnCount w - 3 ->
  Z.of_nat (length (curr (mGrid w))) = VertexCount w ->
  (0 < magnitude)%Q -> (0 < nf < 1)%Q ->
  exists w' h,
    Disturb nf w i j magnitude = Some w' /\
    height_at w i j = Some h /\
    height_at w' i j = Some (h + magnitude)%Q /\
    (h < h + magnitude)%Q /\
    (nf * magnitude < magnitude)%Q /\
    forall di dj, (di, dj) ∈ [(0, 1); (0, -1); (1, 0); (-1, 0)] ->
      exists g, height_at w (i + di) (j + dj) = Some g /\
                height_at w' (i + di) (j + dj) = Some (g + nf * magnitude)%Q.
Proof.
  intros Hi Hj Hlen Hmag Hnf.
  unfold RowCount, ColumnCount, VertexCount in *.
  set (n := mNumCols w) in *.
  assert (forall a b, 0 <= a < mNumRows w -> 0 <= b < n ->
            exists y, vec_at (curr (mGrid w)) (a * n + b) = Some y) as Hcell.
  { intros a b Ha Hb. apply vec_at_in_range. rewrite Hlen. nia. }
  assert (forall a b, 0 <= a -> 0 <= b < n -> 0 <= a * n + b) as Hnonneg by (intros; nia).
  destruct (Hcell i j ltac:(lia) ltac:(lia)) as [h Hh].
  unfold Disturb. rewrite decide_True by (unfold n; lia). fold n.
  eexists. exists h. split; [reflexivity|].
  unfold height_at. cbn [mGrid curr mNumCols Waves_set_grid]. fold n.
  split; [exact Hh|].
  assert (i * n + j + 1 = i * n + (j + 1)) as E1 by lia.
  assert (i * n + j - 1 = i * n + (j - 1)) as E2 by lia.
  rewrite E1, E2.
  split; [|split; [lra|split; [nra|]]].
  - rewrite !vec_at_add_height_ne
      by (try (apply Hnonneg; lia); apply cell_index_ne; try lia; intros [=]; lia).
    apply vec_at_add_height_eq. exact Hh.
  - intros di dj Hd.
    assert ((di, dj) = (0, 1) \/ (di, dj) = (0, -1) \/ (di, dj) = (1, 0) \/ (di, dj) = (-1, 0))
      as Hcases.
    { repeat (apply elem_of_cons in Hd as [Hd|Hd]; [auto|]). inversion Hd. }
    destruct (Hcell (i + di) (j + dj)) as [g Hg].
    { destruct Hcases as [E|[E|[E|E]]]; injection E as -> ->; lia. }
    { destruct Hcases as [E|[E|[E|E]]]; injection E as -> ->; lia. }
    exists g. split; [exact Hg|].
    destruct Hcases as [E|[E|[E|E]]]; injection E as -> ->.
    + replace (i + 0) with i in * by lia.
      rewrite !vec_at_add_height_ne
        by (try (apply Hnonneg; lia); apply cell_index_ne; try lia; intros [=]; lia).
      apply vec_at_add_height_eq.
      rewrite vec_at_add_height_ne
        by (try (apply Hnonneg; lia); apply cell_index_ne; try lia; intros [=]; lia).
      exact Hg.
    + replace (i + 0) with i in * by lia. replace (j + -1) with (j - 1) in * by lia.
      rewrite !vec_at_add_height_ne
        by (try (apply Hnonneg; lia); apply cell_index_ne; try lia; intros [=]; lia).
      apply vec_at_add_height_eq.
      rewrite !vec_at_add_height_ne
        by (try (apply Hnonneg; lia); apply cell_index_ne; try lia; intros [=]; lia).
      exact Hg.
    + replace (j + 0) with j in * by lia.
      rewrite !vec_at_add_height_ne
        by (try (apply Hnonneg; lia); apply cell_index_ne; try lia; intros [=]; lia).
      apply vec_at_add_height_eq.
      rewrite !vec_at_add_height_ne
        by (try (apply Hnonneg; lia); apply cell_index_ne; try lia; intros [=]; lia).
      exact Hg.
    + replace (j + 0) with j in * by lia. replace (i + -1) with (i - 1) in * by lia.
      apply vec_at_add_height_eq.
      rewrite !vec_at_add_height_ne
        by (try (apply Hnonneg; lia); apply cell_index_ne; try lia; intros [=]; lia).
      exact Hg.
Qed.

Lemma disturb_raises_target_witness :
  2 <= 64 <= RowCount Waves_init - 3 /\ 2 <= 64 <= ColumnCount Waves_init - 3 /\
  Z.of_nat (length (curr (mGrid Waves_init))) = VertexCount Waves_init /\
  (0 < 0.4)%Q /\ (0 < 1 # 2 < 1)%Q /\
  exists w' h,
    Disturb (1 # 2) Waves_init 64 64 0.4 = Some w' /\
    height_at Waves_init 64 64 = Some h /\
    height_at w' 64 64 = Some (h + 0.4)%Q /\
    (h < h + 0.4)%Q /\
    ((1 # 2) * 0.4 < 0.4)%Q /\
    forall di dj, (di, dj) ∈ [(0, 1); (0, -1); (1, 0); (-1, 0)] ->
      exists g, height_at Waves_init (64 + di) (64 + dj) = Some g /\
                height_at w' (64 + di) (64 + dj) = Some (g + (1 # 2) * 0.4)%Q.
Proof.
  assert (2 <= 64 <= RowCount Waves_init - 3) as H1 by (vm_compute; split; discriminate).
  assert (2 <= 64 <= ColumnCount Waves_init - 3) as H2 by (vm_compute; split; discriminate).
  assert (Z.of_nat (length (curr (mGrid Waves_init))) = VertexCount Waves_init) as H3
    by (vm_compute; reflexivity).
  assert (0 < 0.4)%Q as H4 by lra.
  assert (0 < 1 # 2 < 1)%Q as H5 by lra.
  split; [exact H1|]. split; [exact H2|]. split; [exact H3|]. split; [exact H4|].
  split; [exact H5|].
  exact (disturb_raises_target (1 # 2) Waves_init 64 64 0.4 H1 H2 H3 H4 H5).
Defined.

(** C4, counterexample: an impulse of magnitude zero at the centre of the
    field at rest is accepted and leaves the target height where it was. *)
Lemma disturb_zero_magnitude_keeps_height :
  Disturb (1 # 2) Waves_init 64 64 0 = Some example_waves_zero_impulse /\
  height_at Waves_init 64 64 = Some 0%Q /\
  height_at example_waves_zero_impulse 64 64 = Some (0 + 0)%Q /\
  ~ (0 < 0 + 0)%Q.
Proof.
  split; [vm_compute; reflexivity|]. split; [vm_compute; reflexivity|].
  split; [vm_compute; reflexivity|]. vm_compute. discriminate.
Qed.

(** ** C2: the fixed time step of the wave update *)

Section UpdateLoop.

Variable step : HeightGrid -> HeightGrid.


End UpdateLoop.





(** * Further properties of the frame loop *)

(** ** The ring holds the most recent fence values *)

Lemma ring_age_arith (idx j : Z) :
  0 <= idx < 3 -> 1 <= j <= 2 ->
  let i1 := Z.rem (idx + 1) 3 in
  0 <= i1 < 3 /\ (i1 - 0) mod 3 = i1 /\
  (i1 - j) mod 3 = (idx - (j - 1)) mod 3 /\
  Z.to_nat ((idx - (j - 1)) mod 3) <> Z.to_nat i1.
Proof.
  intros Hi Hj i1. subst i1.
  rewrite (Z.rem_mod_nonneg (idx + 1) 3) by lia.
  assert (idx = 0 \/ idx = 1 \/ idx = 2) as Hcase by lia.
  assert (j = 1 \/ j = 2) as Hjcase by lia.
  destruct Hcase as [ -> | [ -> | -> ] ]; destruct Hjcase as [ -> | -> ];
    vm_compute; repeat split; discriminate.
Qed.

Lemma frame_recent gpu rand nf step gt wf sf (s s' : App) (a : Z) :
  length (fences s) = 3%nat ->
  0 <= mCurrFrameResourceIndex s < 3 ->
  0 <= mCurrentFence s -> mCurrentFence s + 1 < 2 ^ 64 ->
  (forall j, 0 <= j < a ->
     fences s !! Z.to_nat ((mCurrFrameResourceIndex s - j) mod 3) = Some (mCurrentFence s - j)) ->
  frame gpu rand nf step gt wf sf s = Some s' ->
  length (fences s') = 3%nat /\
  0 <= mCurrFrameResourceIndex s' < 3 /\
  mCurrFrameResourceIndex s' = (mCurrFrameResourceIndex s + 1) mod 3 /\
  mCurrentFence s' = mCurrentFence s + 1 /\
  (forall j, 0 <= j < Z.min (a + 1) 3 ->
     fences s' !! Z.to_nat ((mCurrFrameResourceIndex s' - j) mod 3) = Some (mCurrentFence s' - j)).
Proof.
  intros Hlen Hidx Hc0 Hc1 Hage Hf.
  pose proof (frame_ring _ _ _ _ _ _ _ _ _ Hf) as (Hi1 & Hlt & Hfen & _ & Hidx1 & Hcur).
  unfold gNumFrameResources in *.
  set (i1 := Z.rem (mCurrFrameResourceIndex s + 1) 3) in *.
  assert (uint64_incr (mCurrentFence s) = mCurrentFence s + 1) as Hincr
    by (unfold uint64_incr; apply Z.mod_small; lia).
  rewrite Hincr in *.
  assert (0 <= i1 < 3) as Hr by (apply (ring_age_arith _ 1 Hidx); lia).
  split; [rewrite Hfen, length_insert; exact Hlen|].
  split; [rewrite Hidx1; exact Hr|].
  split; [rewrite Hidx1; unfold i1; apply Z.rem_mod_nonneg; lia|].
  split; [exact Hcur|].
  intros j Hj. rewrite Hidx1, Hcur, Hfen.
  destruct (decide (j = 0)) as [->|Hj0].
  - replace ((i1 - 0) mod 3) with i1 by (rewrite Z.sub_0_r, Z.mod_small; lia).
    rewrite list_lookup_insert_eq by exact Hlt. f_equal. lia.
  - destruct (ring_age_arith _ j Hidx ltac:(lia)) as (_ & _ & E & Hne). fold i1 in E, Hne.
    rewrite E. rewrite list_lookup_insert_ne by (intros Heq; apply Hne; symmetry; exact Heq).
    rewrite Hage by lia. f_equal. lia.
Qed.

Lemma run_recent gpu rand nf step wf sf : forall timers (s s' : App) (a : Z),
  length (fences s) = 3%nat ->
  0 <= mCurrFrameResourceIndex s < 3 ->
  0 <= mCurrentFence s -> mCurrentFence s + Z.of_nat (length timers) < 2 ^ 64 ->
  0 <= a ->
  (forall j, 0 <= j < a ->
     fences s !! Z.to_nat ((mCurrFrameResourceIndex s - j) mod 3) = Some (mCurrentFence s - j)) ->
  run gpu rand nf step timers wf sf s = Some s' ->
  length (fences s') = 3%nat /\
  mCurrFrameResourceIndex s' = (mCurrFrameResourceIndex s + Z.of_nat (length timers)) mod 3 /\
  mCurrentFence s' = mCurrentFence s + Z.of_nat (length timers) /\
  (forall j, 0 <= j < Z.min (a + Z.of_nat (length timers)) 3 ->
     fences s' !! Z.to_nat ((mCurrFrameResourceIndex s' - j) mod 3) = Some (mCurrentFence s' - j)).
Proof.
  induction timers as [|gt rest IH]; intros s s' a Hlen Hidx Hc0 Hc1 Ha Hage Hrun.
  - injection Hrun as <-. simpl length. rewrite !Z.add_0_r.
    split; [exact Hlen|]. split; [rewrite Z.mod_small; lia|]. split; [reflexivity|].
    intros j Hj. apply Hage. lia.
  - simpl in Hrun. simpl length in *.
    destruct (frame gpu rand nf step gt wf sf s) as [s1|] eqn:Hf; [|discriminate].
    simpl in Hrun.
    destruct (frame_recent _ _ _ _ _ _ _ _ _ a Hlen Hidx Hc0 ltac:(lia) Hage Hf)
      as (Hlen1 & Hidx1 & Hi1 & Hc & Hage1).
    destruct (IH s1 s' (Z.min (a + 1) 3) Hlen1 Hidx1 ltac:(lia) ltac:(lia) ltac:(lia) Hage1 Hrun)
      as (Hlen' & Hi' & Hc' & Hage').
    split; [exact Hlen'|].
    split; [rewrite Hi', Hi1, Z.add_mod_idemp_l by lia; f_equal; lia|].
    split; [lia|].
    intros j Hj. apply Hage'. lia.
Qed.

(** After [n] frames the fence counter of the queue has advanced by [n] and
    the ring holds the values of the most recent frames: the slot [j] places
    behind the current one carries the counter minus [j], for every [j] below
    [min n 3]. *)
Theorem ring_holds_recent_fences (gpu rand : nat -> Z) (nf : Q)
    (step : HeightGrid -> HeightGrid) (timers : list GameTimer)
    (wait_fuel sim_fuel : nat) (s s' : App) :
  length (fences s) = 3%nat ->
  0 <= mCurrFrameResourceIndex s < 3 ->
  0 <= mCurrentFence s -> mCurrentFence s + Z.of_nat (length timers) < 2 ^ 64 ->
  run gpu rand nf step timers wait_fuel sim_fuel s = Some s' ->
  mCurrFrameResourceIndex s' = (mCurrFrameResourceIndex s + Z.of_nat (length timers)) mod 3 /\
  mCurrentFence s' = mCurrentFence s + Z.of_nat (length timers) /\
  forall j, 0 <= j < Z.min (Z.of_nat (length timers)) 3 ->
    fences s' !! Z.to_nat ((mCurrFrameResourceIndex s' - j) mod 3) = Some (mCurrentFence s' - j).
Proof.
  intros Hlen Hidx Hc0 Hc1 Hrun.
  destruct (run_recent gpu rand nf step wait_fuel sim_fuel timers s s' 0 Hlen Hidx Hc0 Hc1
              ltac:(lia) ltac:(intros j Hj; lia) Hrun) as (_ & Hi & Hc & Hage).
  split; [exact Hi|]. split; [exact Hc|]. exact Hage.
Qed.

Lemma ring_holds_recent_fences_witness :
  length (fences example_app) = 3%nat /\
  0 <= mCurrFrameResourceIndex example_app < 3 /\
  0 <= mCurrentFence example_app /\
  mCurrentFence example_app + Z.of_nat (length example_timers) < 2 ^ 64 /\
  run example_gpu example_rand (1 # 2) example_step example_timers 10 10 example_app
    = Some example_app_after /\
  mCurrFrameResourceIndex example_app_after
    = (mCurrFrameResourceIndex example_app + Z.of_nat (length example_timers)) mod 3 /\
  mCurrentFence example_app_after
    = mCurrentFence example_app + Z.of_nat (length example_timers) /\
  forall j, 0 <= j < Z.min (Z.of_nat (length example_timers)) 3 ->
    fences example_app_after !! Z.to_nat ((mCurrFrameResourceIndex example_app_after - j) mod 3)
      = Some (mCurrentFence example_app_after - j).
Proof.
  assert (length (fences example_app) = 3%nat) as H1 by reflexivity.
  assert (0 <= mCurrFrameResourceIndex example_app < 3) as H2 by (simpl; lia).
  assert (0 <= mCurrentFence example_app) as H3 by (simpl; lia).
  assert (mCurrentFence example_app + Z.of_nat (length example_timers) < 2 ^ 64) as H4
    by (vm_compute; reflexivity).
  assert (run example_gpu example_rand (1 # 2) example_step example_timers 10 10 example_app
          = Some example_app_after) as H5 by (vm_compute; reflexivity).
  split; [exact H1|]. split; [exact H2|]. split; [exact H3|]. split; [exact H4|].
  split; [exact H5|].
  exact (ring_holds_recent_fences example_gpu example_rand (1 # 2) example_step example_timers
           10 10 example_app example_app_after H1 H2 H3 H4 H5).
Defined.

(** ** The control thread is at most three frames ahead *)

Lemma advance_safe gpu fuel (s s' : App) (fr : FrameResource) :
  vec_at (mFrameResources s) (Z.rem (mCurrFrameResourceIndex s + 1) gNumFrameResources)
    = Some fr ->
  advance gpu fuel s = Some s' ->
  Fence fr = 0 \/ Fence fr <= gpu (pred (polls s')).
Proof.
  intros Hfr H. unfold advance in H. rewrite Hfr in H. simpl in H.
  destruct (decide (Fence fr <> 0 /\ gpu (polls s) < Fence fr)) as [[Hnz Hlt]|Hno].
  - destruct (WaitForSingleObject gpu (Fence fr) (S (polls s)) fuel) as [woke|] eqn:Hw;
      [|discriminate].
    simpl in H. injection H as <-. simpl.
    apply wait_sound in Hw as (_ & Hf & _). right. exact Hf.
  - injection H as <-. simpl.
    destruct (decide (Fence fr = 0)) as [Hz|Hnz]; [left; exact Hz|].
    right. destruct (decide (gpu (polls s) < Fence fr)) as [Hlt|Hge]; [|lia].
    exfalso. apply Hno. split; assumption.
Qed.

(** After three or more frames, the next frame begins to write its slot only
    once the completion counter has reached the fence value of the frame
    three submissions back, that is the current fence value minus 2: at most
    two submitted frames are still in flight while a third is recorded. *)
Theorem cpu_at_most_three_frames_ahead (gpu rand : nat -> Z) (nf : Q)
    (step : HeightGrid -> HeightGrid) (timers : list GameTimer)
    (wait_fuel sim_fuel : nat) (s s' : App) :
  length (fences s) = 3%nat ->
  0 <= mCurrFrameResourceIndex s < 3 ->
  0 <= mCurrentFence s -> mCurrentFence s + Z.of_nat (length timers) < 2 ^ 64 ->
  (3 <= length timers)%nat ->
  run gpu rand nf step timers wait_fuel sim_fuel s = Some s' ->
  forall fuel s'',
    advance gpu fuel s' = Some s'' ->
    mCurrentFence s' - 2 <= gpu (pred (polls s'')).
Proof.
  intros Hlen Hidx Hc0 Hc1 Hn Hrun fuel s'' Hadv.
  destruct (run_recent gpu rand nf step wait_fuel sim_fuel timers s s' 0 Hlen Hidx Hc0 Hc1
              ltac:(lia) ltac:(intros j Hj; lia) Hrun) as (Hlen' & Hi & Hc & Hage).
  specialize (Hage 2 ltac:(lia)).
  assert (0 <= mCurrFrameResourceIndex s' < 3) as Hidx'
    by (rewrite Hi; apply Z.mod_pos_bound; lia).
  assert (Z.rem (mCurrFrameResourceIndex s' + 1) gNumFrameResources
          = (mCurrFrameResourceIndex s' - 2) mod 3) as Hnext.
  { unfold gNumFrameResources. rewrite Z.rem_mod_nonneg by lia.
    assert (mCurrFrameResourceIndex s' = 0 \/ mCurrFrameResourceIndex s' = 1 \/
            mCurrFrameResourceIndex s' = 2) as Hcase by lia.
    destruct Hcase as [ E | [ E | E ] ]; rewrite E; reflexivity. }
  unfold fences in Hage. rewrite list_lookup_fmap in Hage.
  destruct (mFrameResources s' !! Z.to_nat ((mCurrFrameResourceIndex s' - 2) mod 3))
    as [fr|] eqn:Hfr; [|discriminate].
  simpl in Hage. injection Hage as Hfence.
  assert (vec_at (mFrameResources s')
                 (Z.rem (mCurrFrameResourceIndex s' + 1) gNumFrameResources) = Some fr) as Hvec.
  { rewrite Hnext. unfold vec_at.
    rewrite decide_True by (apply Z.mod_pos_bound; lia). exact Hfr. }
  destruct (advance_safe gpu fuel s' s'' fr Hvec Hadv) as [Hz|Hdone]; lia.
Qed.

Lemma cpu_at_most_three_frames_ahead_witness :
  length (fences example_app) = 3%nat /\
  0 <= mCurrFrameResourceIndex example_app < 3 /\
  0 <= mCurrentFence example_app /\
  mCurrentFence example_app + Z.of_nat (length example_timers) < 2 ^ 64 /\
  (3 <= length example_timers)%nat /\
  run example_gpu example_rand (1 # 2) example_step example_timers 10 10 example_app
    = Some example_app_after /\
  forall fuel s'',
    advance example_gpu fuel example_app_after = Some s'' ->
    mCurrentFence example_app_after - 2 <= example_gpu (pred (polls s'')).
Proof.
  assert (length (fences example_app) = 3%nat) as H1 by reflexivity.
  assert (0 <= mCurrFrameResourceIndex example_app < 3) as H2 by (simpl; lia).
  assert (0 <= mCurrentFence example_app) as H3 by (simpl; lia).
  assert (mCurrentFence example_app + Z.of_nat (length example_timers) < 2 ^ 64) as H4
    by (vm_compute; reflexivity).
  assert (3 <= length example_timers)%nat as H5 by (simpl; lia).
  assert (run example_gpu example_rand (1 # 2) example_step example_timers 10 10 example_app
          = Some example_app_after) as H6 by (vm_compute; reflexivity).
  split; [exact H1|]. split; [exact H2|]. split; [exact H3|]. split; [exact H4|].
  split; [exact H5|]. split; [exact H6|].
  exact (cpu_at_most_three_frames_ahead example_gpu example_rand (1 # 2) example_step
           example_timers 10 10 example_app example_app_after H1 H2 H3 H4 H5 H6).
Defined.

(** ** The water material is uploaded in every frame *)

Lemma assoc_get_set_ne {V : Type} (k k' : string) (v : V) (m : list (string * V)) :
  k <> k' -> assoc_get k' (assoc_set k v m) = assoc_get k' m.
Proof.
  intros Hne. induction m as [|[k0 v0] m IH]; [reflexivity|]. simpl.
  destruct (String.eqb k k0) eqn:E; simpl.
  - apply String.eqb_eq in E. subst k0.
    destruct (String.eqb k' k) eqn:E'; [|reflexivity].
    apply String.eqb_eq in E'. congruence.
  - destruct (String.eqb k' k0); [reflexivity|exact IH].
Qed.

Lemma UpdateMaterialCBs_loop_get slot name : forall mats cb mats' cb' evs,
  UpdateMaterialCBs_loop slot mats cb = Some (mats', cb', evs) ->
  assoc_get name mats' = material_after_pass <$> assoc_get name mats.
Proof.
  induction mats as [|[n mat] mats IH]; intros cb mats' cb' evs H; simpl in H.
  - injection H as <- <- <-. reflexivity.
  - unfold material_after_pass at 1.
    destruct (decide (0 < MatNumFramesDirty mat)) as [Hd|Hd].
    + destruct (CopyData cb (MatCBIndex mat) (MaterialConstants_of mat)) as [cb1|]; [|discriminate].
      simpl in H.
      destruct (UpdateMaterialCBs_loop slot mats cb1) as [[[it c] ev]|] eqn:Hl; [|discriminate].
      simpl in H. injection H as <- <- <-. simpl.
      destruct (String.eqb name n); [simpl|exact (IH _ _ _ _ Hl)].
      unfold material_after_pass. rewrite decide_True by exact Hd. reflexivity.
    + destruct (UpdateMaterialCBs_loop slot mats cb) as [[[it c] ev]|] eqn:Hl; [|discriminate].
      simpl in H. injection H as <- <- <-. simpl.
      destruct (String.eqb name n); [simpl|exact (IH _ _ _ _ Hl)].
      unfold material_after_pass. rewrite decide_False by exact Hd. reflexivity.
Qed.







(** ** What the command list of a frame reads *)

Lemma DrawRenderItems_binds s cur : forall ritems cmds,
  DrawRenderItems s cur ritems = Some cmds ->
  Forall (binds_slot cur) cmds /\
  forall bound rest, exists bound',
    drawn_objects bound (cmds ++ rest) =
      ((fun p => ObjCBIndex <$> mAllRitems s !! p) <$> ritems) ++ drawn_objects bound' rest.
Proof.
  induction ritems as [|p ritems IH]; intros cmds H; simpl in H.
  - injection H as <-. split; [constructor|]. intros bound rest. exists bound. reflexivity.
  - destruct (mAllRitems s !! p) as [ri|] eqn:Hri; [|discriminate]. simpl in H.
    destruct (assoc_get (Mat ri) (mMaterials s)) as [mat|]; [|discriminate]. simpl in H.
    destruct (DrawRenderItems s cur ritems) as [c|] eqn:Hc; [|discriminate].
    simpl in H. injection H as <-.
    destruct (IH c eq_refl) as (HF & HD). split.
    + repeat (constructor; [simpl; auto|]). exact HF.
    + intros bound rest. cbn [app drawn_objects fmap list_fmap].
      destruct (HD (Some (ObjCBIndex ri)) rest) as (bound' & E).
      exists bound'. rewrite E, Hri. reflexivity.
Qed.

(** The command list [Draw] executes binds constant buffers of the current
    slot only, each of its draw calls reads the object record of the item it
    draws, and the slot stamped with the new fence value is that same slot:
    the fence guards exactly the buffers the commands read. *)
Theorem draw_reads_current_slot (s s' : App) :
  Draw s = Some s' ->
  exists cmds cur,
    mCurrFrameResource s = Some cur /\
    since s s' = [EvExecute cmds; EvSignal cur (mCurrentFence s')] /\
    Forall (binds_slot cur) cmds /\
    drawn_objects None cmds =
      (fun p => ObjCBIndex <$> mAllRitems s !! p)
        <$> (mRitemLayer s Opaque ++ mRitemLayer s AlphaTested ++
             mRitemLayer s AlphaTestedTreeSprites ++ mRitemLayer s Transparent) /\
    fences s' !! cur = Some (mCurrentFence s') /\
    forall other, other <> cur -> fences s' !! other = fences s !! other.
Proof.
  intros H. apply Draw_inv in H as (cur & fr & cmds & Hcur & Hfr & Hc & ->).
  exists cmds, cur. split; [exact Hcur|]. split; [apply since_app; reflexivity|].
  unfold Draw_commands in Hc.
  destruct (DrawRenderItems s cur (mRitemLayer s Opaque)) as [c1|] eqn:H1; [|discriminate].
  simpl in Hc.
  destruct (DrawRenderItems s cur (mRitemLayer s AlphaTested)) as [c2|] eqn:H2; [|discriminate].
  simpl in Hc.
  destruct (DrawRenderItems s cur (mRitemLayer s AlphaTestedTreeSprites)) as [c3|] eqn:H3;
    [|discriminate].
  simpl in Hc.
  destruct (DrawRenderItems s cur (mRitemLayer s Transparent)) as [c4|] eqn:H4; [|discriminate].
  simpl in Hc. injection Hc as <-.
  destruct (DrawRenderItems_binds _ _ _ _ H1) as (F1 & D1).
  destruct (DrawRenderItems_binds _ _ _ _ H2) as (F2 & D2).
  destruct (DrawRenderItems_binds _ _ _ _ H3) as (F3 & D3).
  destruct (DrawRenderItems_binds _ _ _ _ H4) as (F4 & D4).
  split; [|split; [|split]].
  - cbn [app]. constructor; [exact I|]. constructor; [reflexivity|].
    apply Forall_app. split; [exact F1|]. constructor; [exact I|].
    apply Forall_app. split; [exact F2|]. constructor; [exact I|].
    apply Forall_app. split; [exact F3|]. constructor; [exact I|]. exact F4.
  - cbn [app drawn_objects].
    destruct (D1 None ([SetPipelineState "alphaTested"] ++ c2 ++
                       [SetPipelineState "treeSprites"] ++ c3 ++
                       [SetPipelineState "transparent"] ++ c4)) as (b1 & E1).
    cbn [app] in E1. rewrite E1. cbn [app drawn_objects].
    destruct (D2 b1 ([SetPipelineState "treeSprites"] ++ c3 ++
                     [SetPipelineState "transparent"] ++ c4)) as (b2 & E2).
    cbn [app] in E2. rewrite E2. cbn [app drawn_objects].
    destruct (D3 b2 ([SetPipelineState "transparent"] ++ c4)) as (b3 & E3).
    cbn [app] in E3. rewrite E3. cbn [app drawn_objects].
    destruct (D4 b3 []) as (b4 & E4). rewrite app_nil_r in E4. rewrite E4.
    cbn [drawn_objects]. rewrite !fmap_app, app_nil_r. reflexivity.
  - unfold fences. simpl. rewrite list_fmap_insert.
    apply list_lookup_insert_eq. rewrite length_fmap. eapply lookup_lt_Some; eauto.
  - intros other Hne. unfold fences. simpl. rewrite list_fmap_insert.
    apply list_lookup_insert_ne. congruence.
Qed.

Lemma draw_reads_current_slot_witness :
  Draw example_app_updated = Some example_app_drawn /\
  exists cmds cur,
    mCurrFrameResource example_app_updated = Some cur /\
    since example_app_updated example_app_drawn
      = [EvExecute cmds; EvSignal cur (mCurrentFence example_app_drawn)] /\
    Forall (binds_slot cur) cmds /\
    drawn_objects None cmds =
      (fun p => ObjCBIndex <$> mAllRitems example_app_updated !! p)
        <$> (mRitemLayer example_app_updated Opaque ++
             mRitemLayer example_app_updated AlphaTested ++
             mRitemLayer example_app_updated AlphaTestedTreeSprites ++
             mRitemLayer example_app_updated Transparent) /\
    fences example_app_drawn !! cur = Some (mCurrentFence example_app_drawn) /\
    forall other, other <> cur ->
                  fences example_app_drawn !! other = fences example_app_updated !! other.
Proof.
  assert (Draw example_app_updated = Some example_app_drawn) as HD
    by (vm_compute; reflexivity).
  split; [exact HD|].
  exact (draw_reads_current_slot example_app_updated example_app_drawn HD).
Defined.

(** ** Accounting of the disturbances *)

Lemma frame_wave_account gpu rand nf step gt wf sf (s s1 : App) :
  frame gpu rand nf step gt wf sf s = Some s1 ->
  exists evs,
    trace s1 = trace s ++ evs /\
    ((Qle_bool 0.25 (TotalTime gt - t_base s) = false /\ disturbances evs = [] /\
      t_base s1 = t_base s /\ rand_calls s1 = rand_calls s)
     \/
     (Qle_bool 0.25 (TotalTime gt - t_base s) = true /\
      (exists d, disturbances evs = [d]) /\
      t_base s1 = (t_base s + 0.25)%Q /\ rand_calls s1 = S (S (S (rand_calls s))))).
Proof.
  intros Hf.
  pose proof (frame_events _ _ _ _ _ _ _ _ _ Hf)
    as (ew & eo & em & ed & n & cmds & s4 & s5 & Ht & Hw & _ & _ & Hdo & _ & _ & Hdm & _ &
        H5 & Ht5 & H4 & H1).
  injection H4 as Hw4 Hb4 Hr4. injection H1 as Hw1 Hb1 Hr1.
  apply UpdateWaves_inv in H5 as (w & tb & rc & evs5 & n5 & Hs5 & Hcase).
  rewrite Hs5 in Ht5, Hw1, Hb1, Hr1. simpl in Ht5, Hw1, Hb1, Hr1.
  apply app_inv_head in Ht5. apply app_inj_tail in Ht5 as [-> _].
  rewrite Hw4, Hb4, Hr4 in Hcase.
  eexists. split; [exact Ht|].
  assert (disturbances ew = []) as Hdw
    by (destruct Hw as [->|(fr & woke & _ & _ & ->)]; reflexivity).
  rewrite !disturbances_app, Hdw, Hdo, Hdm. cbn [app disturbances].
  destruct Hcase as [(Hq & -> & -> & -> & _)|
                     (Hq & i & j & w1 & _ & _ & _ & _ & -> & -> & ->)].
  - left. cbn [app disturbances]. auto.
  - right. cbn [app disturbances]. split; [exact Hq|]. split; [eauto|]. auto.
Qed.

(** A frame disturbs the field exactly when its total time is a quarter
    second or more past [t_base], and then once; so over a run there are at
    most as many disturbances as frames (after a stall the backlog is worked
    off one disturbance per frame), [t_base] has advanced by a quarter second
    per disturbance and [rand()] was called three times per disturbance. *)
Theorem disturbance_accounting (gpu rand : nat -> Z) (nf : Q)
    (step : HeightGrid -> HeightGrid) (timers : list GameTimer)
    (wait_fuel sim_fuel : nat) (s s' : App) :
  run gpu rand nf step timers wait_fuel sim_fuel s = Some s' ->
  let count := length (disturbances (since s s')) in
  (count <= length timers)%nat /\
  (t_base s' == t_base s + 0.25 * inject_Z (Z.of_nat count))%Q /\
  rand_calls s' = (rand_calls s + 3 * count)%nat /\
  (forall gt, timers = [gt] ->
     (count = 1%nat <-> (0.25 <= TotalTime gt - t_base s)%Q) /\
     (count = 0%nat <-> ~ (0.25 <= TotalTime gt - t_base s)%Q)).
Proof.
  intros Hrun count. subst count.
  assert (exists evs, trace s' = trace s ++ evs /\
            (length (disturbances evs) <= length timers)%nat /\
            (t_base s' == t_base s + 0.25 * inject_Z (Z.of_nat (length (disturbances evs))))%Q /\
            rand_calls s' = (rand_calls s + 3 * length (disturbances evs))%nat /\
            (forall gt, timers = [gt] ->
               (length (disturbances evs) = 1%nat <-> (0.25 <= TotalTime gt - t_base s)%Q) /\
               (length (disturbances evs) = 0%nat <-> ~ (0.25 <= TotalTime gt - t_base s)%Q)))
    as (evs & Hevs & H).
  { revert s Hrun. induction timers as [|gt rest IH]; intros s Hrun.
    - injection Hrun as <-. exists []. split; [rewrite app_nil_r; reflexivity|].
      simpl. split; [lia|]. split; [change (inject_Z 0) with 0%Q; ring|].
      split; [lia|]. intros gt Hgt. discriminate.
    - simpl in Hrun.
      destruct (frame gpu rand nf step gt wait_fuel sim_fuel s) as [s1|] eqn:Hf; [|discriminate].
      simpl in Hrun.
      destruct (frame_wave_account _ _ _ _ _ _ _ _ _ Hf) as (e1 & Ht1 & Hcase).
      destruct (IH s1 Hrun) as (e2 & Ht2 & Hlen & Hbase & Hcalls & _).
      exists (e1 ++ e2). split; [rewrite Ht2, Ht1, <- app_assoc; reflexivity|].
      rewrite disturbances_app, length_app.
      destruct Hcase as [(Hq & -> & Hb & Hr)|(Hq & (d & ->) & Hb & Hr)].
      + simpl length. rewrite Hb in Hbase. rewrite Hr in Hcalls.
        split; [lia|]. split; [exact Hbase|]. split; [exact Hcalls|].
        intros g Hg. injection Hg as -> ->. simpl in Hrun. injection Hrun as E. subst s'.
        assert (e2 = []) as ->
          by (apply (app_inv_head (trace s1)); rewrite app_nil_r; symmetry; exact Ht2).
        simpl. assert (~ (0.25 <= TotalTime g - t_base s)%Q) as Hn
          by (intros Hle; apply Qle_bool_iff in Hle; congruence).
        split; split; intros; try lia; try contradiction; auto.
      + simpl length. rewrite Hb in Hbase. rewrite Hr in Hcalls.
        split; [lia|]. split.
        { rewrite Hbase.
          replace (Z.of_nat (1 + length (disturbances e2)))
            with (Z.of_nat (length (disturbances e2)) + 1) by lia.
          rewrite inject_Z_plus. change (inject_Z 1) with 1%Q. ring. }
        split; [lia|].
        intros g Hg. injection Hg as -> ->. simpl in Hrun. injection Hrun as E. subst s'.
        assert (e2 = []) as ->
          by (apply (app_inv_head (trace s1)); rewrite app_nil_r; symmetry; exact Ht2).
        simpl. apply Qle_bool_iff in Hq.
        split; split; intros; try lia; try contradiction; auto. }
  rewrite (since_app _ _ _ Hevs). exact H.
Qed.

Lemma disturbance_accounting_witness :
  run example_gpu example_rand (1 # 2) example_step example_timers 10 10 example_app
    = Some example_app_after /\
  let count := length (disturbances (since example_app example_app_after)) in
  (count <= length example_timers)%nat /\
  (t_base example_app_after == t_base example_app + 0.25 * inject_Z (Z.of_nat count))%Q /\
  rand_calls example_app_after = (rand_calls example_app + 3 * count)%nat /\
  (forall gt, example_timers = [gt] ->
     (count = 1%nat <-> (0.25 <= TotalTime gt - t_base example_app)%Q) /\
     (count = 0%nat <-> ~ (0.25 <= TotalTime gt - t_base example_app)%Q)).
Proof.
  assert (run example_gpu example_rand (1 # 2) example_step example_timers 10 10 example_app
          = Some example_app_after) as Hrun by (vm_compute; reflexivity).
  split; [exact Hrun|].
  exact (disturbance_accounting example_gpu example_rand (1 # 2) example_step example_timers
           10 10 example_app example_app_after Hrun).
Defined.

(** ** The triangles of the wave grid *)

Lemma triangles_quad (n i j : Z) (rest : list Z) :
  triangles (quad_indices n i j ++ rest) =
    (i * n + j, i * n + j + 1, (i + 1) * n + j)
    :: ((i + 1) * n + j, i * n + j + 1, (i + 1) * n + j + 1)
    :: triangles rest.
Proof. reflexivity. Qed.

Lemma row_values_S (n i : Z) (j0 c : nat) :
  row_values n i j0 (S c) = quad_indices n i (Z.of_nat j0) ++ row_values n i (S j0) c.
Proof. reflexivity. Qed.

Lemma grid_values_S (n : Z) (c i0 rows : nat) :
  grid_values n c i0 (S rows) = row_values n (Z.of_nat i0) 0 c ++ grid_values n c (S i0) rows.
Proof. reflexivity. Qed.

Lemma triangles_row (n i : Z) : forall (c j0 : nat) (rest : list Z),
  2 <= n ->
  Forall distinct_corners (triangles rest) ->
  Forall distinct_corners (triangles (row_values n i j0 c ++ rest)) /\
  length (triangles (row_values n i j0 c ++ rest)) = (2 * c + length (triangles rest))%nat.
Proof.
  induction c as [|c IH]; intros j0 rest Hn Hrest.
  - split; [exact Hrest|reflexivity].
  - rewrite row_values_S, <- app_assoc, triangles_quad.
    destruct (IH (S j0) rest Hn Hrest) as (HF & HL).
    split.
    + constructor; [unfold distinct_corners; simpl; lia|].
      constructor; [unfold distinct_corners; simpl; lia|]. exact HF.
    + cbn [length]. rewrite HL. lia.
Qed.

Lemma triangles_grid (n : Z) (c : nat) : forall (rows i0 : nat),
  2 <= n ->
  Forall distinct_corners (triangles (grid_values n c i0 rows)) /\
  length (triangles (grid_values n c i0 rows)) = (rows * (2 * c))%nat.
Proof.
  induction rows as [|rows IH]; intros i0 Hn.
  - split; [constructor|reflexivity].
  - rewrite grid_values_S.
    destruct (IH (S i0) Hn) as (HF & HL).
    destruct (triangles_row n (Z.of_nat i0) c 0 _ Hn HF) as (HF' & HL').
    split; [exact HF'|]. rewrite HL', HL. lia.
Qed.

Lemma BuildWavesIndices_value (w : Waves) :
  1 <= RowCount w -> 1 <= ColumnCount w ->
  BuildWavesIndices w =
    Some (to_uint16 <$> generated_indices (RowCount w) (ColumnCount w),
          6 * (RowCount w - 1) * (ColumnCount w - 1)).
Proof.
  intros Hm Hn. unfold BuildWavesIndices.
  set (m := RowCount w) in *. set (n := ColumnCount w) in *.
  assert (3 * TriangleCount w = 6 * (m - 1) * (n - 1)) as HT
    by (unfold TriangleCount, RowCount, ColumnCount in *; subst m n; lia).
  rewrite HT.
  pose proof (outer_loop_spec m n (Z.to_nat (m - 1)) 0 [] 0) as H.
  cbn [app length] in H. rewrite Nat.add_0_r in H.
  replace (Z.to_nat (6 * (m - 1) * (n - 1)))
    with (Z.to_nat (m - 1) * (6 * Z.to_nat (n - 1)))%nat by nia.
  change (Z.of_nat 0) with 0 in H. rewrite H. rewrite app_nil_r.
  unfold generated_indices. f_equal. f_equal. nia.
Qed.

(** The index buffer [BuildWavesGeometry] fills for a grid of at least 2 by
    2 samples and fewer than [0xffff] vertices lists [TriangleCount]
    triangles, and none of them is degenerate: the three corners of every
    triangle are three different vertices. *)
Theorem wave_triangles_not_degenerate (w : Waves) :
  2 <= RowCount w -> 2 <= ColumnCount w -> VertexCount w < 65535 ->
  exists indices k,
    BuildWavesIndices w = Some (indices, k) /\
    Forall distinct_corners (triangles indices) /\
    Z.of_nat (length (triangles indices)) = TriangleCount w.
Proof.
  intros Hm Hn Hsmall.
  exists (to_uint16 <$> generated_indices (RowCount w) (ColumnCount w)).
  eexists. split; [apply BuildWavesIndices_value; lia|].
  rewrite to_uint16_small.
  - unfold generated_indices.
    destruct (triangles_grid (ColumnCount w) (Z.to_nat (ColumnCount w - 1))
                (Z.to_nat (RowCount w - 1)) 0 Hn) as (HF & HL).
    split; [exact HF|]. rewrite HL. unfold TriangleCount, RowCount, ColumnCount in *. nia.
  - eapply Forall_impl; [|apply generated_indices_range].
    intros v Hv. simpl in Hv. unfold VertexCount, RowCount, ColumnCount in *. lia.
Qed.

Lemma wave_triangles_not_degenerate_witness :
  2 <= RowCount Waves_init /\ 2 <= ColumnCount Waves_init /\
  VertexCount Waves_init < 65535 /\
  exists indices k,
    BuildWavesIndices Waves_init = Some (indices, k) /\
    Forall distinct_corners (triangles indices) /\
    Z.of_nat (length (triangles indices)) = TriangleCount Waves_init.
Proof.
  assert (2 <= RowCount Waves_init) as H1 by (vm_compute; discriminate).
  assert (2 <= ColumnCount Waves_init) as H2 by (vm_compute; discriminate).
  assert (VertexCount Waves_init < 65535) as H3 by (vm_compute; reflexivity).
  split; [exact H1|]. split; [exact H2|]. split; [exact H3|].
  exact (wave_triangles_not_degenerate Waves_init H1 H2 H3).
Defined.

(** ** The tree sprites *)

(** [BuildTreeSpritesGeometry] stores [treeCount] = 5 vertices, each at
    height 12 with [x] and [z] in [[-25, 25]] and size 20 by 20, and leaves
    the other 11 entries of its 16-vertex array as they were created, while
    its index list names all 16 entries; it calls [rand()] ten times. *)
Theorem tree_sprites_written (rand : nat -> Z) (calls : nat) :
  (forall k, 0 <= rand k <= RAND_MAX) ->
  exists vertices,
    BuildTreeSprites rand calls = Some (vertices, Z.of_nat <$> seq 0 16, (calls + 10)%nat) /\
    length vertices = 16%nat /\
    (forall i, (i < 5)%nat ->
       exists x z, vertices !! i = Some (Some {| ts_Pos := (x, (4 + 8)%Q, z); ts_Size := (20, 20)%Q |}) /\
                   (-25 <= x <= 25)%Q /\ (-25 <= z <= 25)%Q) /\
    (forall i, (5 <= i < 16)%nat -> vertices !! i = Some None).
Proof.
  intros Hrand. unfold BuildTreeSprites.
  replace (calls + 10)%nat with (S (S (S (S (S (S (S (S (S (S calls)))))))))) by lia.
  cbn [treeCount Z.to_nat Pos.to_nat Pos.iter_op Nat.add for_loop tree_body mbind option_bind].
  unfold CopyData. cbn.
  eexists. split; [reflexivity|]. split; [reflexivity|]. split.
  - intros i Hi.
    assert (forall k, (-25 <= RandF (-25) 25 (rand k) <= 25)%Q) as HR
      by (intros k; apply RandF_range; [lra|apply Hrand]).
    destruct i as [|[|[|[|[|i]]]]]; [| | | | |lia]; eexists; eexists;
      (split; [reflexivity|split; apply HR]).
  - intros i Hi.
    do 5 (destruct i as [|i]; [lia|]).
    do 11 (destruct i as [|i]; [reflexivity|]). lia.
Qed.

Lemma tree_sprites_written_witness :
  (forall k, 0 <= example_rand k <= RAND_MAX) /\
  exists vertices,
    BuildTreeSprites example_rand 0 = Some (vertices, Z.of_nat <$> seq 0 16, (0 + 10)%nat) /\
    length vertices = 16%nat /\
    (forall i, (i < 5)%nat ->
       exists x z, vertices !! i = Some (Some {| ts_Pos := (x, (4 + 8)%Q, z); ts_Size := (20, 20)%Q |}) /\
                   (-25 <= x <= 25)%Q /\ (-25 <= z <= 25)%Q) /\
    (forall i, (5 <= i < 16)%nat -> vertices !! i = Some None).
Proof.
  split; [exact example_rand_range|].
  exact (tree_sprites_written example_rand 0 example_rand_range).
Defined.

(** ** Every slot receives the constants of a changed item *)

Lemma CopyData_spec {T : Type} (buf buf' : list T) (i : Z) (x : T) :
  CopyData buf i x = Some buf' ->
  length buf' = length buf /\ vec_at buf' i = Some x /\
  forall k, k <> i -> vec_at buf' k = vec_at buf k.
Proof.
  unfold CopyData. case_decide as Hr; [|discriminate]. intros [= <-].
  split; [apply length_insert|]. split.
  - unfold vec_at. rewrite decide_True by lia.
    apply list_lookup_insert_eq. lia.
  - intros k Hk. unfold vec_at. case_decide; [|reflexivity].
    apply list_lookup_insert_ne. intros E. apply Z2Nat.inj in E; lia.
Qed.

Lemma UpdateObjectCBs_loop_untouched slot : forall items pos cb items' cb' evs k,
  UpdateObjectCBs_loop slot pos items cb = Some (items', cb', evs) ->
  (forall e, e ∈ items -> 0 < NumFramesDirty e -> ObjCBIndex e <> k) ->
  vec_at cb' k = vec_at cb k.
Proof.
  induction items as [|e items IH]; intros pos cb items' cb' evs k H Hk; simpl in H.
  - injection H as <- <- <-. reflexivity.
  - destruct (decide (0 < NumFramesDirty e)) as [Hd|Hd].
    + destruct (CopyData cb (ObjCBIndex e) (ObjectConstants_of e)) as [cb1|] eqn:Hc;
        [|discriminate].
      simpl in H.
      destruct (UpdateObjectCBs_loop slot (S pos) items cb1) as [[[it c] ev]|] eqn:Hl;
        [|discriminate].
      simpl in H. injection H as <- <- <-.
      rewrite (IH _ _ _ _ _ k Hl) by (intros e' He'; apply Hk; right; exact He').
      apply CopyData_spec in Hc as (_ & _ & Hother). apply Hother.
      intros E. apply (Hk e); [left|exact Hd|congruence].
    + destruct (UpdateObjectCBs_loop slot (S pos) items cb) as [[[it c] ev]|] eqn:Hl;
        [|discriminate].
      simpl in H. injection H as <- <- <-.
      apply (IH _ _ _ _ _ k Hl). intros e' He'; apply Hk; right; exact He'.
Qed.

Lemma UpdateObjectCBs_loop_written slot : forall items pos cb items' cb' evs p e,
  UpdateObjectCBs_loop slot pos items cb = Some (items', cb', evs) ->
  NoDup (ObjCBIndex <$> items) ->
  items !! p = Some e -> 0 < NumFramesDirty e ->
  vec_at cb' (ObjCBIndex e) = Some (ObjectConstants_of e).
Proof.
  induction items as [|e0 items IH]; intros pos cb items' cb' evs p e H Hnd Hp Hdirty;
    [discriminate|].
  rewrite fmap_cons in Hnd.
  pose proof (NoDup_cons_1_1 _ _ Hnd) as Hnotin. apply NoDup_cons_1_2 in Hnd.
  simpl in H. destruct p as [|p]; simpl in Hp.
  - injection Hp as ->. rewrite decide_True in H by exact Hdirty.
    destruct (CopyData cb (ObjCBIndex e) (ObjectConstants_of e)) as [cb1|] eqn:Hc;
      [|discriminate].
    simpl in H.
    destruct (UpdateObjectCBs_loop slot (S pos) items cb1) as [[[it c] ev]|] eqn:Hl;
      [|discriminate].
    simpl in H. injection H as <- <- <-.
    rewrite (UpdateObjectCBs_loop_untouched _ _ _ _ _ _ _ (ObjCBIndex e) Hl).
    + apply CopyData_spec in Hc as (_ & Hhit & _). exact Hhit.
    + intros e' He' _ E. apply Hnotin. rewrite <- E.
      apply list_elem_of_fmap. exists e'. auto.
  - destruct (decide (0 < NumFramesDirty e0)).
    + destruct (CopyData cb (ObjCBIndex e0) (ObjectConstants_of e0)) as [cb1|]; [|discriminate].
      simpl in H.
      destruct (UpdateObjectCBs_loop slot (S pos) items cb1) as [[[it c] ev]|] eqn:Hl;
        [|discriminate].
      simpl in H. injection H as <- <- <-. eapply IH; eauto.
    + destruct (UpdateObjectCBs_loop slot (S pos) items cb) as [[[it c] ev]|] eqn:Hl;
        [|discriminate].
      simpl in H. injection H as <- <- <-. eapply IH; eauto.
Qed.

(** The object buffers after one frame: only the buffer of the slot the frame
    enters changes, and it becomes the result of the object loop. *)
Lemma frame_object_buffers gpu rand nf step gt wf sf (s s' : App) :
  frame gpu rand nf step gt wf sf s = Some s' ->
  let cur := Z.to_nat (Z.rem (mCurrFrameResourceIndex s + 1) gNumFrameResources) in
  exists cb0 cb items evs,
    obj_buffers s !! cur = Some cb0 /\
    UpdateObjectCBs_loop cur 0 (mAllRitems s) cb0 = Some (items, cb, evs) /\
    obj_buffers s' = <[cur := cb]> (obj_buffers s).
Proof.
  intros H cur.
  apply frame_inv in H as (s1 & s2 & s3 & s4 & s5 & H1 & H2 & H3 & H4 & H5 & H6).
  apply advance_inv in H1 as (fr1 & p1 & ew & Hfr1 & -> & Hw).
  apply AnimateMaterials_inv in H2 as (w & Hwater & ->).
  apply UpdateObjectCBs_inv in H3 as (c3 & fr3 & items & cb3 & eo & Hc3 & Hfr3 & Hl3 & ->).
  simpl in Hc3. injection Hc3 as <-. fold cur in Hfr3, Hl3. simpl in Hfr3, Hl3.
  apply UpdateMaterialCBs_inv in H4 as (c4 & fr4 & mats & cb4 & em & Hc4 & Hfr4 & Hl4 & ->).
  simpl in Hc4. injection Hc4 as <-. fold cur in Hfr4. simpl in Hfr4.
  apply UpdateWaves_inv in H5 as (w5 & tb5 & rc5 & ed & n & -> & Hcase).
  apply Draw_inv in H6 as (c6 & fr6 & cmds & Hc6 & Hfr6 & _ & ->).
  simpl in Hc6. injection Hc6 as <-. fold cur in Hfr6. simpl in Hfr6.
  assert (cur < length (mFrameResources s))%nat as Hlt by (eapply lookup_lt_Some; eauto).
  rewrite list_lookup_insert_eq in Hfr4 by exact Hlt. injection Hfr4 as <-.
  rewrite list_lookup_insert_eq in Hfr6 by (rewrite length_insert; exact Hlt).
  injection Hfr6 as <-.
  exists (ObjectCB fr3), cb3, items, eo.
  split; [unfold obj_buffers; rewrite list_lookup_fmap, Hfr3; reflexivity|].
  split; [exact Hl3|].
  unfold obj_buffers. simpl. fold cur.
  rewrite !list_insert_insert_eq, list_fmap_insert. reflexivity.
Qed.

Lemma item_after_pass_same (e : RenderItem) :
  ObjCBIndex (item_after_pass e) = ObjCBIndex e /\
  ObjectConstants_of (item_after_pass e) = ObjectConstants_of e /\
  World (item_after_pass e) = World e.
Proof. unfold item_after_pass. case_decide; auto. Qed.

Lemma frame_slot_holds gpu rand nf step gt wf sf (s s' : App) (p : nat) (e : RenderItem) (a : Z) :
  frame gpu rand nf step gt wf sf s = Some s' ->
  length (fences s) = 3%nat ->
  0 <= mCurrFrameResourceIndex s < 3 ->
  NoDup (ObjCBIndex <$> mAllRitems s) ->
  mAllRitems s !! p = Some e ->
  0 <= a <= 3 -> NumFramesDirty e = 3 - a ->
  (forall j, 0 <= j < a -> slot_holds s e j) ->
  length (fences s') = 3%nat /\
  0 <= mCurrFrameResourceIndex s' < 3 /\
  NoDup (ObjCBIndex <$> mAllRitems s') /\
  mAllRitems s' !! p = Some (item_after_pass e) /\
  NumFramesDirty (item_after_pass e) = 3 - Z.min (a + 1) 3 /\
  (forall j, 0 <= j < Z.min (a + 1) 3 -> slot_holds s' (item_after_pass e) j).
Proof.
  intros Hf Hlen Hidx Hnd Hp Ha Hd Hold.
  pose proof (frame_ring _ _ _ _ _ _ _ _ _ Hf) as (Hi1 & Hlt & Hfen & _ & Hidx1 & _).
  destruct (frame_object_buffers _ _ _ _ _ _ _ _ _ Hf) as (cb0 & cb & items & evs & Hcb0 & Hl & Hbuf).
  pose proof (frame_events _ _ _ _ _ _ _ _ _ Hf)
    as (_ & _ & _ & _ & _ & _ & _ & _ & _ & _ & Hit & _).
  unfold gNumFrameResources in *.
  set (i1 := Z.rem (mCurrFrameResourceIndex s + 1) 3) in *.
  assert (0 <= i1 < 3) as Hr by (apply (ring_age_arith _ 1 Hidx); lia).
  destruct (item_after_pass_same e) as (Hsame_i & Hsame_c & _).
  split; [rewrite Hfen, length_insert; exact Hlen|].
  split; [rewrite Hidx1; exact Hr|].
  split.
  { rewrite Hit, <- list_fmap_compose.
    erewrite list_fmap_ext; [exact Hnd|].
    intros i x _. simpl. apply item_after_pass_same. }
  split; [rewrite Hit, list_lookup_fmap, Hp; reflexivity|].
  split.
  { unfold item_after_pass. case_decide; simpl; lia. }
  intros j Hj. unfold slot_holds. rewrite Hidx1, Hbuf, Hsame_i, Hsame_c.
  destruct (decide (j = 0)) as [->|Hj0].
  - replace ((i1 - 0) mod 3) with i1 by (rewrite Z.sub_0_r, Z.mod_small; lia).
    exists cb. split.
    + apply list_lookup_insert_eq. eapply lookup_lt_Some; eauto.
    + destruct (decide (0 < NumFramesDirty e)) as [Hdirty|Hclean].
      * exact (UpdateObjectCBs_loop_written _ _ _ _ _ _ _ _ _ Hl Hnd Hp Hdirty).
      * assert (a = 3) as -> by lia.
        destruct (Hold 2 ltac:(lia)) as (cb2 & Hcb2 & Hval).
        assert ((mCurrFrameResourceIndex s - 2) mod 3 = i1) as E.
        { unfold i1. rewrite Z.rem_mod_nonneg by lia.
          assert (mCurrFrameResourceIndex s = 0 \/ mCurrFrameResourceIndex s = 1 \/
                  mCurrFrameResourceIndex s = 2) as Hc by lia.
          destruct Hc as [ -> | [ -> | -> ] ]; reflexivity. }
        rewrite E in Hcb2. rewrite Hcb0 in Hcb2. injection Hcb2 as <-.
        rewrite (UpdateObjectCBs_loop_untouched _ _ _ _ _ _ _ (ObjCBIndex e) Hl);
          [exact Hval|].
        intros e2 He2 Hdirty2 Heq.
        apply list_elem_of_lookup in He2 as (q & Hq).
        assert (q = p) as ->.
        { eapply (NoDup_lookup (ObjCBIndex <$> mAllRitems s)); [exact Hnd| |].
          - rewrite list_lookup_fmap, Hq. reflexivity.
          - rewrite list_lookup_fmap, Hp. simpl. f_equal. symmetry. exact Heq. }
        rewrite Hp in Hq. injection Hq as <-. contradiction.
  - destruct (ring_age_arith _ j Hidx ltac:(lia)) as (_ & _ & E & Hne). fold i1 in E, Hne.
    rewrite E. rewrite list_lookup_insert_ne by (intros Heq; apply Hne; symmetry; exact Heq).
    apply Hold. lia.
Qed.

Lemma run_slot_holds gpu rand nf step wf sf : forall timers (s s' : App) p e a,
  run gpu rand nf step timers wf sf s = Some s' ->
  length (fences s) = 3%nat ->
  0 <= mCurrFrameResourceIndex s < 3 ->
  NoDup (ObjCBIndex <$> mAllRitems s) ->
  mAllRitems s !! p = Some e ->
  0 <= a <= 3 -> NumFramesDirty e = 3 - a ->
  (forall j, 0 <= j < a -> slot_holds s e j) ->
  exists e',
    mAllRitems s' !! p = Some e' /\
    ObjCBIndex e' = ObjCBIndex e /\ ObjectConstants_of e' = ObjectConstants_of e /\
    0 <= mCurrFrameResourceIndex s' < 3 /\
    forall j, 0 <= j < Z.min (a + Z.of_nat (length timers)) 3 -> slot_holds s' e' j.
Proof.
  induction timers as [|gt rest IH]; intros s s' p e a Hrun Hlen Hidx Hnd Hp Ha Hd Hold.
  - injection Hrun as <-. exists e. simpl length. rewrite Z.add_0_r.
    repeat split; try assumption; try lia. intros j Hj. apply Hold. lia.
  - simpl in Hrun.
    destruct (frame gpu rand nf step gt wf sf s) as [s1|] eqn:Hf; [|discriminate].
    simpl in Hrun.
    destruct (frame_slot_holds _ _ _ _ _ _ _ _ _ p e a Hf Hlen Hidx Hnd Hp Ha Hd Hold)
      as (Hlen1 & Hidx1 & Hnd1 & Hp1 & Hd1 & Hold1).
    destruct (IH s1 s' p (item_after_pass e) (Z.min (a + 1) 3) Hrun Hlen1 Hidx1 Hnd1 Hp1
                ltac:(lia) Hd1 Hold1) as (e' & Hp' & Hi' & Hc' & Hidx' & Hold').
    destruct (item_after_pass_same e) as (Hsi & Hsc & _).
    exists e'. split; [exact Hp'|]. split; [congruence|]. split; [congruence|].
    split; [exact Hidx'|].
    intros j Hj. apply Hold'. simpl length in Hj. lia.
Qed.

(** When the dirty counter of a render item is [gNumFrameResources], three
    frames later (and from then on, as long as the item is not changed) the
    object buffer of every slot of the ring holds the constants of that item
    at the item's index, provided no two render items share an index. *)
Theorem every_slot_receives_item (gpu rand : nat -> Z) (nf : Q)
    (step : HeightGrid -> HeightGrid) (timers : list GameTimer)
    (wait_fuel sim_fuel : nat) (s s' : App) (p : nat) (e : RenderItem) :
  length (mFrameResources s) = 3%nat ->
  0 <= mCurrFrameResourceIndex s < 3 ->
  NoDup (ObjCBIndex <$> mAllRitems s) ->
  mAllRitems s !! p = Some e ->
  NumFramesDirty e = gNumFrameResources ->
  (3 <= length timers)%nat ->
  run gpu rand nf step timers wait_fuel sim_fuel s = Some s' ->
  forall slot, (slot < 3)%nat ->
    exists cb, obj_buffers s' !! slot = Some cb /\
               vec_at cb (ObjCBIndex e) = Some (ObjectConstants_of e).
Proof.
  intros Hlen Hidx Hnd Hp Hd Hn Hrun slot Hslot.
  assert (length (fences s) = 3%nat) as Hlen' by (unfold fences; rewrite length_fmap; exact Hlen).
  destruct (run_slot_holds gpu rand nf step wait_fuel sim_fuel timers s s' p e 0 Hrun Hlen'
              Hidx Hnd Hp ltac:(lia) ltac:(rewrite Hd; reflexivity) ltac:(intros j Hj; lia))
    as (e' & _ & Hi & Hc & Hidx' & Hold).
  set (i := mCurrFrameResourceIndex s') in *.
  assert (exists j, 0 <= j < 3 /\ Z.to_nat ((i - j) mod 3) = slot) as (j & Hj & Hjs).
  { exists ((i - Z.of_nat slot) mod 3). split; [apply Z.mod_pos_bound; lia|].
    assert (i = 0 \/ i = 1 \/ i = 2) as Hc1 by lia.
    assert (slot = 0 \/ slot = 1 \/ slot = 2)%nat as Hc2 by lia.
    destruct Hc1 as [ -> | [ -> | -> ] ]; destruct Hc2 as [ -> | [ -> | -> ] ]; reflexivity. }
  destruct (Hold j ltac:(lia)) as (cb & Hcb & Hval). fold i in Hcb.
  rewrite Hjs in Hcb. exists cb. split; [exact Hcb|]. rewrite <- Hi, <- Hc. exact Hval.
Qed.

Lemma every_slot_receives_item_witness :
  length (mFrameResources example_app) = 3%nat /\
  0 <= mCurrFrameResourceIndex example_app < 3 /\
  NoDup (ObjCBIndex <$> mAllRitems example_app) /\
  mAllRitems example_app !! 2%nat = Some (example_item 2 "wirefence" "boxGeo") /\
  NumFramesDirty (example_item 2 "wirefence" "boxGeo") = gNumFrameResources /\
  (3 <= length example_timers)%nat /\
  run example_gpu example_rand (1 # 2) example_step example_timers 10 10 example_app
    = Some example_app_after /\
  forall slot, (slot < 3)%nat ->
    exists cb, obj_buffers example_app_after !! slot = Some cb /\
               vec_at cb (ObjCBIndex (example_item 2 "wirefence" "boxGeo"))
                 = Some (ObjectConstants_of (example_item 2 "wirefence" "boxGeo")).
Proof.
  assert (length (mFrameResources example_app) = 3%nat) as H1 by reflexivity.
  assert (0 <= mCurrFrameResourceIndex example_app < 3) as H2 by (simpl; lia).
  assert (NoDup (ObjCBIndex <$> mAllRitems example_app)) as H3.
  { cbn. repeat (apply NoDup_cons_2; [rewrite list_elem_of_In; simpl; intuition discriminate|]).
    apply NoDup_nil_2. }
  assert (mAllRitems example_app !! 2%nat = Some (example_item 2 "wirefence" "boxGeo")) as H4
    by reflexivity.
  assert (NumFramesDirty (example_item 2 "wirefence" "boxGeo") = gNumFrameResources) as H5
    by reflexivity.
  assert (3 <= length example_timers)%nat as H6 by (simpl; lia).
  assert (run example_gpu example_rand (1 # 2) example_step example_timers 10 10 example_app
          = Some example_app_after) as H7 by (vm_compute; reflexivity).
  split; [exact H1|]. split; [exact H2|]. split; [exact H3|]. split; [exact H4|].
  split; [exact H5|]. split; [exact H6|]. split; [exact H7|].
  exact (every_slot_receives_item example_gpu example_rand (1 # 2) example_step example_timers
           10 10 example_app example_app_after 2 _ H1 H2 H3 H4 H5 H6 H7).
Defined.

(** ** Frames never fault on a well-formed state *)










Lemma item_after_pass_Mat e : Mat (item_after_pass e) = Mat e.
Proof. unfold item_after_pass. case_decide; reflexivity. Qed.

Lemma material_after_pass_index m : MatCBIndex (material_after_pass m) = MatCBIndex m.
Proof. unfold material_after_pass. case_decide; reflexivity. Qed.




























(** ** Static materials are uploaded once per slot *)






Lemma material_after_pass_constants m :
  MaterialConstants_of (material_after_pass m) = MaterialConstants_of m.
Proof. unfold material_after_pass. case_decide; reflexivity. Qed.




(** ** The eye stays on its orbit *)

Lemma PI_above_3_1 : (3.1 < PI)%R.
Proof.
  pose proof (Machin.PI_2_3_7_ineq 0) as [H _].
  unfold Machin.PI_2_3_7_tg, tg_alt, Ratan_seq in H. simpl in H. Lra.lra.
Qed.

Lemma mouse_moves_keeps_range (msgs : list (Z * Z * Z)) : forall c,
  (0.1 <= mPhi c <= MathHelper_Pi - 0.1)%Q /\ (5 <= mRadius c <= 150)%Q ->
  (0.1 <= mPhi (mouse_moves msgs c) <= MathHelper_Pi - 0.1)%Q /\
  (5 <= mRadius (mouse_moves msgs c) <= 150)%Q.
Proof.
  unfold mouse_moves.
  induction msgs as [|m msgs IH]; intros c Hc; [exact Hc|].
  simpl. apply IH. apply OnMouseMove_keeps_range. exact Hc.
Qed.

Lemma eye_position_of_range (c : Camera) :
  (0.1 <= mPhi c <= MathHelper_Pi - 0.1)%Q -> (5 <= mRadius c <= 150)%Q ->
  let '(x, y, z) := UpdateCamera c in
  (x * x + y * y + z * z = Q2R (mRadius c) * Q2R (mRadius c))%R /\
  (25 <= x * x + y * y + z * z)%R /\
  (0 < x * x + z * z)%R.
Proof.
  intros [Hp1 Hp2] [Hr1 Hr2]. unfold UpdateCamera.
  assert (mPhi c <= 3.1)%Q as Hp3 by (unfold MathHelper_Pi in Hp2; lra).
  apply Qle_Rle in Hp1, Hp3, Hr1.
  set (r := Q2R (mRadius c)) in *. set (p := Q2R (mPhi c)) in *.
  set (t := Q2R (mTheta c)) in *.
  clearbody r p t. unfold Q2R in Hp1, Hp3, Hr1. cbn in Hp1, Hp3, Hr1. clear Hr2 Hp2.
  pose proof PI_above_3_1 as Hpi.
  assert (0 < sin p)%R as Hsin by (apply sin_gt_0; Lra.lra).
  pose proof (sin2_cos2 p) as Sp. pose proof (sin2_cos2 t) as St. unfold Rsqr in Sp, St.
  assert (r * sin p * cos t * (r * sin p * cos t) + r * cos p * (r * cos p)
          + r * sin p * sin t * (r * sin p * sin t) = r * r)%R as Hsphere.
  { replace (r * sin p * cos t * (r * sin p * cos t) + r * cos p * (r * cos p)
             + r * sin p * sin t * (r * sin p * sin t))%R
      with (r * r * (sin p * sin p * (sin t * sin t + cos t * cos t) + cos p * cos p))%R by ring.
    rewrite St, Rmult_1_r, Sp. ring. }
  split; [exact Hsphere|]. split.
  - rewrite Hsphere. Lra.nra.
  - replace (r * sin p * cos t * (r * sin p * cos t)
             + r * sin p * sin t * (r * sin p * sin t))%R
      with ((r * sin p) * (r * sin p) * (sin t * sin t + cos t * cos t))%R by ring.
    rewrite St, Rmult_1_r.
    assert (0 < r * sin p)%R by (apply Rmult_lt_0_compat; Lra.lra).
    apply Rmult_lt_0_compat; assumption.
Qed.

(** Whatever mouse-move messages arrive, the eye position
    [UpdateCamera] computes lies on the sphere of radius [mRadius] around
    the look-at target (the origin), at least 5 units away from it, and off
    the vertical axis through the target: the view direction is never zero
    and never parallel to the up vector [(0, 1, 0)] handed to
    [XMMatrixLookAtLH].  This is what the clamps of [OnMouseMove] buy. *)
Theorem eye_stays_on_orbit (msgs : list (Z * Z * Z)) (pos : Z * Z) :
  let c := mouse_moves msgs (Camera_init pos) in
  let '(x, y, z) := UpdateCamera c in
  (x * x + y * y + z * z = Q2R (mRadius c) * Q2R (mRadius c))%R /\
  (25 <= x * x + y * y + z * z)%R /\
  (0 < x * x + z * z)%R.
Proof.
  intros c.
  assert ((0.1 <= mPhi (Camera_init pos) <= MathHelper_Pi - 0.1)%Q /\
          (5 <= mRadius (Camera_init pos) <= 150)%Q) as Hinit.
  { unfold Camera_init, XM_PIDIV2, MathHelper_Pi. cbn [mPhi mRadius]. split; lra. }
  destruct (mouse_moves_keeps_range msgs _ Hinit) as [Hp Hr].
  exact (eye_position_of_range c Hp Hr).
Qed.

(** ** The land mesh: flat positions, hill normals *)

Lemma scaled_arg_lim (a x : R) : derivable_pt_lim (fun t => a * t)%R x a.
Proof.
  change (fun t => a * t)%R with (mult_fct (fct_cte a) id).
  replace a with (0 * id x + fct_cte a x * 1)%R at 2 by (unfold fct_cte, id; ring).
  apply derivable_pt_lim_mult; [apply derivable_pt_lim_const|apply derivable_pt_lim_id].
Qed.

Lemma GetHillsHeight_dx (x z : R) :
  derivable_pt_lim (fun t => GetHillsHeight t z) x (- (GetHillsNormal_n x z).1.1)%R.
Proof.
  unfold GetHillsHeight, GetHillsNormal_n. cbn [fst snd].
  change (fun t => 0.3 * (z * sin (0.1 * t) + t * cos (0.1 * z)))%R
    with (mult_fct (fct_cte 0.3)
            (plus_fct (mult_fct (fct_cte z) (comp sin (fun t => 0.1 * t)%R))
                      (mult_fct id (fct_cte (cos (0.1 * z)))))).
  match goal with |- derivable_pt_lim ?f x ?l =>
    replace l with
      (0 * (plus_fct (mult_fct (fct_cte z) (comp sin (fun t => 0.1 * t)%R))
                      (mult_fct id (fct_cte (cos (0.1 * z))))) x
       + fct_cte 0.3 x *
         ((0 * comp sin (fun t => 0.1 * t)%R x + fct_cte z x * (cos (0.1 * x) * 0.1))
          + (1 * fct_cte (cos (0.1 * z)) x + id x * 0)))%R
  end.
  2:{ unfold plus_fct, mult_fct, fct_cte, comp, id. Lra.lra. }
  apply derivable_pt_lim_mult; [apply derivable_pt_lim_const|].
  apply derivable_pt_lim_plus.
  - apply derivable_pt_lim_mult; [apply derivable_pt_lim_const|].
    apply derivable_pt_lim_comp; [apply scaled_arg_lim|apply derivable_pt_lim_sin].
  - apply derivable_pt_lim_mult; [apply derivable_pt_lim_id|apply derivable_pt_lim_const].
Qed.

Lemma GetHillsHeight_dz (x z : R) :
  derivable_pt_lim (fun t => GetHillsHeight x t) z (- (GetHillsNormal_n x z).2)%R.
Proof.
  unfold GetHillsHeight, GetHillsNormal_n. cbn [fst snd].
  change (fun t => 0.3 * (t * sin (0.1 * x) + x * cos (0.1 * t)))%R
    with (mult_fct (fct_cte 0.3)
            (plus_fct (mult_fct id (fct_cte (sin (0.1 * x))))
                      (mult_fct (fct_cte x) (comp cos (fun t => 0.1 * t)%R)))).
  match goal with |- derivable_pt_lim ?f z ?l =>
    replace l with
      (0 * (plus_fct (mult_fct id (fct_cte (sin (0.1 * x))))
                      (mult_fct (fct_cte x) (comp cos (fun t => 0.1 * t)%R))) z
       + fct_cte 0.3 z *
         ((1 * fct_cte (sin (0.1 * x)) z + id z * 0)
          + (0 * comp cos (fun t => 0.1 * t)%R z + fct_cte x z * (- sin (0.1 * z) * 0.1))))%R
  end.
  2:{ unfold plus_fct, mult_fct, fct_cte, comp, id. Lra.lra. }
  apply derivable_pt_lim_mult; [apply derivable_pt_lim_const|].
  apply derivable_pt_lim_plus.
  - apply derivable_pt_lim_mult; [apply derivable_pt_lim_id|apply derivable_pt_lim_const].
  - apply derivable_pt_lim_mult; [apply derivable_pt_lim_const|].
    apply derivable_pt_lim_comp; [apply scaled_arg_lim|apply derivable_pt_lim_cos].
Qed.

Lemma cos_lower (a : R) : (-2 <= a <= 2)%R -> (1 - a * a / 2 <= cos a)%R.
Proof.
  intros [H1 H2]. destruct (pre_cos_bound a 0 H1 H2) as [H _].
  unfold cos_approx, cos_term in H. simpl in H. Lra.lra.
Qed.

Lemma XMVector3Normalize_unit (v : R * R * R) :
  (0 < v.1.1 * v.1.1 + v.1.2 * v.1.2 + v.2 * v.2)%R ->
  let n := XMVector3Normalize v in
  (n.1.1 * n.1.1 + n.1.2 * n.1.2 + n.2 * n.2 = 1)%R /\
  exists k, (0 < k)%R /\ n = ((v.1.1 * k)%R, (v.1.2 * k)%R, (v.2 * k)%R).
Proof.
  intros Hpos. unfold XMVector3Normalize, XMVector3Length.
  set (q := (v.1.1 * v.1.1 + v.1.2 * v.1.2 + v.2 * v.2)%R) in *.
  assert (0 < sqrt q)%R as Hl by (apply sqrt_lt_R0; exact Hpos).
  destruct (Rlt_dec 0 (sqrt q)) as [_|Hn]; [|contradiction].
  cbn [fst snd]. split.
  - pose proof (sqrt_sqrt q (Rlt_le _ _ Hpos)) as Hq.
    replace (v.1.1 * (1 / sqrt q) * (v.1.1 * (1 / sqrt q))
             + v.1.2 * (1 / sqrt q) * (v.1.2 * (1 / sqrt q))
             + v.2 * (1 / sqrt q) * (v.2 * (1 / sqrt q)))%R
      with (q / (sqrt q * sqrt q))%R.
    + rewrite Hq. field. apply Rgt_not_eq. exact Hpos.
    + unfold q. field. apply Rgt_not_eq. exact Hl.
  - exists (1 / sqrt q)%R. split; [|reflexivity].
    apply Rdiv_lt_0_compat; Lra.lra.
Qed.

Lemma GetHillsNormal_n_positive (x z : R) :
  let v := GetHillsNormal_n x z in
  (0 < v.1.1 * v.1.1 + v.1.2 * v.1.2 + v.2 * v.2)%R.
Proof.
  unfold GetHillsNormal_n. cbn [fst snd].
  set (a := (-0.03 * z * cos (0.1 * x) - 0.3 * cos (0.1 * z))%R).
  set (b := (-0.3 * sin (0.1 * x) + 0.03 * x * sin (0.1 * z))%R).
  clearbody a b. Lra.nra.
Qed.

(** The vector [GetHillsNormal] builds before normalising is
    [(-df/dx, 1, -df/dz)] for [f = GetHillsHeight], as its comment says:
    its first and third components are the negated partial derivatives of
    the height function, its second component is 1. *)
Theorem hills_normal_is_height_gradient (x z : R) :
  derivable_pt_lim (fun t => GetHillsHeight t z) x (- (GetHillsNormal_n x z).1.1)%R /\
  derivable_pt_lim (fun t => GetHillsHeight x t) z (- (GetHillsNormal_n x z).2)%R /\
  (GetHillsNormal_n x z).1.2 = 1%R.
Proof.
  split; [apply GetHillsHeight_dx|]. split; [apply GetHillsHeight_dz|reflexivity].
Qed.

(** [BuildLandGeometry] writes one vertex per vertex of the generated grid,
    in the same order; each keeps the grid vertex's [x], [z] and texture
    coordinates, has height 3, and carries a normal of length 1 that points
    upwards (the normalisation never meets a zero vector). *)
Theorem land_vertices_flat_with_unit_normals (grid : list MeshVertex) :
  Forall2 (fun g v =>
             Pos v = ((Position g).1.1, 3%R, (Position g).2) /\
             TexC v = mv_TexC g /\
             ((Normal v).1.1 * (Normal v).1.1 + (Normal v).1.2 * (Normal v).1.2
              + (Normal v).2 * (Normal v).2 = 1)%R /\
             (0 < (Normal v).1.2)%R)
          grid (BuildLandGeometry_vertices grid).
Proof.
  unfold BuildLandGeometry_vertices. apply Forall2_fmap_r, Forall_Forall2_diag.
  apply Forall_forall. intros g _. unfold land_vertex. cbn [Pos TexC Normal].
  split; [reflexivity|]. split; [reflexivity|].
  destruct (XMVector3Normalize_unit _ (GetHillsNormal_n_positive (Position g).1.1 (Position g).2))
    as (Hunit & k & Hk & Hn).
  split; [exact Hunit|].
  unfold GetHillsNormal. rewrite Hn. cbn [fst snd GetHillsNormal_n].
  unfold GetHillsNormal_n. cbn [Normal fst snd]. Lra.lra.
Qed.

(** The land is flat but lit as hills.  For a grid vertex whose [z] lies
    between -5 and 5, the vertex [BuildLandGeometry] writes has height 3
    like every other land vertex, yet its normal leans towards negative
    [x]: it is not the normal [(0, 1, 0)] of the flat surface the positions
    describe. *)
Theorem flat_land_has_tilted_normals (g : MeshVertex) :
  (-5 <= (Position g).2 <= 5)%R ->
  (Pos (land_vertex g)).1.2 = 3%R /\
  ((Normal (land_vertex g)).1.1 < 0)%R /\
  Normal (land_vertex g) <> (0%R, 1%R, 0%R).
Proof.
  intros Hz. unfold land_vertex. cbn [Pos Normal fst snd].
  split; [reflexivity|].
  set (x := (Position g).1.1) in *. set (z := (Position g).2) in *.
  destruct (XMVector3Normalize_unit _ (GetHillsNormal_n_positive x z))
    as (_ & k & Hk & Hn).
  unfold GetHillsNormal. rewrite Hn.
  unfold GetHillsNormal_n. cbn [fst snd].
  assert (-0.03 * z * cos (0.1 * x) - 0.3 * cos (0.1 * z) < 0)%R as Hneg.
  { pose proof (COS_bound (0.1 * x)) as [Hc1 Hc2].
    pose proof (cos_lower (0.1 * z) ltac:(split; Lra.lra)) as Hc3.
    set (c1 := cos (0.1 * x)) in *. set (c2 := cos (0.1 * z)) in *. clearbody c1 c2.
    assert (z * z <= 25)%R by Lra.nra.
    assert (-5 <= z * c1)%R by Lra.nra.
    Lra.nra. }
  assert ((-0.03 * z * cos (0.1 * x) - 0.3 * cos (0.1 * z)) * k < 0)%R as Hx.
  { set (a := (-0.03 * z * cos (0.1 * x) - 0.3 * cos (0.1 * z))%R) in *. clearbody a.
    Lra.nra. }
  split; [exact Hx|].
  intros E. injection E as E1 _ _. rewrite E1 in Hx. Lra.lra.
Qed.

Lemma flat_land_has_tilted_normals_witness :
  (-5 <= (Position example_grid_vertex).2 <= 5)%R /\
  (Pos (land_vertex example_grid_vertex)).1.2 = 3%R /\
  ((Normal (land_vertex example_grid_vertex)).1.1 < 0)%R /\
  Normal (land_vertex example_grid_vertex) <> (0%R, 1%R, 0%R).
Proof.
  assert (-5 <= (Position example_grid_vertex).2 <= 5)%R as H by (cbn; Lra.lra).
  split; [exact H|]. exact (flat_land_has_tilted_normals example_grid_vertex H).
Defined.

(** ** The wave vertex buffer is rewritten every frame *)

Lemma wave_vertex_loop_spec pos nrm w d : forall (n : nat) (i0 : Z) (vb : list WaveVertex),
  0 <= i0 -> i0 + Z.of_nat n <= Z.of_nat (length vb) ->
  exists vb',
    for_loop n i0 (fun i vb => CopyData vb i (wave_vertex pos nrm w d i)) vb = Some vb' /\
    length vb' = length vb /\
    (forall k, i0 <= k < i0 + Z.of_nat n -> vec_at vb' k = Some (wave_vertex pos nrm w d k)) /\
    (forall k, ~ (i0 <= k < i0 + Z.of_nat n) -> vec_at vb' k = vec_at vb k).
Proof.
  induction n as [|n IH]; intros i0 vb Hi Hlen; cbn [for_loop].
  - exists vb. split; [reflexivity|]. split; [reflexivity|]. split; [lia|auto].
  - destruct (CopyData vb i0 (wave_vertex pos nrm w d i0)) as [vb1|] eqn:E.
    2:{ unfold CopyData in E. rewrite decide_True in E by lia. discriminate. }
    cbn. apply CopyData_spec in E as (Hl1 & Hat & Hother).
    destruct (IH (i0 + 1) vb1 ltac:(lia) ltac:(rewrite Hl1; lia)) as (vb' & Hf & Hl & Hin & Hout).
    exists vb'. split; [exact Hf|]. split; [congruence|]. split.
    + intros k Hk. destruct (decide (k = i0)) as [->|Hne].
      * rewrite Hout by lia. exact Hat.
      * apply Hin. lia.
    + intros k Hk. rewrite Hout by lia. apply Hother. lia.
Qed.

(** When the current slot's wave vertex buffer has room for the vertex
    count, the loop of [UpdateWaves] completes and rewrites the buffer:
    every entry below the vertex count holds the vertex built from the wave
    field's position and normal for that index, nothing of the previous
    frame's content survives there, and the entries above are untouched. *)
Theorem wave_vertex_buffer_rewritten (pos nrm : Z -> Q * Q * Q) (w d : Q)
    (vertexCount : Z) (vb : list WaveVertex) :
  0 <= vertexCount <= Z.of_nat (length vb) ->
  exists vb',
    UpdateWaves_vertices pos nrm w d vertexCount vb = Some vb' /\
    length vb' = length vb /\
    (forall i, 0 <= i < vertexCount -> vec_at vb' i = Some (wave_vertex pos nrm w d i)) /\
    (forall i, vertexCount <= i -> vec_at vb' i = vec_at vb i).
Proof.
  intros Hc. unfold UpdateWaves_vertices.
  destruct (wave_vertex_loop_spec pos nrm w d (Z.to_nat vertexCount) 0 vb ltac:(lia) ltac:(lia))
    as (vb' & Hf & Hl & Hin & Hout).
  exists vb'. split; [exact Hf|]. split; [exact Hl|]. split.
  - intros i Hi. apply Hin. lia.
  - intros i Hi. apply Hout. lia.
Qed.

Lemma wave_vertex_buffer_rewritten_witness :
  0 <= 3 <= Z.of_nat (length (replicate 4 example_stale_vertex)) /\
  exists vb',
    UpdateWaves_vertices example_wave_position example_wave_normal 2 2 3
      (replicate 4 example_stale_vertex) = Some vb' /\
    length vb' = length (replicate 4 example_stale_vertex) /\
    (forall i, 0 <= i < 3 ->
       vec_at vb' i = Some (wave_vertex example_wave_position example_wave_normal 2 2 i)) /\
    (forall i, 3 <= i -> vec_at vb' i = vec_at (replicate 4 example_stale_vertex) i).
Proof.
  assert (0 <= 3 <= Z.of_nat (length (replicate 4 example_stale_vertex))) as H by (cbn; lia).
  split; [exact H|].
  exact (wave_vertex_buffer_rewritten example_wave_position example_wave_normal 2 2 3
           (replicate 4 example_stale_vertex) H).
Defined.

(** The texture coordinates the loop of [UpdateWaves] derives map the
    extent of the grid onto the unit square, as its comment says: for a
    vertex whose [x] lies within half the width and whose [z] within half
    the depth of the origin, both coordinates lie between 0 and 1. *)
Theorem wave_texcoords_in_unit_square (pos nrm : Z -> Q * Q * Q) (w d : Q) (i : Z) :
  (0 < w)%Q -> (0 < d)%Q ->
  (- (w / 2) <= (pos i).1.1 <= w / 2)%Q ->
  (- (d / 2) <= (pos i).2 <= d / 2)%Q ->
  (0 <= (wv_TexC (wave_vertex pos nrm w d i)).1 <= 1)%Q /\
  (0 <= (wv_TexC (wave_vertex pos nrm w d i)).2 <= 1)%Q.
Proof.
  intros Hw Hd [Hx1 Hx2] [Hz1 Hz2]. unfold wave_vertex. cbn [wv_TexC fst snd].
  set (x := (pos i).1.1) in *. set (z := (pos i).2) in *. clearbody x z.
  unfold Qdiv in Hx1, Hx2, Hz1, Hz2.
  change (/ 2)%Q with (1 # 2)%Q in Hx1, Hx2, Hz1, Hz2.
  assert (- (1 # 2) <= x / w <= 1 # 2)%Q as [Ha Hb].
  { split.
    - apply Qle_shift_div_l; [exact Hw|]. lra.
    - apply Qle_shift_div_r; [exact Hw|]. lra. }
  assert (- (1 # 2) <= z / d <= 1 # 2)%Q as [Hc He].
  { split.
    - apply Qle_shift_div_l; [exact Hd|]. lra.
    - apply Qle_shift_div_r; [exact Hd|]. lra. }
  set (u := (x / w)%Q) in *. set (v := (z / d)%Q) in *. clearbody u v.
  repeat split; lra.
Qed.

Lemma wave_texcoords_in_unit_square_witness :
  (0 < 2)%Q /\ (0 < 2)%Q /\
  (- (2 / 2) <= (example_wave_position 0).1.1 <= 2 / 2)%Q /\
  (- (2 / 2) <= (example_wave_position 0).2 <= 2 / 2)%Q /\
  (0 <= (wv_TexC (wave_vertex example_wave_position example_wave_normal 2 2 0)).1 <= 1)%Q /\
  (0 <= (wv_TexC (wave_vertex example_wave_position example_wave_normal 2 2 0)).2 <= 1)%Q.
Proof.
  assert (0 < 2)%Q as H2 by reflexivity.
  assert (- (2 / 2) <= (example_wave_position 0).1.1 <= 2 / 2)%Q as Hx
    by (split; vm_compute; discriminate).
  assert (- (2 / 2) <= (example_wave_position 0).2 <= 2 / 2)%Q as Hz
    by (split; vm_compute; discriminate).
  split; [exact H2|]. split; [exact H2|]. split; [exact Hx|]. split; [exact Hz|].
  exact (wave_texcoords_in_unit_square example_wave_position example_wave_normal 2 2 0
           H2 H2 Hx Hz).
Defined.

(** ** The program's own scene *)








(** ** Every draw binds a texture view of the right kind *)

Lemma same_shape_refl s : same_shape s s.
Proof. repeat split. Qed.

Lemma same_shape_trans s1 s2 s3 : same_shape s1 s2 -> same_shape s2 s3 -> same_shape s1 s3.
Proof.
  intros (A1 & B1 & C1) (A2 & B2 & C2). split; [congruence|]. split.
  - intros l. rewrite B2. apply B1.
  - intros name. rewrite C2. apply C1.
Qed.

Lemma assoc_set_srv (k : string) (v v0 : Material) (m : list (string * Material)) :
  assoc_get k m = Some v0 -> DiffuseSrvHeapIndex v = DiffuseSrvHeapIndex v0 ->
  forall name, DiffuseSrvHeapIndex <$> assoc_get name (assoc_set k v m)
               = DiffuseSrvHeapIndex <$> assoc_get name m.
Proof.
  intros Hget Hidx name. destruct (String.eqb_spec k name) as [<-|Hne].
  - rewrite (assoc_get_set _ _ _ _ Hget), Hget. cbn. rewrite Hidx. reflexivity.
  - rewrite assoc_get_set_ne by exact Hne. reflexivity.
Qed.

Lemma material_after_pass_srv m :
  DiffuseSrvHeapIndex (material_after_pass m) = DiffuseSrvHeapIndex m.
Proof. unfold material_after_pass. case_decide; reflexivity. Qed.

Lemma advance_shape gpu fuel s s' : advance gpu fuel s = Some s' -> same_shape s s'.
Proof.
  intros H. apply advance_inv in H as (fr & p & evs & _ & -> & _). repeat split.
Qed.

Lemma AnimateMaterials_shape gt s s' : AnimateMaterials gt s = Some s' -> same_shape s s'.
Proof.
  intros H. apply AnimateMaterials_inv in H as (w & Hw & ->).
  split; [reflexivity|]. split; [reflexivity|].
  cbn [mMaterials set_mMaterials]. apply (assoc_set_srv _ _ w); [exact Hw|reflexivity].
Qed.

Lemma UpdateObjectCBs_shape s s' : UpdateObjectCBs s = Some s' -> same_shape s s'.
Proof.
  intros H. apply UpdateObjectCBs_inv in H as (cur & fr & items & cb & evs & _ & _ & Hl & ->).
  apply UpdateObjectCBs_loop_spec in Hl as (-> & _).
  split; [|split; reflexivity].
  cbn [mAllRitems emit set_mAllRitems]. rewrite <- list_fmap_compose.
  apply list_fmap_ext. intros i e _. cbn. apply item_after_pass_Mat.
Qed.

Lemma UpdateMaterialCBs_shape s s' : UpdateMaterialCBs s = Some s' -> same_shape s s'.
Proof.
  intros H. apply UpdateMaterialCBs_inv in H as (cur & fr & mats & cb & evs & _ & _ & Hl & ->).
  split; [reflexivity|]. split; [reflexivity|].
  intros name. cbn [mMaterials emit set_mMaterials].
  rewrite (UpdateMaterialCBs_loop_get _ name _ _ _ _ _ Hl).
  destruct (assoc_get name (mMaterials s)) as [m|]; [|reflexivity].
  cbn. rewrite material_after_pass_srv. reflexivity.
Qed.

Lemma UpdateWaves_shape rand nf step gt fuel s s' :
  UpdateWaves rand nf step gt fuel s = Some s' -> same_shape s s'.
Proof.
  intros H. apply UpdateWaves_inv in H as (w & tb & rc & evs & n & -> & _). repeat split.
Qed.

Lemma Draw_shape s s' : Draw s = Some s' -> same_shape s s'.
Proof.
  intros H. apply Draw_inv in H as (cur & fr & cmds & _ & _ & _ & ->). repeat split.
Qed.

Lemma Update_shape gpu rand nf step gt wf sf s s' :
  Update gpu rand nf step gt wf sf s = Some s' -> same_shape s s'.
Proof.
  unfold Update. intros H.
  destruct (advance gpu wf s) as [s1|] eqn:H1; [|discriminate]. cbn in H.
  destruct (AnimateMaterials gt s1) as [s2|] eqn:H2; [|discriminate]. cbn in H.
  destruct (UpdateObjectCBs s2) as [s3|] eqn:H3; [|discriminate]. cbn in H.
  destruct (UpdateMaterialCBs s3) as [s4|] eqn:H4; [|discriminate]. cbn in H.
  eapply same_shape_trans; [eapply advance_shape, H1|].
  eapply same_shape_trans; [eapply AnimateMaterials_shape, H2|].
  eapply same_shape_trans; [eapply UpdateObjectCBs_shape, H3|].
  eapply same_shape_trans; [eapply UpdateMaterialCBs_shape, H4|].
  eapply UpdateWaves_shape, H.
Qed.

Lemma run_shape gpu rand nf step wf sf : forall timers s s',
  run gpu rand nf step timers wf sf s = Some s' -> same_shape s s'.
Proof.
  induction timers as [|gt rest IH]; intros s s' H; cbn [run] in H.
  - injection H as <-. apply same_shape_refl.
  - destruct (frame gpu rand nf step gt wf sf s) as [s1|] eqn:Hf; [|discriminate]. cbn in H.
    unfold frame in Hf.
    destruct (Update gpu rand nf step gt wf sf s) as [s5|] eqn:HU; [|discriminate]. cbn in Hf.
    eapply same_shape_trans; [eapply Update_shape, HU|].
    eapply same_shape_trans; [eapply Draw_shape, Hf|].
    apply IH, H.
Qed.

Lemma layer_textures_shape heap s s' l :
  same_shape s s' -> layer_textures heap s l -> layer_textures heap s' l.
Proof.
  intros (HA & HB & HC) H. unfold layer_textures in *. rewrite HB.
  eapply Forall_impl; [|exact H]. intros p Hp ri' mat' Hri' Hmat'. cbn in Hp.
  assert ((Mat <$> mAllRitems s') !! p = Some (Mat ri')) as E
    by (rewrite list_lookup_fmap, Hri'; reflexivity).
  rewrite HA, list_lookup_fmap in E.
  destruct (mAllRitems s !! p) as [ri|] eqn:Hri; [|discriminate].
  cbn in E. injection E as E.
  pose proof (HC (Mat ri')) as Hsrv. rewrite Hmat' in Hsrv. cbn in Hsrv.
  destruct (assoc_get (Mat ri') (mMaterials s)) as [mat|] eqn:Hmat; [|discriminate].
  cbn in Hsrv. injection Hsrv as Hsrv. rewrite Hsrv.
  apply (Hp ri mat); [reflexivity|]. rewrite E. exact Hmat.
Qed.

Lemma DrawRenderItems_match heap s cur pso : forall ritems cmds rest,
  Forall (fun p => forall ri mat,
            mAllRitems s !! p = Some ri -> assoc_get (Mat ri) (mMaterials s) = Some mat ->
            srv_ok heap pso (DiffuseSrvHeapIndex mat)) ritems ->
  DrawRenderItems s cur ritems = Some cmds ->
  bindings_match heap pso rest ->
  bindings_match heap pso (cmds ++ rest).
Proof.
  induction ritems as [|p ritems IH]; intros cmds rest HF H Hrest; cbn [DrawRenderItems] in H.
  - injection H as <-. exact Hrest.
  - apply Forall_cons_1 in HF as [Hp HF].
    destruct (mAllRitems s !! p) as [ri|] eqn:Hri; [|discriminate]. cbn in H.
    destruct (assoc_get (Mat ri) (mMaterials s)) as [mat|] eqn:Hmat; [|discriminate].
    cbn in H.
    destruct (DrawRenderItems s cur ritems) as [c|] eqn:Hc; [|discriminate].
    cbn in H. injection H as <-. cbn [app bindings_match].
    split; [apply (Hp ri mat); [reflexivity|exact Hmat]|].
    apply IH; [exact HF|reflexivity|exact Hrest].
Qed.

Lemma Draw_commands_match heap s cur cmds :
  (forall l, layer_textures heap s l) ->
  Draw_commands s cur = Some cmds ->
  forall pso, bindings_match heap pso cmds.
Proof.
  intros HL H pso. unfold Draw_commands in H.
  destruct (DrawRenderItems s cur (mRitemLayer s Opaque)) as [c1|] eqn:E1; [|discriminate].
  cbn in H.
  destruct (DrawRenderItems s cur (mRitemLayer s AlphaTested)) as [c2|] eqn:E2;
    [|discriminate].
  cbn in H.
  destruct (DrawRenderItems s cur (mRitemLayer s AlphaTestedTreeSprites)) as [c3|] eqn:E3;
    [|discriminate].
  cbn in H.
  destruct (DrawRenderItems s cur (mRitemLayer s Transparent)) as [c4|] eqn:E4;
    [|discriminate].
  cbn in H. injection H as <-. cbn [app bindings_match].
  apply (DrawRenderItems_match heap s cur "opaque" _ _ _ (HL Opaque) E1).
  cbn [app bindings_match].
  apply (DrawRenderItems_match heap s cur "alphaTested" _ _ _ (HL AlphaTested) E2).
  cbn [app bindings_match].
  apply (DrawRenderItems_match heap s cur "treeSprites" _ _ _ (HL AlphaTestedTreeSprites) E3).
  cbn [app bindings_match].
  rewrite <- (app_nil_r c4).
  apply (DrawRenderItems_match heap s cur "transparent" _ _ _ (HL Transparent) E4).
  exact I.
Qed.

Lemma BuildDescriptorHeaps_value :
  BuildDescriptorHeaps LoadTextures = Some mSrvDescriptorHeap /\
  length mSrvDescriptorHeap = 7%nat /\
  Forall (fun d => is_Some d) mSrvDescriptorHeap.
Proof.
  split; [reflexivity|]. split; [reflexivity|].
  unfold mSrvDescriptorHeap. cbn. repeat constructor; eauto.
Qed.

Lemma Initialize_textures DrawArgs fence0 (l : RenderLayer) :
  layer_textures mSrvDescriptorHeap (Initialize DrawArgs fence0) l.
Proof.
  unfold layer_textures.
  destruct l; cbn [mRitemLayer Initialize BuildRenderItems_mRitemLayer];
    repeat (apply Forall_cons_2;
            [intros ri mat Hri Hmat; cbn in Hri; injection Hri as <-;
             cbn in Hmat; injection Hmat as <-;
             eexists; split; reflexivity|]);
    apply Forall_nil_2.
Qed.

(** Every draw of the program binds a texture view of the kind its pipeline
    expects.  [LoadTextures] and [BuildDescriptorHeaps] fill all seven
    descriptors of the heap without a fault, and in the command list that
    [Draw] records in any frame of any run from the state [Initialize]
    builds, every descriptor table bound while the tree-sprite pipeline
    state is set is a view of a texture array, and every one bound under the
    opaque, alpha-tested or transparent pipeline state is a view of a plain
    2D texture, each inside the heap. *)
Theorem draws_bind_expected_texture_views (DrawArgs : string -> string -> Z * Z * Z)
    (fence0 : Z) (gpu rand : nat -> Z) (nf : Q) (step : HeightGrid -> HeightGrid)
    (timers : list GameTimer) (gt : GameTimer) (wait_fuel sim_fuel : nat)
    (s s5 : App) (cur : nat) (cmds : list command) :
  run gpu rand nf step timers wait_fuel sim_fuel (Initialize DrawArgs fence0) = Some s ->
  Update gpu rand nf step gt wait_fuel sim_fuel s = Some s5 ->
  Draw_commands s5 cur = Some cmds ->
  BuildDescriptorHeaps LoadTextures = Some mSrvDescriptorHeap /\
  Forall (fun d => is_Some d) mSrvDescriptorHeap /\
  bindings_match mSrvDescriptorHeap "" cmds.
Proof.
  intros Hrun HU HD.
  destruct BuildDescriptorHeaps_value as (Hheap & _ & Hfull).
  split; [exact Hheap|]. split; [exact Hfull|].
  apply (Draw_commands_match _ s5 cur cmds); [|exact HD].
  intros l. eapply layer_textures_shape; [|apply (Initialize_textures DrawArgs fence0)].
  eapply same_shape_trans; [eapply run_shape, Hrun|eapply Update_shape, HU].
Qed.

Lemma draws_bind_expected_texture_views_witness :
  run example_gpu example_rand (1 # 2) example_step example_timers 10 10
      (Initialize example_DrawArgs 1) = Some example_scene_after /\
  Update example_gpu example_rand (1 # 2) example_step
         {| TotalTime := 0.5; DeltaTime := 0.1 |} 10 10 example_scene_after
    = Some example_scene_updated /\
  Draw_commands example_scene_updated 2 = Some example_scene_commands /\
  BuildDescriptorHeaps LoadTextures = Some mSrvDescriptorHeap /\
  Forall (fun d => is_Some d) mSrvDescriptorHeap /\
  bindings_match mSrvDescriptorHeap "" example_scene_commands.
Proof.
  assert (run example_gpu example_rand (1 # 2) example_step example_timers 10 10
              (Initialize example_DrawArgs 1) = Some example_scene_after) as H1
    by (vm_compute; reflexivity).
  assert (Update example_gpu example_rand (1 # 2) example_step
                 {| TotalTime := 0.5; DeltaTime := 0.1 |} 10 10 example_scene_after
          = Some example_scene_updated) as H2 by (vm_compute; reflexivity).
  assert (Draw_commands example_scene_updated 2 = Some example_scene_commands) as H3
    by (vm_compute; reflexivity).
  split; [exact H1|]. split; [exact H2|]. split; [exact H3|].
  exact (draws_bind_expected_texture_views example_DrawArgs 1 example_gpu example_rand (1 # 2)
           example_step example_timers {| TotalTime := 0.5; DeltaTime := 0.1 |} 10 10
           example_scene_after example_scene_updated 2 example_scene_commands H1 H2 H3).
Defined.
